(** * TSLA option tracker: credit-spread engine, TTL cache and broadcast hub

    A shallow embedding of the TypeScript sources

    - [src/unnamed/part_001] (the multi-provider [tsla-options] route and
      the [market-news] route),
    - [src/app/api/tsla-options/route.ts] (the single-provider route),
    - [src/unnamed/part_006] ([SimpleCache] and [WebSocketManager]),
    - [src/unnamed/part_000] (the [economic-calendar] route, a third user
      of the cache),
    - [src/unnamed/part_003] (the state of [PriceAlerts], which listens to
      the hub) and [src/components/MarketNews.tsx] (the filters of the card
      that reads the news route),

    together with the properties the specification states about them and
    further properties the sources show.

    JavaScript numbers are IEEE-754 binary64 values; they are modelled by
    Rocq's primitive [float], which is the same format with the same
    round-to-nearest-even arithmetic, comparisons and special values. *)

From Stdlib Require Import ZArith List Bool Lia Floats Ascii String Sorted
  Permutation.
From stdpp Require Import gmap strings.

Set Warnings "-inexact-float".
Local Open Scope float_scope.

(** ** JavaScript numbers and the [Math] functions the sources use *)

Module JS.

Definition number := float.

(** [a > b] and [a >= b] of the source, through the primitive tests. *)
Definition gtb (a b : number) : bool := b <? a.
Definition geb (a b : number) : bool := b <=? a.

(** Truthiness of a number: every number but [0], [-0] and [NaN]. *)
Definition truthy (x : number) : bool := negb (is_nan x || is_zero x).

(** [Math.max] and [Math.min] of two arguments: [NaN] is contagious and
    [+0] is larger than [-0]. *)
Definition Math_max (a b : number) : number :=
  if is_nan a || is_nan b then nan
  else if a <? b then b
  else if b <? a then a
  else if get_sign a then b else a.

Definition Math_min (a b : number) : number :=
  if is_nan a || is_nan b then nan
  else if a <? b then a
  else if b <? a then b
  else if get_sign a then a else b.

(** [Math.sign]: [NaN], [+0] and [-0] are returned unchanged. *)
Definition Math_sign (d : number) : number :=
  if 0 <? d then 1 else if d <? 0 then -1 else d.

Definition Math_sqrt (x : number) : number := sqrt x.

Definition Math_PI : number := 3.141592653589793.

(** The integer a number is exactly, for integers of either sign. *)
Definition of_Z (z : Z) : number :=
  SF2Prim (binary_normalize prec emax z 0 false).

(** [Math.ceil]: infinities, zeros and [NaN] are returned unchanged, and a
    number in [(-1, 0)] gives [-0]. *)
Definition Math_ceil (x : number) : number :=
  match Prim2SF x with
  | S754_finite s m e =>
      if (0 <=? e)%Z then x
      else
        let n := if s then Z.neg m else Z.pos m in
        let q := (- ((- n) / 2 ^ (- e)))%Z in
        SF2Prim (binary_normalize prec emax q 0 s)
  | _ => x
  end.

(** [ToIntegerOrInfinity] on a finite number: truncation towards zero. *)
Definition truncate (x : number) : Z :=
  match Prim2SF x with
  | S754_finite s m e =>
      let v := if (0 <=? e)%Z then (Z.pos m * 2 ^ e)%Z
               else (Z.pos m / 2 ^ (- e))%Z in
      if s then (- v)%Z else v
  | _ => 0%Z
  end.

(** [TimeClip]: the time value of [new Date(t)]; [NaN] for an invalid date. *)
Definition TimeClip (t : number) : number :=
  if negb (is_finite t) then nan
  else if 8.64e15 <? abs t then nan
  else of_Z (truncate t).

(** [Array.prototype.sort] with a comparator.  ECMAScript requires the sort
    to be stable and reads a [NaN] comparator result as [0]; for a
    consistent comparator the result is the one of a stable insertion:
    [x], which stood before the elements of [l], moves behind [y] only when
    [cmp x y > 0]. *)
Section Sort.
Context {A : Type} (cmp : A -> A -> number).

Fixpoint sort_insert (x : A) (l : list A) : list A :=
  match l with
  | [] => [x]
  | y :: l' => if 0 <? cmp x y then y :: sort_insert x l' else x :: l
  end.

Definition Array_sort (l : list A) : list A := foldr sort_insert [] l.
End Sort.

(** [a.slice(0, n)] *)
Definition slice0 {A : Type} (n : nat) (l : list A) : list A := firstn n l.

End JS.

(** ** The order of numbers

    IEEE comparison orders the numbers other than [NaN] as the triples
    below order lexicographically: the class (negative infinity, negative,
    zero, positive, positive infinity), then exponent and mantissa, both
    negated for a negative number.  [-0] and [+0] share a key. *)

Definition lex3 (a b : Z * Z * Z) : comparison :=
  let '(a1, a2, a3) := a in
  let '(b1, b2, b3) := b in
  match (a1 ?= b1)%Z with
  | Eq => match (a2 ?= b2)%Z with Eq => (a3 ?= b3)%Z | c => c end
  | c => c
  end.

Definition lexlt (a b : Z * Z * Z) : Prop :=
  (a.1.1 < b.1.1
   \/ (a.1.1 = b.1.1 /\ (a.1.2 < b.1.2 \/ (a.1.2 = b.1.2 /\ a.2 < b.2))))%Z.

Definition key (x : spec_float) : option (Z * Z * Z) :=
  match x with
  | S754_nan => None
  | S754_infinity true => Some (-2, 0, 0)%Z
  | S754_infinity false => Some (2, 0, 0)%Z
  | S754_zero _ => Some (0, 0, 0)%Z
  | S754_finite false m e => Some (1, e, Z.pos m)%Z
  | S754_finite true m e => Some (-1, - e, Z.neg m)%Z
  end.

Definition fkey (x : float) : option (Z * Z * Z) := key (Prim2SF x).

Definition lex_ltb (a b : option (Z * Z * Z)) : bool :=
  match a, b with
  | Some a, Some b => match lex3 a b with Lt => true | _ => false end
  | _, _ => false
  end.

Definition lex_leb (a b : option (Z * Z * Z)) : bool :=
  match a, b with
  | Some a, Some b => match lex3 a b with Gt => false | _ => true end
  | _, _ => false
  end.

Definition lex_eqb (a b : option (Z * Z * Z)) : bool :=
  match a, b with
  | Some a, Some b => match lex3 a b with Eq => true | _ => false end
  | _, _ => false
  end.

(** A non-zero finite number or an infinity, of sign [s]. *)
Definition signed_shape (s : bool) (x : spec_float) : Prop :=
  (exists m e, x = S754_finite s m e) \/ x = S754_infinity s.

(** ** What the sources take from the platform

    [Math.log] and [Math.exp] are implementation-approximated in ECMAScript;
    only the results the standard fixes for boundary arguments are known.
    [Date.prototype.toISOString] and [parseFloat] are used by the sources as
    black boxes. *)
Class Platform := {
  Math_log : JS.number -> JS.number;
  Math_exp : JS.number -> JS.number;
  Date_toISOString : JS.number -> string;
  parseFloat : string -> JS.number;
  Math_log_nan : Math_log nan = nan;
  Math_log_neg : forall x, (x <? 0) = true -> Math_log x = nan;
  Math_log_one : Math_log 1 = 0;
  Math_exp_nan : Math_exp nan = nan
}.

(** [s.split('T')[0]]: the part of [s] before its first [T]. *)
Fixpoint split_T_0 (s : string) : string :=
  match s with
  | EmptyString => EmptyString
  | String c s' =>
      if Ascii.eqb c "T"%char then EmptyString else String c (split_T_0 s')
  end.

(** ** A reference platform

    One platform among those ECMAScript allows, to run the model on
    examples: [Math.exp] and [Math.log] by argument reduction and power
    series, with the results the standard fixes for boundary arguments. *)

Module Reference.

Definition LN2 : float := 0.6931471805599453.

(** [sum_{i < n} x^i / i!], from the last term inwards. *)
Fixpoint exp_taylor (n : nat) (i : float) (x : float) : float :=
  match n with
  | O => 1
  | S n => 1 + x / i * exp_taylor n (i + 1) x
  end.

Definition exp (x : float) : float :=
  if is_nan x then nan
  else if x =? infinity then infinity
  else if x =? neg_infinity then 0
  else if is_zero x then 1
  else
    let k := JS.truncate (x / LN2) in
    let r := x - JS.of_Z k * LN2 in
    Z.ldexp (exp_taylor 24 1 r) k.

(** [t + t^3/3 + t^5/5 + ...], [n] terms from exponent [i]. *)
Fixpoint atanh_series (n : nat) (i : float) (t t2 : float) : float :=
  match n with
  | O => 0
  | S n => t / i + atanh_series n (i + 2) (t * t2) t2
  end.

Definition log (x : float) : float :=
  if is_nan x then nan
  else if x <? 0 then nan
  else if is_zero x then neg_infinity
  else if x =? infinity then infinity
  else if x =? 1 then 0
  else
    let '(m, e) := Z.frexp x in
    let t := (m - 1) / (m + 1) in
    JS.of_Z e * LN2 + 2 * atanh_series 40 1 t (t * t).

(** Decimal digits of a natural number below [10 ^ width], zero-padded. *)
Fixpoint pad (width : nat) (n : Z) : string :=
  match width with
  | O => EmptyString
  | S w =>
      (pad w (n / 10)
       ++ String (ascii_of_nat (48 + Z.to_nat (n mod 10))) EmptyString)%string
  end.

(** [Date.prototype.toISOString] for a valid time value; the civil date is
    computed from the day number in the proleptic Gregorian calendar. *)
Definition toISOString (t : float) : string :=
  let ms := JS.truncate t in
  let days := (ms / 86400000)%Z in
  let rest := (ms mod 86400000)%Z in
  let z := (days + 719468)%Z in
  let era := (z / 146097)%Z in
  let doe := (z - era * 146097)%Z in
  let yoe := ((doe - doe / 1460 + doe / 36524 - doe / 146096) / 365)%Z in
  let doy := (doe - (365 * yoe + yoe / 4 - yoe / 100))%Z in
  let mp := ((5 * doy + 2) / 153)%Z in
  let d := (doy - (153 * mp + 2) / 5 + 1)%Z in
  let m := (if mp <? 10 then mp + 3 else mp - 9)%Z in
  let y := (yoe + era * 400 + (if m <=? 2 then 1 else 0))%Z in
  let year :=
    if ((0 <=? y) && (y <=? 9999))%Z then pad 4 y
    else ((if (y <? 0)%Z then "-" else "+") ++ pad 6 (Z.abs y))%string in
  (year ++ "-" ++ pad 2 m ++ "-" ++ pad 2 d ++ "T"
   ++ pad 2 (rest / 3600000) ++ ":" ++ pad 2 (rest / 60000 mod 60) ++ ":"
   ++ pad 2 (rest / 1000 mod 60) ++ "." ++ pad 3 (rest mod 1000) ++ "Z")%string.

(** [parseFloat] on a decimal literal: an optional sign, digits and an
    optional fraction; what follows is ignored, and [NaN] is the result when
    no digit is read.  Exponents and the [Infinity] literal are not read. *)
Definition digit_of (c : ascii) : option Z :=
  let n := nat_of_ascii c in
  if ((48 <=? n) && (n <=? 57))%nat then Some (Z.of_nat (n - 48)) else None.

Fixpoint read_digits (s : string) (acc : Z) (count : nat) : Z * nat * string :=
  match s with
  | String c s' =>
      match digit_of c with
      | Some d => read_digits s' (acc * 10 + d)%Z (S count)
      | None => (acc, count, s)
      end
  | EmptyString => (acc, count, s)
  end.

Definition parseFloat (s : string) : float :=
  let '(negative, s) :=
    match s with
    | String "-"%char s' => (true, s')
    | String "+"%char s' => (false, s')
    | _ => (false, s)
    end in
  let '(int, n1, s) := read_digits s 0 0 in
  let '(num, n2) :=
    match s with
    | String "."%char s' =>
        let '(num, n2, _) := read_digits s' int 0 in (num, n2)
    | _ => (int, O)
    end in
  if (n1 + n2 =? 0)%nat then nan
  else
    let v := JS.of_Z num / JS.of_Z (10 ^ Z.of_nat n2) in
    if negative then - v else v.

End Reference.

(** ** Data model (both routes declare the same two interfaces) *)

Record OptionContract := {
  contractSymbol : string;
  strike : JS.number;
  expiration : JS.number;
  bid : JS.number;
  ask : JS.number;
  lastPrice : JS.number;
  volume : JS.number;
  openInterest : JS.number;
  impliedVolatility : JS.number;
  inTheMoney : bool
}.

Inductive SpreadType := call | put.

(** [type === 'call'] and [type === 'put'] *)
Definition is_call (t : SpreadType) : bool :=
  match t with call => true | put => false end.
Definition is_put (t : SpreadType) : bool :=
  match t with call => false | put => true end.

Record CreditSpreadRecommendation := {
  type : SpreadType;
  shortStrike : JS.number;
  longStrike : JS.number;
  expirationDate : string;
  creditReceived : JS.number;
  maxProfit : JS.number;
  maxLoss : JS.number;
  breakeven : JS.number;
  probOfProfit : JS.number;
  riskRewardRatio : JS.number;
  daysToExpiration : JS.number
}.

(** [getDaysToExpiration] is the same in both routes.  [now] is the reading
    of the clock, [new Date().getTime()], that this call takes. *)
Definition getDaysToExpiration (now : JS.number)
    (expirationTimestamp : JS.number) : JS.number :=
  let expiration := JS.TimeClip (expirationTimestamp * 1000) in
  JS.Math_ceil ((expiration - now) / (1000 * 60 * 60 * 24)).

(** ** The clock of a request

    The option routes read the clock with [new Date()] and [Date.now()],
    anew at every place and in every round of a loop or call of a callback;
    between two readings lookups are awaited.  A request is given the
    readings it takes: one for each place that reads the clock and, where
    the place is run more than once, one for each round.  Nothing is
    assumed of the readings, not even that they grow. *)
Record Clock := {
  (** [Date.now()] in [apiCache.get] *)
  atLookup : JS.number;
  (** [new Date()] in the callback of the window filter, on [options[i]] *)
  atFilter : nat -> JS.number;
  (** [new Date()] in round [i] of the loop over the calls *)
  atCallLoop : nat -> JS.number;
  (** [new Date()] in round [i] of the loop over the puts *)
  atPutLoop : nat -> JS.number;
  (** [new Date()] of [lastUpdate] *)
  atLastUpdate : JS.number;
  (** [Date.now()] in [apiCache.set] *)
  atStore : JS.number;
  (** [Date.now()] in the [k]-th static recommendation *)
  atMock : nat -> JS.number
}.

(** The clock of a request that is served within one millisecond. *)
Definition always (now : JS.number) : Clock :=
  {| atLookup := now; atFilter := fun _ => now; atCallLoop := fun _ => now;
     atPutLoop := fun _ => now; atLastUpdate := now; atStore := now;
     atMock := fun _ => now |}.

(** ** The TTL cache, [SimpleCache] of [src/unnamed/part_006]

    The file holds the class twice; the two copies differ only in how
    [cleanup] walks the map (over a copy of the entries or over the live
    iterator), which gives the same map.  [now] is the value of [Date.now()]
    read by the method. *)

Module SimpleCache.
Section WithValue.
Context {V : Type}.

Record entry := { data : V; timestamp : JS.number; ttl : JS.number }.

(** The test [Date.now() - item.timestamp > item.ttl] of [get] and
    [cleanup]. *)
Definition expired (now : JS.number) (item : entry) : bool :=
  JS.gtb (now - timestamp item) (ttl item).

Definition set (key : string) (d : V) (ttlSeconds : JS.number)
    (now : JS.number) (cache : gmap string entry) : gmap string entry :=
  <[ key := {| data := d; timestamp := now; ttl := ttlSeconds * 1000 |} ]>
    cache.

(** [get] returns the value read ([None] for [null]) and the map it
    leaves. *)
Definition get (key : string) (now : JS.number) (cache : gmap string entry)
  : option V * gmap string entry :=
  match cache !! key with
  | None => (None, cache)
  | Some item =>
      if expired now item then (None, delete key cache)
      else (Some (data item), cache)
  end.

Definition clear (cache : gmap string entry) : gmap string entry := ∅.

Definition size (cache : gmap string entry) : nat := base.size cache.

Definition cleanup (now : JS.number) (cache : gmap string entry)
  : gmap string entry :=
  filter (fun kv => expired now kv.2 = false) cache.

End WithValue.
Arguments entry : clear implicits.
End SimpleCache.

(** ** What a route receives from the network

    A lookup is one [await fetch(...)] followed by [await response.json()].
    [Throws] stands for every way the pair raises: a rejected fetch, a body
    that is not JSON, and a body that is the JSON [null] (the first property
    read on it raises a [TypeError]).  Fields the sources test for presence
    are optional, the others have the type the sources' interfaces give
    them. *)

Inductive Lookup (A : Type) : Type :=
| Throws
| Json (body : A).
Arguments Throws {A}.
Arguments Json {A} body.

(** [optionsData] of the Yahoo option-chain lookup. *)
Record OptionsEntry := {
  calls : option (list OptionContract);
  puts : option (list OptionContract)
}.
Record ChainResult := { options : option (list OptionsEntry) }.
Record OptionChain := { result : option (list ChainResult) }.
Record OptionsData := { optionChain : option OptionChain }.

(** [process.env] as the routes read it. *)
Record ProcessEnv := {
  ALPHA_VANTAGE_API_KEY : option string;
  FMP_API_KEY : option string
}.

(** [process.env.X || 'demo']: an unset or empty variable gives ['demo']. *)
Definition or_demo (v : option string) : string :=
  match v with
  | Some s => if String.eqb s "" then "demo" else s
  | None => "demo"
  end.

(** The payload of a recommendation refresh and the JSON response. *)
Record ResponseData := {
  currentPrice : JS.number;
  lastUpdate : string;
  recommendations : list CreditSpreadRecommendation
}.

Record Response := {
  success : bool;
  data : ResponseData;
  cached : option bool
}.

Definition cacheKey : string := "tsla-options-data".

(** [xs.filter(callback)] for a callback that reads the clock: [p i x] is
    the callback on [xs[i]], the element at index [i] counted from the
    index of the head. *)
Fixpoint filterAt {A : Type} (p : nat -> A -> bool) (i : nat) (xs : list A)
  : list A :=
  match xs with
  | [] => []
  | x :: rest =>
      if p i x then x :: filterAt p (S i) rest else filterAt p (S i) rest
  end.

(** The test of the window filter on a contract, at the reading [now]. *)
Definition inWindow (now targetDTE : JS.number) (option : OptionContract)
  : bool :=
  let dte := getDaysToExpiration now (expiration option) in
  JS.geb dte (targetDTE - 2) && (dte <=? targetDTE + 2).

(** [targetOptions] of [findCreditSpreads], the same in both routes;
    [now i] is the reading the callback takes on [options[i]]. *)
Definition targetOptions (now : nat -> JS.number)
    (options : list OptionContract) (targetDTE : JS.number)
  : list OptionContract :=
  filterAt (fun i option => inWindow (now i) targetDTE option) 0 options.

Definition callOptions (currentPrice : JS.number)
    (targetOptions : list OptionContract) : list OptionContract :=
  List.filter
    (fun option => negb (inTheMoney option) || JS.gtb (strike option) currentPrice)
    targetOptions.

Definition putOptions (currentPrice : JS.number)
    (targetOptions : list OptionContract) : list OptionContract :=
  List.filter
    (fun option => negb (inTheMoney option) || (strike option <? currentPrice))
    targetOptions.

(** [for (let i = 0; i < xs.length - 1; i++)] over [xs[i]] and [xs[i + 1]]:
    [body i] is run on every pair of neighbours, in order, [i] being the
    index of the round counted from the index of the head, and the
    recommendations it pushes are collected. *)
Fixpoint forAdjacent {A B : Type} (body : nat -> A -> A -> list B) (i : nat)
    (xs : list A) : list B :=
  match xs with
  | shortOption :: (longOption :: _) as rest =>
      body i shortOption longOption ++ forAdjacent body (S i) rest
  | _ => []
  end.

(** The [try] block of [GET] from the option-chain lookup to [allOptions],
    the same in both routes; [None] when it throws.  The explicit
    [throw new Error('No options data available')] guards a missing
    [optionChain], a missing [result] and an empty [result]; a missing or
    empty [result[0].options] raises a [TypeError] on the next property
    read; missing [calls] or [puts] are read as [[]]. *)
Definition allOptions (chain : Lookup OptionsData)
  : option (list OptionContract) :=
  match chain with
  | Throws => None
  | Json optionsData =>
      match optionChain optionsData with
      | None => None
      | Some oc =>
          match result oc with
          | None => None
          | Some [] => None
          | Some (result0 :: _) =>
              match options result0 with
              | None => None
              | Some [] => None
              | Some (options0 :: _) =>
                  Some (default [] (calls options0)
                        ++ default [] (puts options0))
              end
          end
      end
  end.

(** The static recommendations both routes serve from their [catch]; each
    of the two reads the clock for its date. *)
Section Mock.
Context `{Platform}.

Definition mockExpiration (now : JS.number) : string :=
  split_T_0 (Date_toISOString (JS.TimeClip (now + 7 * 24 * 60 * 60 * 1000))).

Definition mockRecommendations (now : nat -> JS.number)
  : list CreditSpreadRecommendation :=
  [ {| type := call; shortStrike := 260; longStrike := 265;
       expirationDate := mockExpiration (now 0%nat);
       creditReceived := 1.25; maxProfit := 1.25; maxLoss := 3.75;
       breakeven := 261.25; probOfProfit := 68; riskRewardRatio := 0.33;
       daysToExpiration := 7 |};
    {| type := put; shortStrike := 240; longStrike := 235;
       expirationDate := mockExpiration (now 1%nat);
       creditReceived := 1.10; maxProfit := 1.10; maxLoss := 3.90;
       breakeven := 238.90; probOfProfit := 72; riskRewardRatio := 0.28;
       daysToExpiration := 7 |} ].

Definition mockResponse (clock : Clock) : Response :=
  {| success := true;
     data := {| currentPrice := 250.75;
                lastUpdate := Date_toISOString (atLastUpdate clock);
                recommendations := mockRecommendations (atMock clock) |};
     cached := None |}.

End Mock.

(** ** The multi-provider route, [src/unnamed/part_001] *)

Module Enhanced.
Section WithPlatform.
Context `{Platform}.

(** The source gives [impliedVol] and [daysToExp] the defaults 0.3 and 7;
    its only caller passes both. *)
Definition calculateProbOfProfit
    (currentPrice shortStrike creditReceived : JS.number) (type : SpreadType)
    (impliedVol daysToExp : JS.number) : JS.number :=
  let timeToExpiration := daysToExp / 365 in
  let breakeven :=
    if is_call type then shortStrike + creditReceived
    else shortStrike - creditReceived in
  let d := Math_log (currentPrice / breakeven)
           / (impliedVol * JS.Math_sqrt timeToExpiration) in
  let cdf :=
    0.5 * (1 + JS.Math_sign d
               * JS.Math_sqrt (1 - Math_exp (-2 * d * d / JS.Math_PI))) in
  let probability :=
    if is_call type then (1 - cdf) * 100 else cdf * 100 in
  let probability := probability + JS.Math_max 0 ((10 - daysToExp) * 2) in
  let moneyness := currentPrice / shortStrike in
  let probability :=
    if is_call type && (moneyness <? 0.95) then probability + 10
    else probability in
  let probability :=
    if is_put type && JS.gtb moneyness 1.05 then probability + 10
    else probability in
  JS.Math_min (JS.Math_max probability 20) 85.

(** The body of a round of the loop over the calls, and below of the loop
    over the puts: what the round pushes.  [now] is the reading of the clock
    the round takes for [daysToExp], which it tests again. *)
Definition callSpread (now currentPrice : JS.number)
    (shortOption longOption : OptionContract)
  : list CreditSpreadRecommendation :=
  if JS.gtb (strike longOption) (strike shortOption) then
    let creditReceived := bid shortOption - ask longOption in
    let maxLoss := (strike longOption - strike shortOption) - creditReceived in
    let maxProfit := creditReceived in
    let daysToExp := getDaysToExpiration now (expiration shortOption) in
    let avgIV :=
      (impliedVolatility shortOption + impliedVolatility longOption) / 2 in
    if JS.gtb creditReceived 0.15 && JS.gtb (maxProfit / maxLoss) 0.25
       && JS.geb daysToExp 5 && (daysToExp <=? 10)
    then
      let probOfProfit :=
        calculateProbOfProfit currentPrice (strike shortOption)
          creditReceived call avgIV daysToExp in
      [ {| type := call;
           shortStrike := strike shortOption;
           longStrike := strike longOption;
           expirationDate :=
             split_T_0 (Date_toISOString
                          (JS.TimeClip (expiration shortOption * 1000)));
           creditReceived := creditReceived;
           maxProfit := maxProfit;
           maxLoss := maxLoss;
           breakeven := strike shortOption + creditReceived;
           probOfProfit := probOfProfit;
           riskRewardRatio := maxProfit / maxLoss;
           daysToExpiration := daysToExp |} ]
    else []
  else [].

Definition putSpread (now currentPrice : JS.number)
    (shortOption longOption : OptionContract)
  : list CreditSpreadRecommendation :=
  if strike longOption <? strike shortOption then
    let creditReceived := bid shortOption - ask longOption in
    let maxLoss := (strike shortOption - strike longOption) - creditReceived in
    let maxProfit := creditReceived in
    let daysToExp := getDaysToExpiration now (expiration shortOption) in
    let avgIV :=
      (impliedVolatility shortOption + impliedVolatility longOption) / 2 in
    if JS.gtb creditReceived 0.15 && JS.gtb (maxProfit / maxLoss) 0.25
       && JS.geb daysToExp 5 && (daysToExp <=? 10)
    then
      let probOfProfit :=
        calculateProbOfProfit currentPrice (strike shortOption)
          creditReceived put avgIV daysToExp in
      [ {| type := put;
           shortStrike := strike shortOption;
           longStrike := strike longOption;
           expirationDate :=
             split_T_0 (Date_toISOString
                          (JS.TimeClip (expiration shortOption * 1000)));
           creditReceived := creditReceived;
           maxProfit := maxProfit;
           maxLoss := maxLoss;
           breakeven := strike shortOption - creditReceived;
           probOfProfit := probOfProfit;
           riskRewardRatio := maxProfit / maxLoss;
           daysToExpiration := daysToExp |} ]
    else []
  else [].

(** [recommendations] as the two loops leave it, before the sort. *)
Definition pairing (clock : Clock) (options : list OptionContract)
    (currentPrice targetDTE : JS.number) : list CreditSpreadRecommendation :=
  let targetOptions := targetOptions (atFilter clock) options targetDTE in
  forAdjacent (fun i => callSpread (atCallLoop clock i) currentPrice) 0
    (callOptions currentPrice targetOptions)
  ++ forAdjacent (fun i => putSpread (atPutLoop clock i) currentPrice) 0
       (putOptions currentPrice targetOptions).

Definition byRiskReward (a b : CreditSpreadRecommendation) : JS.number :=
  riskRewardRatio b - riskRewardRatio a.

Definition findCreditSpreads (clock : Clock)
    (options : list OptionContract) (currentPrice targetDTE : JS.number)
  : list CreditSpreadRecommendation :=
  JS.slice0 10
    (JS.Array_sort byRiskReward
       (pairing clock options currentPrice targetDTE)).

(** What the three quote providers answer when asked.  Yahoo's
    [regularMarketPrice] and FMP's [price] are numbers, Alpha Vantage's
    ['05. price'] is a string; [None] is a path that optional chaining
    reads as [undefined]. *)
Record Quotes := {
  yahoo : Lookup (option JS.number);
  alphaVantage : Lookup (option string);
  fmp : Lookup (option JS.number)
}.

(** [if (price) return price] on a number and
    [if (price) return parseFloat(price)] on a string; a lookup that throws
    is caught and logged. *)
Definition tryNumber (l : Lookup (option JS.number)) : option JS.number :=
  match l with
  | Json (Some price) => if JS.truthy price then Some price else None
  | _ => None
  end.

Definition tryString (l : Lookup (option string)) : option JS.number :=
  match l with
  | Json (Some price) =>
      if String.eqb price "" then None else Some (parseFloat price)
  | _ => None
  end.

(** Each provider is asked inside its own [try]; the first [return]
    reached ends the function.  Alpha Vantage and Financial Modeling Prep
    are asked only under [KEY !== 'demo']. *)
Definition getCurrentPrice (env : ProcessEnv) (q : Quotes) : JS.number :=
  match tryNumber (yahoo q) with
  | Some price => price
  | None =>
      match
        (if String.eqb (or_demo (ALPHA_VANTAGE_API_KEY env)) "demo" then None
         else tryString (alphaVantage q))
      with
      | Some price => price
      | None =>
          match
            (if String.eqb (or_demo (FMP_API_KEY env)) "demo" then None
             else tryNumber (fmp q))
          with
          | Some price => price
          | None => 250
          end
      end
  end.

(** The [GET] handler: the response and the cache it leaves.  The cache is
    read at one reading of the clock and, after the lookups, written at
    another. *)
Definition GET (clock : Clock) (env : ProcessEnv) (q : Quotes)
    (chain : Lookup OptionsData)
    (cache : gmap string (SimpleCache.entry ResponseData))
  : Response * gmap string (SimpleCache.entry ResponseData) :=
  match SimpleCache.get cacheKey (atLookup clock) cache with
  | (Some cachedData, cache) =>
      ({| success := true; data := cachedData; cached := Some true |}, cache)
  | (None, cache) =>
      let currentPrice := getCurrentPrice env q in
      match allOptions chain with
      | Some allOptions =>
          let recommendations :=
            findCreditSpreads clock allOptions currentPrice 7 in
          let responseData :=
            {| currentPrice := currentPrice;
               lastUpdate := Date_toISOString (atLastUpdate clock);
               recommendations := recommendations |} in
          ({| success := true; data := responseData; cached := None |},
           SimpleCache.set cacheKey responseData 30 (atStore clock) cache)
      | None => (mockResponse clock, cache)
      end
  end.

End WithPlatform.
End Enhanced.

(** ** The single-provider route, [src/app/api/tsla-options/route.ts] *)

Module Basic.
Section WithPlatform.
Context `{Platform}.

Definition calculateProbOfProfit
    (currentPrice shortStrike creditReceived : JS.number) (type : SpreadType)
  : JS.number :=
  if is_call type then
    let breakeven := shortStrike + creditReceived in
    if currentPrice <? breakeven then 65 else 35
  else
    let breakeven := shortStrike - creditReceived in
    if JS.gtb currentPrice breakeven then 65 else 35.

(** The body of a round of the loop over the calls, and below of the loop
    over the puts.  [now] is the reading of the clock the round takes for
    the [daysToExpiration] it pushes: a reading later than the one of the
    window filter, and the days it gives are not tested. *)
Definition callSpread (now currentPrice : JS.number)
    (shortOption longOption : OptionContract)
  : list CreditSpreadRecommendation :=
  if JS.gtb (strike longOption) (strike shortOption) then
    let creditReceived := bid shortOption - ask longOption in
    let maxLoss := (strike longOption - strike shortOption) - creditReceived in
    let maxProfit := creditReceived in
    if JS.gtb creditReceived 0.10 && JS.gtb (maxProfit / maxLoss) 0.2 then
      [ {| type := call;
           shortStrike := strike shortOption;
           longStrike := strike longOption;
           expirationDate :=
             split_T_0 (Date_toISOString
                          (JS.TimeClip (expiration shortOption * 1000)));
           creditReceived := creditReceived;
           maxProfit := maxProfit;
           maxLoss := maxLoss;
           breakeven := strike shortOption + creditReceived;
           probOfProfit :=
             calculateProbOfProfit currentPrice (strike shortOption)
               creditReceived call;
           riskRewardRatio := maxProfit / maxLoss;
           daysToExpiration :=
             getDaysToExpiration now (expiration shortOption) |} ]
    else []
  else [].

Definition putSpread (now currentPrice : JS.number)
    (shortOption longOption : OptionContract)
  : list CreditSpreadRecommendation :=
  if strike longOption <? strike shortOption then
    let creditReceived := bid shortOption - ask longOption in
    let maxLoss := (strike shortOption - strike longOption) - creditReceived in
    let maxProfit := creditReceived in
    if JS.gtb creditReceived 0.10 && JS.gtb (maxProfit / maxLoss) 0.2 then
      [ {| type := put;
           shortStrike := strike shortOption;
           longStrike := strike longOption;
           expirationDate :=
             split_T_0 (Date_toISOString
                          (JS.TimeClip (expiration shortOption * 1000)));
           creditReceived := creditReceived;
           maxProfit := maxProfit;
           maxLoss := maxLoss;
           breakeven := strike shortOption - creditReceived;
           probOfProfit :=
             calculateProbOfProfit currentPrice (strike shortOption)
               creditReceived put;
           riskRewardRatio := maxProfit / maxLoss;
           daysToExpiration :=
             getDaysToExpiration now (expiration shortOption) |} ]
    else []
  else [].

Definition pairing (clock : Clock) (options : list OptionContract)
    (currentPrice targetDTE : JS.number) : list CreditSpreadRecommendation :=
  let targetOptions := targetOptions (atFilter clock) options targetDTE in
  forAdjacent (fun i => callSpread (atCallLoop clock i) currentPrice) 0
    (callOptions currentPrice targetOptions)
  ++ forAdjacent (fun i => putSpread (atPutLoop clock i) currentPrice) 0
       (putOptions currentPrice targetOptions).

Definition byRiskReward (a b : CreditSpreadRecommendation) : JS.number :=
  riskRewardRatio b - riskRewardRatio a.

Definition findCreditSpreads (clock : Clock)
    (options : list OptionContract) (currentPrice targetDTE : JS.number)
  : list CreditSpreadRecommendation :=
  JS.slice0 10
    (JS.Array_sort byRiskReward
       (pairing clock options currentPrice targetDTE)).

(** The price lookup of this route sits in the handler's own [try]: a
    lookup that throws sends the handler to its [catch].  [None] below is
    that throw. *)
Definition currentPriceOf (priceData : Lookup (option string))
  : option JS.number :=
  match priceData with
  | Throws => None
  | Json None => Some 250
  | Json (Some price) =>
      if String.eqb price "" then Some 250 else Some (parseFloat price)
  end.

(** The [GET] handler, with the readings of the clock as in the
    multi-provider route. *)
Definition GET (clock : Clock) (priceData : Lookup (option string))
    (chain : Lookup OptionsData)
    (cache : gmap string (SimpleCache.entry ResponseData))
  : Response * gmap string (SimpleCache.entry ResponseData) :=
  match SimpleCache.get cacheKey (atLookup clock) cache with
  | (Some cachedData, cache) =>
      ({| success := true; data := cachedData; cached := Some true |}, cache)
  | (None, cache) =>
      match currentPriceOf priceData with
      | None => (mockResponse clock, cache)
      | Some currentPrice =>
          match allOptions chain with
          | Some allOptions =>
              let recommendations :=
                findCreditSpreads clock allOptions currentPrice 7 in
              let responseData :=
                {| currentPrice := currentPrice;
                   lastUpdate := Date_toISOString (atLastUpdate clock);
                   recommendations := recommendations |} in
              ({| success := true; data := responseData; cached := None |},
               SimpleCache.set cacheKey responseData 30 (atStore clock) cache)
          | None => (mockResponse clock, cache)
          end
      end
  end.

End WithPlatform.
End Basic.

(** ** The broadcast hub, [WebSocketManager] of [src/unnamed/part_006]

    The manager runs in one thread; each method and each timer or response
    handler runs to completion.  The model gives every handler as a function
    from the manager's state to its next state and the effects it performs,
    in order.  A subscriber is known by the identity of its function object,
    a number here; what it does when called is given by [run], which returns
    the observer's world and tells whether the call threw.  Subscribers do
    not call back into the manager.  [connect] does not fail here, the
    runtime having a [WebSocket]; what it does where it fails is given
    apart, in [Reconnection] below. *)

Module WebSocketManager.

Inductive DataType := price | options | news.

Definition DataType_eqb (a b : DataType) : bool :=
  match a, b with
  | price, price | options, options | news, news => true
  | _, _ => false
  end.

Abbreviation SubscriptionCallback := nat.

Inductive Effect {Data : Type} :=
| SetInterval (id : nat) (topic : DataType) (ms : Z)
| ClearInterval (id : nat)
| Fetch (topic : DataType) (url : string)
| Invoke (callback : SubscriptionCallback) (data : Data)
| ConsoleError (topic : DataType) (callback : SubscriptionCallback)
| UpdateFailed (topic : DataType)
| ConsoleLog (msg : string).
Arguments Effect : clear implicits.

(** The simulated socket: the three interval ids its [close] clears. *)
Record Socket := {
  priceInterval : nat;
  optionsInterval : nat;
  newsInterval : nat
}.

Record State := {
  ws : option Socket;
  reconnectAttempts : nat;
  subscribers : DataType -> list SubscriptionCallback;
  isConnecting : bool;
  (** the runtime's table of live intervals and its next fresh id *)
  intervals : list (nat * DataType);
  nextId : nat
}.

Definition maxReconnectAttempts : nat := 5.

(** [this.ws && this.ws.readyState === WebSocket.OPEN]: the simulated
    socket is created open and never changes its [readyState]. *)
Definition isOpen (s : State) : bool :=
  match ws s with Some _ => true | None => false end.

(** [new WebSocketManager()] *)
Definition constructor : State :=
  {| ws := None; reconnectAttempts := 0; subscribers := fun _ => [];
     isConnecting := false; intervals := []; nextId := 0 |}.

(** [Set.prototype.add] and [delete] on a set kept in insertion order. *)
Definition Set_add (x : nat) (s : list nat) : list nat :=
  if existsb (Nat.eqb x) s then s else s ++ [x].
Definition Set_delete (x : nat) (s : list nat) : list nat :=
  List.filter (fun y => negb (Nat.eqb x y)) s.

Definition with_subscribers (type : DataType) (set : list nat) (s : State)
  : State :=
  {| ws := ws s; reconnectAttempts := reconnectAttempts s;
     subscribers :=
       fun t => if DataType_eqb t type then set else subscribers s t;
     isConnecting := isConnecting s; intervals := intervals s;
     nextId := nextId s |}.

Definition getTotalSubscribers (s : State) : nat :=
  length (subscribers s price) + length (subscribers s options)
  + length (subscribers s news).

Section WithData.
Context {Data World : Type}.
(** [{ price: data.currentPrice, timestamp: data.lastUpdate }] *)
Variable pricePayload : Data -> Data.
Variable run : SubscriptionCallback -> Data -> World -> World * bool.

Definition simulateWebSocket (s : State) : State * list (Effect Data) :=
  let p := nextId s in
  let o := S p in
  let n := S o in
  ({| ws := Some {| priceInterval := p; optionsInterval := o;
                    newsInterval := n |};
      reconnectAttempts := 0;
      subscribers := subscribers s;
      isConnecting := false;
      intervals := intervals s ++ [(p, price); (o, options); (n, news)];
      nextId := S n |},
   [SetInterval p price 5000; SetInterval o options 30000;
    SetInterval n news 120000; ConsoleLog "WebSocket simulation started"]).

Definition connect (s : State) : State * list (Effect Data) :=
  if isConnecting s || isOpen s then (s, [])
  else
    simulateWebSocket
      {| ws := ws s; reconnectAttempts := reconnectAttempts s;
         subscribers := subscribers s; isConnecting := true;
         intervals := intervals s; nextId := nextId s |}.

Definition cleared (sock : Socket) (id : nat) : bool :=
  Nat.eqb id (priceInterval sock) || Nat.eqb id (optionsInterval sock)
  || Nat.eqb id (newsInterval sock).

Definition disconnect (s : State) : State * list (Effect Data) :=
  match ws s with
  | Some sock =>
      ({| ws := None; reconnectAttempts := 0;
          subscribers := subscribers s; isConnecting := false;
          intervals :=
            List.filter (fun it => negb (cleared sock it.1)) (intervals s);
          nextId := nextId s |},
       [ClearInterval (priceInterval sock);
        ClearInterval (optionsInterval sock);
        ClearInterval (newsInterval sock)])
  | None =>
      ({| ws := None; reconnectAttempts := 0;
          subscribers := subscribers s; isConnecting := false;
          intervals := intervals s; nextId := nextId s |}, [])
  end.

(** [subscribers.forEach(callback => { try { callback(data) } catch ... })] *)
Fixpoint forEach (type : DataType) (callbacks : list SubscriptionCallback)
    (data : Data) (w : World) : World * list (Effect Data) :=
  match callbacks with
  | [] => (w, [])
  | callback :: rest =>
      let '(w, threw) := run callback data w in
      let '(w', effects) := forEach type rest data w in
      (w',
       Invoke callback data
       :: (if threw then [ConsoleError type callback] else []) ++ effects)
  end.

Definition broadcast (type : DataType) (data : Data) (s : State)
    (w : World) : State * World * list (Effect Data) :=
  let '(w', effects) := forEach type (subscribers s type) data w in
  (s, w', effects).

Definition subscribe (type : DataType) (callback : SubscriptionCallback)
    (s : State) : State * list (Effect Data) :=
  let s := with_subscribers type (Set_add callback (subscribers s type)) s in
  if Nat.eqb (getTotalSubscribers s) 1 then connect s else (s, []).

(** The function [subscribe] returns. *)
Definition unsubscribe (type : DataType) (callback : SubscriptionCallback)
    (s : State) : State * list (Effect Data) :=
  let s :=
    with_subscribers type (Set_delete callback (subscribers s type)) s in
  if Nat.eqb (getTotalSubscribers s) 0 then disconnect s else (s, []).

Definition url (type : DataType) : string :=
  match type with
  | price | options => "/api/tsla-options"
  | news => "/api/market-news"
  end.

(** The handler of interval [id]: nothing when the interval was cleared,
    nothing when its topic has no subscriber, a fetch otherwise. *)
Definition tick (id : nat) (s : State) : State * list (Effect Data) :=
  match List.find (fun it => Nat.eqb it.1 id) (intervals s) with
  | Some (_, type) =>
      if (0 <? length (subscribers s type))%nat
      then (s, [Fetch type (url type)])
      else (s, [])
  | None => (s, [])
  end.

(** The rest of the handler, when the fetch it awaits settles: [result]
    is the parsed body, with its [success] and [data] fields; a fetch that
    throws is logged ([UpdateFailed]) and nothing else happens. *)
Definition settled (type : DataType) (result : Lookup (bool * Data))
    (s : State) (w : World) : State * World * list (Effect Data) :=
  match result with
  | Json (true, data) =>
      broadcast type
        (match type with price => pricePayload data | _ => data end) s w
  | Json (false, _) => (s, w, [])
  | Throws => (s, w, [UpdateFailed type])
  end.

Inductive Status := connecting | connected | disconnected | error.

Definition getConnectionStatus (s : State) : Status :=
  if isConnecting s then connecting
  else if isOpen s then connected
  else if (maxReconnectAttempts <=? reconnectAttempts s)%nat then error
  else disconnected.

End WithData.
End WebSocketManager.

(** ** The news route, [src/unnamed/part_001] (lines 1 to 221)

    The text functions the route takes from the platform:
    [String.prototype.toLowerCase] and the parser behind
    [new Date(string).getTime()], which gives [NaN] for a string that is no
    date, and with them [Number.prototype.toString], which the alerts below
    use.  A string is the sequence of its UTF-8 bytes; [includes] with an
    ASCII keyword finds the same occurrences on bytes as on code units. *)

Class TextPlatform := {
  String_toLowerCase : string -> string;
  Date_parse : string -> JS.number;
  Number_toString : JS.number -> string
}.

Module MarketNews.

Inductive Impact := high | medium | low.

Record NewsItem := {
  title : string;
  description : string;
  url : string;
  publishedAt : string;
  source : string;
  category : string;
  impact : Impact
}.

Definition MARKET_KEYWORDS_high : list string :=
  ["fed meeting"; "fomc"; "interest rate"; "cpi"; "inflation"; "earnings";
   "tesla earnings"; "elon musk"]%string.
Definition MARKET_KEYWORDS_medium : list string :=
  ["unemployment"; "gdp"; "jobless claims"; "consumer confidence";
   "tesla delivery"; "autopilot"]%string.
Definition MARKET_KEYWORDS_low : list string :=
  ["retail sales"; "housing data"; "tesla update"; "model 3"; "model y";
   "cybertruck"]%string.

(** [text.includes(keyword)] *)
Fixpoint includes (text keyword : string) : bool :=
  String.prefix keyword text
  || match text with
     | EmptyString => false
     | String _ rest => includes rest keyword
     end.

(** [NewsAPI]'s article and Alpha Vantage's feed entry, with the fields the
    route reads.  [description] is the one the route guards with [|| '']. *)
Record Article := {
  article_title : string;
  article_description : option string;
  article_url : string;
  article_publishedAt : string;
  article_source_name : string
}.

Record FeedEntry := {
  feed_title : string;
  feed_summary : string;
  feed_url : string;
  feed_time_published : string;
  feed_source : string
}.

Record NewsData := {
  news : list NewsItem;
  lastUpdate : string;
  totalItems : nat
}.

Record Response := {
  success : bool;
  data : NewsData;
  cached : option bool
}.

Definition cacheKey : string := "market-news-data".

(** [self.findIndex(p)], [-1] when no element passes. *)
Fixpoint findIndex_from {A : Type} (p : A -> bool) (i : Z) (self : list A)
  : Z :=
  match self with
  | [] => (-1)%Z
  | t :: rest => if p t then i else findIndex_from p (i + 1)%Z rest
  end.
Definition findIndex {A : Type} (p : A -> bool) (self : list A) : Z :=
  findIndex_from p 0%Z self.

(** [self.filter((item, index, self) => p(item, index, self))] *)
Fixpoint filter_from {A : Type} (p : A -> Z -> bool) (i : Z) (l : list A)
  : list A :=
  match l with
  | [] => []
  | item :: rest =>
      if p item i then item :: filter_from p (i + 1)%Z rest
      else filter_from p (i + 1)%Z rest
  end.
Definition Array_filter {A : Type} (p : A -> Z -> list A -> bool)
    (self : list A) : list A :=
  filter_from (fun item index => p item index self) 0%Z self.

Definition uniqueNews (marketNews : list NewsItem) : list NewsItem :=
  Array_filter
    (fun item index self =>
       (index =? findIndex (fun t => String.eqb (title t) (title item)) self)%Z)
    marketNews.

Definition impactWeight (i : Impact) : JS.number :=
  match i with high => 3 | medium => 2 | low => 1 end.

Section WithPlatform.
Context `{Platform} `{TextPlatform}.

Definition categorizeNewsImpact (title description : string) : Impact :=
  let text := String_toLowerCase (title ++ " " ++ description)%string in
  if existsb (includes text) MARKET_KEYWORDS_high then high
  else if existsb (includes text) MARKET_KEYWORDS_medium then medium
  else low.

Definition determineCategory (title description : string) : string :=
  let text := String_toLowerCase (title ++ " " ++ description)%string in
  if includes text "fed" || includes text "fomc"
     || includes text "interest rate" then "Federal Reserve"
  else if includes text "cpi" || includes text "inflation"
  then "Economic Data"
  else if includes text "earnings" || includes text "tesla earnings"
  then "Earnings"
  else if includes text "elon musk" || includes text "tesla" then "Tesla"
  else if includes text "unemployment" || includes text "jobs"
  then "Employment"
  else "General Market".

(** The articles of [NewsAPI], at most fifteen, as news items. *)
Definition fromNewsApi (newsData : Lookup (option (list Article)))
  : list NewsItem :=
  match newsData with
  | Json (Some articles) =>
      map
        (fun article =>
           let impact :=
             categorizeNewsImpact (article_title article)
               (default ""%string (article_description article)) in
           let category :=
             determineCategory (article_title article)
               (default ""%string (article_description article)) in
           {| title := article_title article;
              description := default ""%string (article_description article);
              url := article_url article;
              publishedAt := article_publishedAt article;
              source := article_source_name article;
              category := category;
              impact := impact |})
        (JS.slice0 15 articles)
  | _ => []
  end.

(** The feed of Alpha Vantage, at most ten entries, as news items. *)
Definition fromAlphaVantage (alphaData : Lookup (option (list FeedEntry)))
  : list NewsItem :=
  match alphaData with
  | Json (Some feed) =>
      map
        (fun article =>
           let impact :=
             categorizeNewsImpact (feed_title article) (feed_summary article) in
           let category :=
             determineCategory (feed_title article) (feed_summary article) in
           {| title := feed_title article;
              description := feed_summary article;
              url := feed_url article;
              publishedAt := feed_time_published article;
              source := feed_source article;
              category := category;
              impact := impact |})
        (JS.slice0 10 feed)
  | _ => []
  end.

(** [marketNews] after the two lookups, each in its own [try]; [NewsAPI] is
    asked only under [NEWS_API_KEY !== 'demo']. *)
Definition marketNews (NEWS_API_KEY : option string)
    (newsData : Lookup (option (list Article)))
    (alphaData : Lookup (option (list FeedEntry))) : list NewsItem :=
  (if String.eqb (or_demo NEWS_API_KEY) "demo" then []
   else fromNewsApi newsData)
  ++ fromAlphaVantage alphaData.

(** The readings of the clock a request takes: in [apiCache.get], in the
    [k]-th static item, for [lastUpdate] and in [apiCache.set]. *)
Record Clock := {
  atLookup : JS.number;
  atMock : nat -> JS.number;
  atLastUpdate : JS.number;
  atStore : JS.number
}.

(** The clock of a request that is served within one millisecond. *)
Definition always (now : JS.number) : Clock :=
  {| atLookup := now; atMock := fun _ => now; atLastUpdate := now;
     atStore := now |}.

(** The static items; each reads the clock for its date. *)
Definition mockNews (now : nat -> JS.number) : list NewsItem :=
  [ {| title := "Fed Signals Potential Rate Cuts in 2024";
       description := "Federal Reserve officials hint at possible interest rate reductions following cooling inflation data.";
       url := "#";
       publishedAt :=
         Date_toISOString (JS.TimeClip (now 0%nat - 1000 * 60 * 30));
       source := "Reuters"; category := "Federal Reserve"; impact := high |};
    {| title := "Tesla Q4 Earnings Beat Expectations";
       description := "Tesla reports strong Q4 results with record deliveries and improved profit margins.";
       url := "#";
       publishedAt :=
         Date_toISOString (JS.TimeClip (now 1%nat - 1000 * 60 * 60 * 2));
       source := "Bloomberg"; category := "Earnings"; impact := high |};
    {| title := "CPI Data Shows Inflation Cooling to 3.1%";
       description := "December inflation data comes in below expectations, supporting Fed dovish stance.";
       url := "#";
       publishedAt :=
         Date_toISOString (JS.TimeClip (now 2%nat - 1000 * 60 * 60 * 4));
       source := "MarketWatch"; category := "Economic Data";
       impact := high |};
    {| title := "Tesla Announces New Gigafactory Location";
       description := "Electric vehicle maker reveals plans for new manufacturing facility to meet growing demand.";
       url := "#";
       publishedAt :=
         Date_toISOString (JS.TimeClip (now 3%nat - 1000 * 60 * 60 * 6));
       source := "TechCrunch"; category := "Tesla"; impact := medium |};
    {| title := "Jobless Claims Fall to Multi-Month Low";
       description := "Weekly unemployment filings decrease, signaling continued labor market strength.";
       url := "#";
       publishedAt :=
         Date_toISOString (JS.TimeClip (now 4%nat - 1000 * 60 * 60 * 8));
       source := "CNBC"; category := "Employment"; impact := medium |} ].

(** The comparator of the sort: by impact, the heavier first, then by
    date, the later first. *)
Definition byImpactAndRecency (a b : NewsItem) : JS.number :=
  let aWeight := impactWeight (impact a) in
  let bWeight := impactWeight (impact b) in
  if negb (aWeight =? bWeight) then bWeight - aWeight
  else Date_parse (publishedAt b) - Date_parse (publishedAt a).

(** The [GET] handler: the response and the cache it leaves.  With the
    lookups typed as above nothing in the outer [try] throws, so that its
    [catch], the response of status 500, is not reached. *)
Definition GET (clock : Clock) (NEWS_API_KEY : option string)
    (newsData : Lookup (option (list Article)))
    (alphaData : Lookup (option (list FeedEntry)))
    (cache : gmap string (SimpleCache.entry NewsData))
  : Response * gmap string (SimpleCache.entry NewsData) :=
  match SimpleCache.get cacheKey (atLookup clock) cache with
  | (Some cachedData, cache) =>
      ({| success := true; data := cachedData; cached := Some true |}, cache)
  | (None, cache) =>
      let marketNews := marketNews NEWS_API_KEY newsData alphaData in
      if (length marketNews =? 0)%nat then
        let mockNews := mockNews (atMock clock) in
        ({| success := true;
            data := {| news := mockNews;
                       lastUpdate := Date_toISOString (atLastUpdate clock);
                       totalItems := length mockNews |};
            cached := None |}, cache)
      else
        let sortedNews :=
          JS.Array_sort byImpactAndRecency (uniqueNews marketNews) in
        let responseData :=
          {| news := JS.slice0 20 sortedNews;
             lastUpdate := Date_toISOString (atLastUpdate clock);
             totalItems := length sortedNews |} in
        ({| success := true; data := responseData; cached := None |},
         SimpleCache.set cacheKey responseData 60 (atStore clock) cache)
  end.

End WithPlatform.
End MarketNews.

(** ** What the news card shows, [src/components/MarketNews.tsx]

    [filteredNews] and [categories] of the component that reads the news
    route; the impact filter is ['all'] or one impact, the category filter
    is the string ['all'] or a category. *)

Module NewsCard.
Import MarketNews.

Inductive ImpactFilter := all | only (impact : Impact).

Definition Impact_eqb (a b : Impact) : bool :=
  match a, b with
  | high, high | medium, medium | low, low => true
  | _, _ => false
  end.

Definition filteredNews (filter : ImpactFilter) (categoryFilter : string)
    (news : list NewsItem) : list NewsItem :=
  List.filter
    (fun item =>
       let impactMatch :=
         match filter with
         | all => true
         | only i => Impact_eqb (impact item) i
         end in
       let categoryMatch :=
         String.eqb categoryFilter "all"
         || String.eqb (category item) categoryFilter in
       impactMatch && categoryMatch)
    news.

(** [Array.from(new Set(xs))]: the values of [xs], each once, in the order
    of their first occurrence. *)
Fixpoint Set_from (seen xs : list string) : list string :=
  match xs with
  | [] => seen
  | x :: rest =>
      Set_from (if existsb (String.eqb x) seen then seen else seen ++ [x]) rest
  end.

Definition categories (news : list NewsItem) : list string :=
  Set_from [] (map category news).

End NewsCard.

(** ** Reconnection, [connect] and [handleConnectionError] of
    [WebSocketManager]

    [connect] runs [simulateWebSocket] in a [try]; its [catch] calls
    [handleConnectionError], which counts the attempt and arms a timer that
    calls [connect] again.  The one statement of [simulateWebSocket] that
    can throw is the one that builds the socket, which reads
    [WebSocket.OPEN]: it throws where the runtime has no [WebSocket].  By
    then the three calls of [setInterval] have been made; their ids are
    lost with the socket that was not built, so that nothing clears them.
    [failedConnect] is what [connect] does when that statement throws. *)

Module Reconnection.
Import WebSocketManager.

Definition reconnectDelay : Z := 1000.

Inductive Effect :=
| SetInterval (id : nat) (topic : DataType) (ms : Z)
| ConsoleErrorConnectionFailed
| ConsoleLogReconnecting (delay : Z) (attempt max : nat)
| SetTimeout (delay : Z)
| ConsoleErrorMaxAttempts.

Definition with_connection (connecting : bool) (attempts : nat) (s : State)
  : State :=
  {| ws := ws s; reconnectAttempts := attempts; subscribers := subscribers s;
     isConnecting := connecting; intervals := intervals s;
     nextId := nextId s |}.

Definition handleConnectionError (s : State) : State * list Effect :=
  let s := with_connection false (reconnectAttempts s) s in
  if (reconnectAttempts s <? maxReconnectAttempts)%nat then
    let s := with_connection false (S (reconnectAttempts s)) s in
    let delay :=
      (reconnectDelay * 2 ^ (Z.of_nat (reconnectAttempts s) - 1))%Z in
    (s,
     [ConsoleLogReconnecting delay (reconnectAttempts s) maxReconnectAttempts;
      SetTimeout delay])
  else (s, [ConsoleErrorMaxAttempts]).

(** [simulateWebSocket] up to the statement that throws: the three
    intervals are armed; [ws], [isConnecting] and [reconnectAttempts] are
    not assigned. *)
Definition interruptedSimulation (s : State) : State * list Effect :=
  let p := nextId s in
  let o := S p in
  let n := S o in
  ({| ws := ws s; reconnectAttempts := reconnectAttempts s;
      subscribers := subscribers s; isConnecting := isConnecting s;
      intervals := intervals s ++ [(p, price); (o, options); (n, news)];
      nextId := S n |},
   [SetInterval p price 5000; SetInterval o options 30000;
    SetInterval n news 120000]).

Definition failedConnect (s : State) : State * list Effect :=
  if isConnecting s || isOpen s then (s, [])
  else
    let '(s, armed) :=
      interruptedSimulation (with_connection true (reconnectAttempts s) s) in
    let '(s, effects) := handleConnectionError s in
    (s, armed ++ ConsoleErrorConnectionFailed :: effects).

End Reconnection.

(** ** Price alerts, [PriceAlerts] of [src/unnamed/part_003]

    The component keeps its alerts in React state and receives prices
    through the hub.  The functions below are the state updaters it passes
    to [setAlerts]: the one of the effect that runs on every price, and
    those of [addAlert], [removeAlert] and [toggleAlert].  [clock] gives the
    reading of [new Date()] at each element the first one visits. *)

Module PriceAlerts.

Inductive Condition := above | below.

Definition Condition_name (c : Condition) : string :=
  match c with above => "above" | below => "below" end.

Record PriceAlert := {
  id : string;
  price : JS.number;
  condition : Condition;
  message : string;
  active : bool;
  createdAt : string;
  triggeredAt : option string
}.

(** Truthiness of an optional string: [undefined] and [''] are falsy. *)
Definition truthy (s : option string) : bool :=
  match s with
  | Some s => negb (String.eqb s "")
  | None => false
  end.

Definition shouldTrigger (currentPrice : JS.number) (alert : PriceAlert)
  : bool :=
  (match condition alert with above => true | below => false end
   && JS.geb currentPrice (price alert))
  || (match condition alert with below => true | above => false end
      && (currentPrice <=? price alert)).

Definition removeAlert (id' : string) (prev : list PriceAlert)
  : list PriceAlert :=
  List.filter (fun alert => negb (String.eqb (id alert) id')) prev.

Definition toggleAlert (id' : string) (prev : list PriceAlert)
  : list PriceAlert :=
  map
    (fun alert =>
       if String.eqb (id alert) id' then
         {| id := id alert; price := price alert;
            condition := condition alert; message := message alert;
            active := negb (active alert); createdAt := createdAt alert;
            triggeredAt := triggeredAt alert |}
       else alert)
    prev.

Section WithPlatform.
Context `{Platform} `{TextPlatform}.

Definition checkAlert (now : JS.number) (currentPrice : JS.number)
    (alert : PriceAlert) : PriceAlert :=
  if negb (active alert) || truthy (triggeredAt alert) then alert
  else if shouldTrigger currentPrice alert then
    {| id := id alert; price := price alert; condition := condition alert;
       message := message alert; active := false;
       createdAt := createdAt alert;
       triggeredAt := Some (Date_toISOString now) |}
  else alert.

Definition checkAlerts (clock : nat -> JS.number) (currentPrice : JS.number)
    (prevAlerts : list PriceAlert) : list PriceAlert :=
  imap (fun index alert => checkAlert (clock index) currentPrice alert)
    prevAlerts.

(** [addAlert]: [newAlertPrice] is the text of the form's field, [now] the
    reading of [Date.now()] and [created] the one of [new Date()].  A text
    that is no positive number leaves the alerts as they are. *)
Definition addAlert (now created : JS.number) (newAlertPrice : string)
    (newAlertCondition : Condition) (prev : list PriceAlert)
  : list PriceAlert :=
  let price := parseFloat newAlertPrice in
  if is_nan price || (price <=? 0) then prev
  else
    prev
    ++ [ {| id := Number_toString now;
            price := price;
            condition := newAlertCondition;
            message :=
              ("Alert when TSLA goes " ++ Condition_name newAlertCondition
               ++ " $" ++ Number_toString price)%string;
            active := true;
            createdAt := Date_toISOString created;
            triggeredAt := None |} ].

End WithPlatform.
End PriceAlerts.

(** ** The calendar route, [src/unnamed/part_000]

    The third route that answers through the cache.  Its static events,
    [getStaticEconomicEvents] and [getTeslaEvents], are built from dates in
    local time and from readings of the clock of their own; the lists the
    two calls return are taken as given here. *)

Module EconomicCalendar.

Inductive Importance := high | medium | low.

(** A value that is a string or a number. *)
Inductive Scalar := Str (s : string) | Num (n : JS.number).

Record EconomicEvent := {
  date : string;
  event : string;
  importance : Importance;
  actual : option Scalar;
  forecast : option Scalar;
  previous : option Scalar;
  currency : string;
  impact : string;
  description : string;
  category : string
}.

Record EarningsEvent := {
  earnings_date : string;
  symbol : string;
  time : string;
  eps_estimate : option JS.number;
  revenue_estimate : option JS.number;
  earnings_importance : Importance
}.

(** An entry of [economic_calendar] and one of [earning_calendar], as
    Financial Modeling Prep gives them, with the fields the route reads. *)
Record FmpEconomic := {
  fmp_date : string;
  fmp_event : string;
  fmp_impact : string;
  fmp_actual : option Scalar;
  fmp_estimate : option Scalar;
  fmp_previous : option Scalar;
  fmp_currency : string
}.

Record FmpEarnings := {
  fmp_earnings_date : string;
  fmp_symbol : string;
  fmp_time : option string;
  fmp_epsEstimated : option JS.number;
  fmp_revenueEstimated : option JS.number
}.

Record CalendarData := {
  economicEvents : list EconomicEvent;
  earningsEvents : list EarningsEvent;
  lastUpdate : string;
  nextUpdate : string
}.

Record Response := {
  success : bool;
  data : CalendarData;
  cached : option bool
}.

Definition cacheKey : string := "economic-calendar-data".

(** The readings of the clock a request takes, one for each place that
    reads it and, in the callback of a filter, one for each element. *)
Record Clock := {
  (** [Date.now()] in [apiCache.get] *)
  atLookup : JS.number;
  (** [today] in the filter of the provider's economic calendar, on its
      [i]-th entry *)
  atEconomic : nat -> JS.number;
  (** [new Date()] in the filter of the provider's earnings, on the [i]-th
      entry *)
  atEarnings : nat -> JS.number;
  (** [now] of the filters for the next thirty days *)
  atUpcoming : JS.number;
  (** [new Date()] of [lastUpdate] and [Date.now()] of [nextUpdate] *)
  atLastUpdate : JS.number;
  atNextUpdate : JS.number;
  (** [Date.now()] in [apiCache.set] *)
  atStore : JS.number
}.

(** The clock of a request that is served within one millisecond. *)
Definition always (now : JS.number) : Clock :=
  {| atLookup := now; atEconomic := fun _ => now; atEarnings := fun _ => now;
     atUpcoming := now; atLastUpdate := now; atNextUpdate := now;
     atStore := now |}.

Section WithPlatform.
Context `{Platform} `{TextPlatform}.
(** What [getStaticEconomicEvents()] and [getTeslaEvents()] return. *)
Variable getStaticEconomicEvents : list EconomicEvent.
Variable getTeslaEvents : list EarningsEvent.

Definition determineEventCategory (eventName : string) : string :=
  let name := String_toLowerCase eventName in
  if MarketNews.includes name "fomc" || MarketNews.includes name "fed"
     || MarketNews.includes name "interest rate" then "Federal Reserve"
  else if MarketNews.includes name "cpi" || MarketNews.includes name "inflation"
          || MarketNews.includes name "ppi" then "Inflation"
  else if MarketNews.includes name "gdp" || MarketNews.includes name "growth"
  then "Economic Growth"
  else if MarketNews.includes name "employment"
          || MarketNews.includes name "payroll"
          || MarketNews.includes name "jobless" then "Employment"
  else if MarketNews.includes name "retail"
          || MarketNews.includes name "consumer" then "Consumer Data"
  else "Economic Data".

(** [eventDate >= now && eventDate <= thirtyDaysFromNow] on the date an
    event carries: dates compare as their time values, and the time value
    of a string that is no date is [NaN]. *)
Definition thirtyDaysFrom (now : JS.number) : JS.number :=
  JS.TimeClip (now + 30 * 24 * 60 * 60 * 1000).

Definition upcoming (now : JS.number) (date : string) : bool :=
  JS.geb (Date_parse date) now && (Date_parse date <=? thirtyDaysFrom now).

(** [x || 'amc'] *)
Definition or_amc (x : option string) : string :=
  match x with
  | Some s => if String.eqb s "" then "amc" else s
  | None => "amc"
  end.

Definition fromEconomicCalendar (now : nat -> JS.number)
    (economicData : list FmpEconomic) : list EconomicEvent :=
  map
    (fun event =>
       {| date := fmp_date event;
          event := fmp_event event;
          importance :=
            if String.eqb (fmp_impact event) "High" then high
            else if String.eqb (fmp_impact event) "Medium" then medium
            else low;
          actual := fmp_actual event;
          forecast := fmp_estimate event;
          previous := fmp_previous event;
          currency := fmp_currency event;
          impact := "neutral";
          description := fmp_event event;
          category := determineEventCategory (fmp_event event) |})
    (filterAt (fun i event => upcoming (now i) (fmp_date event)) 0
       economicData).

Definition fromEarningCalendar (now : nat -> JS.number)
    (earningsData : list FmpEarnings) : list EarningsEvent :=
  map
    (fun event =>
       {| earnings_date := fmp_earnings_date event;
          symbol := fmp_symbol event;
          time := or_amc (fmp_time event);
          eps_estimate := fmp_epsEstimated event;
          revenue_estimate := fmp_revenueEstimated event;
          earnings_importance := high |})
    (filterAt
       (fun i event => JS.geb (Date_parse (fmp_earnings_date event)) (now i))
       0 earningsData).

(** The two lookups of Financial Modeling Prep, made under
    [FMP_KEY !== 'demo'] in one [try]: when the first throws the second is
    not made, and what was assigned before a throw stays.  A body that is no
    array ([None]) assigns nothing. *)
Definition fromFmp (clock : Clock) (FMP_API_KEY : option string)
    (economicData : Lookup (option (list FmpEconomic)))
    (earningsData : Lookup (option (list FmpEarnings)))
  : list EconomicEvent * list EarningsEvent :=
  if String.eqb (or_demo FMP_API_KEY) "demo" then ([], [])
  else
    match economicData with
    | Throws => ([], [])
    | Json economicData =>
        let economicEvents :=
          match economicData with
          | Some economicData =>
              fromEconomicCalendar (atEconomic clock) economicData
          | None => []
          end in
        match earningsData with
        | Json (Some earningsData) =>
            (economicEvents,
             fromEarningCalendar (atEarnings clock) earningsData)
        | _ => (economicEvents, [])
        end
    end.

(** The [GET] handler: the response and the cache it leaves.  With the
    static lists given, nothing in its outer [try] throws, so that its
    [catch] is not reached. *)
Definition GET (clock : Clock) (FMP_API_KEY : option string)
    (economicData : Lookup (option (list FmpEconomic)))
    (earningsData : Lookup (option (list FmpEarnings)))
    (cache : gmap string (SimpleCache.entry CalendarData))
  : Response * gmap string (SimpleCache.entry CalendarData) :=
  match SimpleCache.get cacheKey (atLookup clock) cache with
  | (Some cachedData, cache) =>
      ({| success := true; data := cachedData; cached := Some true |}, cache)
  | (None, cache) =>
      let '(economicEvents, earningsEvents) :=
        fromFmp clock FMP_API_KEY economicData earningsData in
      let economicEvents :=
        if (length economicEvents =? 0)%nat then getStaticEconomicEvents
        else economicEvents in
      let earningsEvents :=
        if (length earningsEvents =? 0)%nat then getTeslaEvents
        else earningsEvents in
      let now := atUpcoming clock in
      let upcomingEconomicEvents :=
        List.filter (fun event => upcoming now (date event)) economicEvents in
      let upcomingEarningsEvents :=
        List.filter (fun event => upcoming now (earnings_date event))
          earningsEvents in
      let responseData :=
        {| economicEvents := JS.slice0 15 upcomingEconomicEvents;
           earningsEvents := JS.slice0 10 upcomingEarningsEvents;
           lastUpdate := Date_toISOString (atLastUpdate clock);
           nextUpdate :=
             Date_toISOString
               (JS.TimeClip (atNextUpdate clock + 4 * 60 * 60 * 1000)) |} in
      ({| success := true; data := responseData; cached := None |},
       SimpleCache.set cacheKey responseData (4 * 60 * 60) (atStore clock)
         cache)
  end.

End WithPlatform.
End EconomicCalendar.

(** * Statements

    The definitions the properties below are stated with: a reference
    platform and sample inputs to run the model on, the predicates the
    specification's sentences translate to, and the histories of calls the
    cache and the hub go through. *)

(** The reference platform meets what ECMAScript fixes for [Math.log] and
    [Math.exp]. *)
Definition referencePlatform : Platform.
Proof.
  refine {| Math_log := Reference.log;
            Math_exp := Reference.exp;
            Date_toISOString := Reference.toISOString;
            parseFloat := Reference.parseFloat;
            Math_log_nan := eq_refl;
            Math_log_neg := _;
            Math_log_one := eq_refl;
            Math_exp_nan := eq_refl |}.
  intros x Hx. unfold Reference.log. rewrite Hx.
  destruct (is_nan x); reflexivity.
Defined.

(** ** Sample inputs

    The scenario of the specification: two out-of-the-money calls, strikes
    260 and 265, seven days from expiration, the underlying at 255. *)

Definition now0 : JS.number := 1700000000000.

(** A request whose window filter reads the clock one millisecond before
    the contracts of the samples are four days from expiration, and whose
    loops read it at that moment. *)
Definition day_turns : Clock :=
  {| atLookup := 1700254399999; atFilter := fun _ => 1700254399999;
     atCallLoop := fun _ => 1700254400000;
     atPutLoop := fun _ => 1700254400000;
     atLastUpdate := 1700254400000; atStore := 1700254400000;
     atMock := fun _ => 1700254400000 |}.

Definition contract (k b a iv : JS.number) (itm : bool) : OptionContract :=
  {| contractSymbol := "TSLA"; strike := k; expiration := 1700600000;
     bid := b; ask := a; lastPrice := b; volume := 100; openInterest := 100;
     impliedVolatility := iv; inTheMoney := itm |}.

Definition scenario : list OptionContract :=
  [contract 260 1.50 1.60 0.3 false; contract 265 0.30 0.40 0.3 false].

(** Two calls half a point apart: a credit of 0.125 against a loss of
    0.375. *)
Definition thin_scenario : list OptionContract :=
  [contract 260 0.5 0.6 0.3 false; contract 260.5 0.3 0.375 0.3 false].

(** Two calls five points apart with a credit of five points: nothing
    can be lost. *)
Definition zero_loss_scenario : list OptionContract :=
  [contract 260 5.5 5.6 0.3 false; contract 265 0.4 0.5 0.3 false].

(** Two contracts of zero implied volatility, the underlying at the
    breakeven of the spread they form. *)
Definition zero_iv_scenario : list OptionContract :=
  [contract 260 2.5 2.6 0 false; contract 265 0.4 0.5 0 true].

(** Three calls listed out of strike order. *)
Definition unsorted_scenario : list OptionContract :=
  [contract 260 3.0 3.1 0.3 false; contract 270 0.4 0.5 0.3 false;
   contract 265 1.0 1.1 0.3 false].

(** ** Recommendations and their ranking *)

(** The fields of a recommendation, in terms of the two legs it is built
    from. *)
Definition built_from (t : SpreadType) (shortOption longOption : OptionContract)
    (r : CreditSpreadRecommendation) : Prop :=
  type r = t
  /\ shortStrike r = strike shortOption
  /\ longStrike r = strike longOption
  /\ creditReceived r = bid shortOption - ask longOption
  /\ maxProfit r = creditReceived r
  /\ maxLoss r
     = (if is_call t then strike longOption - strike shortOption
        else strike shortOption - strike longOption) - creditReceived r
  /\ breakeven r
     = (if is_call t then strike shortOption + creditReceived r
        else strike shortOption - creditReceived r)
  /\ riskRewardRatio r = maxProfit r / maxLoss r
  /\ (if is_call t then strike shortOption <? strike longOption
      else strike longOption <? strike shortOption) = true.

(** The invariant of the specification's data model. *)
Definition fields_consistent (r : CreditSpreadRecommendation) : Prop :=
  maxProfit r = creditReceived r
  /\ maxLoss r = abs (longStrike r - shortStrike r) - creditReceived r
  /\ riskRewardRatio r = maxProfit r / maxLoss r
  /\ breakeven r
     = match type r with
       | call => shortStrike r + creditReceived r
       | put => shortStrike r - creditReceived r
       end.

(** The policy the specification states for a returned recommendation. *)
Definition ranker_policy (r : CreditSpreadRecommendation) : Prop :=
  JS.gtb (creditReceived r) 0.15 = true
  /\ JS.gtb (maxProfit r / maxLoss r) 0.25 = true
  /\ JS.geb (daysToExpiration r) 5 = true
  /\ (daysToExpiration r <=? 10) = true.

(** The policy the single-provider route applies to the credit and the
    ratio. *)
Definition basic_policy (r : CreditSpreadRecommendation) : Prop :=
  JS.gtb (creditReceived r) 0.10 = true
  /\ JS.gtb (maxProfit r / maxLoss r) 0.2 = true.

(** What the single-provider route does about the days to expiration of a
    recommendation: its short leg is a contract of the input that passed
    the window filter, at the reading the filter took for it; the
    [daysToExpiration] pushed is computed from a reading the loop takes. *)
Definition basic_days (clock : Clock) (options : list OptionContract)
    (targetDTE : JS.number) (r : CreditSpreadRecommendation) : Prop :=
  exists shortOption i j,
    nth_error options i = Some shortOption
    /\ shortStrike r = strike shortOption
    /\ inWindow (atFilter clock i) targetDTE shortOption = true
    /\ daysToExpiration r
       = getDaysToExpiration
           (match type r with
            | call => atCallLoop clock j
            | put => atPutLoop clock j
            end)
           (expiration shortOption).

(** Descending order of a ratio. *)
Definition descending {A : Type} (ratio : A -> JS.number) (a b : A) : Prop :=
  (ratio b <=? ratio a) = true.

(** [out] is [cands] ranked: in descending order of ratio, entries of one
    ratio in the order [cands] has them, ten at most. *)
Definition ranked (cands out : list CreditSpreadRecommendation) : Prop :=
  StronglySorted (descending riskRewardRatio) out
  /\ (forall rho : JS.number, exists k,
        List.filter (fun r => rho =? riskRewardRatio r) out
        = firstn k (List.filter (fun r => rho =? riskRewardRatio r) cands))
  /\ (length out <= 10)%nat.

(** What pairing neighbours of the strike order would give: no contract of
    the side has its strike strictly between the two legs. *)
Definition adjacent_in_strike_order (side : list OptionContract)
    (r : CreditSpreadRecommendation) : Prop :=
  forall c, In c side ->
    ~ ((shortStrike r <? strike c) = true /\ (strike c <? longStrike r) = true).

(** ** The formula of the probability model

    The formula as the specification words it, each operation being the
    JavaScript one and products and quotients read from left to right, and
    what the specification means by a value clamped to an interval. *)

Module SpecFormula.
Section WithPlatform.
Context `{Platform}.

Definition breakevenOf (type : SpreadType) (shortStrike credit : JS.number)
  : JS.number :=
  match type with
  | call => shortStrike + credit
  | put => shortStrike - credit
  end.

(** [d = ln(currentPrice / breakeven) / (impliedVol * sqrt(dte / 365))] *)
Definition distance (currentPrice breakeven impliedVol dte : JS.number)
  : JS.number :=
  Math_log (currentPrice / breakeven) / (impliedVol * JS.Math_sqrt (dte / 365)).

(** [cdf = 0.5 * (1 + sign(d) * sqrt(1 - exp(-2 d^2 / pi)))] *)
Definition cdf (d : JS.number) : JS.number :=
  0.5 * (1 + JS.Math_sign d
             * JS.Math_sqrt (1 - Math_exp (-2 * d * d / JS.Math_PI))).

Definition baseProbability (type : SpreadType) (c : JS.number) : JS.number :=
  match type with
  | call => (1 - c) * 100
  | put => c * 100
  end.

Definition timeDecayBonus (dte : JS.number) : JS.number :=
  JS.Math_max 0 ((10 - dte) * 2).

Definition comfortablyOutOfTheMoney (type : SpreadType)
    (currentPrice shortStrike : JS.number) : bool :=
  match type with
  | call => currentPrice / shortStrike <? 0.95
  | put => 1.05 <? currentPrice / shortStrike
  end.

(** The probability before the clamp: the base probability and the two
    bonuses. *)
Definition unclamped
    (currentPrice shortStrike creditReceived : JS.number) (type : SpreadType)
    (impliedVol dte : JS.number) : JS.number :=
  let d :=
    distance currentPrice (breakevenOf type shortStrike creditReceived)
      impliedVol dte in
  let p := baseProbability type (cdf d) + timeDecayBonus dte in
  if comfortablyOutOfTheMoney type currentPrice shortStrike then p + 10
  else p.

(** [y] is [x] clamped to [[lo, hi]]: [y] lies in the interval, whatever
    [x] is; it is [lo] for an [x] below the interval, [hi] for an [x] above
    it and [x] for an [x] within it. *)
Definition clamped (lo hi x y : JS.number) : bool :=
  (lo <=? y) && (y <=? hi)
  && (if x <? lo then y =? lo
      else if hi <? x then y =? hi
      else if (lo <=? x) && (x <=? hi) then y =? x
      else true).

(** [p] is the probability of profit the specification prescribes. *)
Definition probabilityOfProfit
    (currentPrice shortStrike creditReceived : JS.number) (type : SpreadType)
    (impliedVol dte : JS.number) (p : JS.number) : bool :=
  clamped 20 85
    (unclamped currentPrice shortStrike creditReceived type impliedVol dte) p.

End WithPlatform.
End SpecFormula.

(** ** The price lookup *)

(** The prices on offer, in priority order, whatever their sign. *)
Definition offered `{Platform} (q : Enhanced.Quotes) : list JS.number :=
  match Enhanced.yahoo q with Json (Some p) => [p] | _ => [] end
  ++ match Enhanced.alphaVantage q with
     | Json (Some s) => [parseFloat s]
     | _ => []
     end
  ++ match Enhanced.fmp q with Json (Some p) => [p] | _ => [] end.

(** The first positive price on offer, and 250 when there is none: what
    the specification says [getCurrentPrice] returns. *)
Definition first_positive_or_250 `{Platform} (q : Enhanced.Quotes)
  : JS.number :=
  match List.find (fun p => 0 <? p) (offered q) with
  | Some p => p
  | None => 250
  end.

(** A lookup that gives nothing [getCurrentPrice] accepts. *)
Definition unusable_number (l : Lookup (option JS.number)) : Prop :=
  forall p, l = Json (Some p) -> JS.truthy p = false.
Definition unusable_string (l : Lookup (option string)) : Prop :=
  forall s, l = Json (Some s) -> s = ""%string.

(** ** The option-chain lookup *)

(** An option-chain lookup that throws or gives data the handler cannot
    use: [optionChain] missing, [result] missing or empty (the handler's own
    [throw]), or [result[0].options] missing or empty (a [TypeError] on the
    next property read). *)
Inductive Unavailable : Lookup OptionsData -> Prop :=
| lookup_throws : Unavailable Throws
| optionChain_missing d :
    optionChain d = None -> Unavailable (Json d)
| result_missing d oc :
    optionChain d = Some oc -> result oc = None -> Unavailable (Json d)
| result_empty d oc :
    optionChain d = Some oc -> result oc = Some [] -> Unavailable (Json d)
| options_missing d oc r rs :
    optionChain d = Some oc -> result oc = Some (r :: rs) ->
    options r = None -> Unavailable (Json d)
| options_empty d oc r rs :
    optionChain d = Some oc -> result oc = Some (r :: rs) ->
    options r = Some [] -> Unavailable (Json d).

(** ** Histories of the cache *)

(** The calls a client can make between a [set] and a later [get], each at
    the clock reading it sees. *)
Inductive CacheCall (V : Type) : Type :=
| CallSet (key : string) (d : V) (ttlSeconds : JS.number)
| CallGet (key : string)
| CallClear
| CallSize
| CallCleanup.
Arguments CallSet {V} key d ttlSeconds.
Arguments CallGet {V} key.
Arguments CallClear {V}.
Arguments CallSize {V}.
Arguments CallCleanup {V}.

Definition call_cache {V : Type} (now : JS.number) (c : CacheCall V)
    (cache : gmap string (SimpleCache.entry V))
  : gmap string (SimpleCache.entry V) :=
  match c with
  | CallSet key d ttlSeconds => SimpleCache.set key d ttlSeconds now cache
  | CallGet key => (SimpleCache.get key now cache).2
  | CallClear => SimpleCache.clear cache
  | CallSize => cache
  | CallCleanup => SimpleCache.cleanup now cache
  end.

Definition call_all {V : Type} (calls : list (JS.number * CacheCall V))
    (cache : gmap string (SimpleCache.entry V))
  : gmap string (SimpleCache.entry V) :=
  fold_left (fun cache tc => call_cache tc.1 tc.2 cache) calls cache.

(** No [set] for [k] among the calls. *)
Definition no_set {V : Type} (k : string) (c : CacheCall V) : Prop :=
  match c with
  | CallSet key _ _ => key <> k
  | _ => True
  end.

(** A call that leaves alone the entry of [k] stored at [t] with
    [ttlSeconds]: not a [clear], and, for a [get] of [k] or a [cleanup],
    made while the entry's ttl has not elapsed. *)
Definition keeps {V : Type} (k : string) (t ttlSeconds : JS.number)
    (tc : JS.number * CacheCall V) : Prop :=
  match tc.2 with
  | CallClear => False
  | CallGet key =>
      key = k -> JS.gtb (tc.1 - t) (ttlSeconds * 1000) = false
  | CallCleanup => JS.gtb (tc.1 - t) (ttlSeconds * 1000) = false
  | CallSet _ _ _ | CallSize => True
  end.

(** ** Histories and effects of the hub *)

(** The calls a list of effects makes to subscribers, in order. *)
Definition invocations {Data : Type}
    (effects : list (WebSocketManager.Effect Data))
  : list (WebSocketManager.SubscriptionCallback * Data) :=
  flat_map
    (fun e =>
       match e with
       | WebSocketManager.Invoke callback data => [(callback, data)]
       | _ => []
       end)
    effects.

(** The subscribers whose call throws, given the world each one is called
    in. *)
Fixpoint throwers {Data World : Type}
    (run : WebSocketManager.SubscriptionCallback -> Data -> World ->
           World * bool)
    (callbacks : list WebSocketManager.SubscriptionCallback) (data : Data)
    (w : World) : list WebSocketManager.SubscriptionCallback :=
  match callbacks with
  | [] => []
  | callback :: rest =>
      let '(w', threw) := run callback data w in
      (if threw then [callback] else []) ++ throwers run rest data w'
  end.

Definition logged_errors {Data : Type}
    (effects : list (WebSocketManager.Effect Data))
  : list WebSocketManager.SubscriptionCallback :=
  flat_map
    (fun e =>
       match e with
       | WebSocketManager.ConsoleError _ callback => [callback]
       | _ => []
       end)
    effects.

(** What clients and the runtime ask of the manager. *)
Inductive Request :=
| Subscribe (type : WebSocketManager.DataType)
    (callback : WebSocketManager.SubscriptionCallback)
| Unsubscribe (type : WebSocketManager.DataType)
    (callback : WebSocketManager.SubscriptionCallback)
| Tick (id : nat).

Definition serve (r : Request) (s : WebSocketManager.State)
  : WebSocketManager.State * list (WebSocketManager.Effect unit) :=
  match r with
  | Subscribe type callback => WebSocketManager.subscribe type callback s
  | Unsubscribe type callback => WebSocketManager.unsubscribe type callback s
  | Tick id => WebSocketManager.tick id s
  end.

(** The state the manager is in after a history of requests. *)
Definition after (history : list Request) : WebSocketManager.State :=
  fold_left (fun s r => (serve r s).1) history WebSocketManager.constructor.

Definition timers_started {Data : Type} (type : WebSocketManager.DataType)
    (effects : list (WebSocketManager.Effect Data)) : nat :=
  length
    (List.filter
       (fun e =>
          match e with
          | WebSocketManager.SetInterval _ t _ =>
              WebSocketManager.DataType_eqb t type
          | _ => false
          end)
       effects).

Definition refreshes {Data : Type} (type : WebSocketManager.DataType)
    (effects : list (WebSocketManager.Effect Data)) : nat :=
  length
    (List.filter
       (fun e =>
          match e with
          | WebSocketManager.Fetch t _ => WebSocketManager.DataType_eqb t type
          | _ => false
          end)
       effects).

(** What holds of the manager after every history: it is not left
    connecting, and the three timers of its socket are the live timers,
    there being a socket exactly while some topic has a subscriber. *)
Definition hub_invariant (s : WebSocketManager.State) : Prop :=
  WebSocketManager.isConnecting s = false
  /\ match WebSocketManager.ws s with
     | None =>
         WebSocketManager.getTotalSubscribers s = 0%nat
         /\ WebSocketManager.intervals s = []
     | Some sock =>
         (1 <= WebSocketManager.getTotalSubscribers s)%nat
         /\ WebSocketManager.intervals s
            = [(WebSocketManager.priceInterval sock, WebSocketManager.price);
               (WebSocketManager.optionsInterval sock,
                WebSocketManager.options);
               (WebSocketManager.newsInterval sock, WebSocketManager.news)]
     end.

(** ** Statements about the sources beyond the specification's *)

(** What either route's loops push: a recommendation built from two
    contracts of the input that passed the window filter, each at the
    reading the filter took for it, with the date of the short one and the
    days the loop computed for it. *)
Definition pushed_from `{Platform} (clock : Clock)
    (options : list OptionContract) (targetDTE : JS.number)
    (r : CreditSpreadRecommendation) : Prop :=
  exists s l i i' j,
    nth_error options i = Some s /\ nth_error options i' = Some l
    /\ inWindow (atFilter clock i) targetDTE s = true
    /\ inWindow (atFilter clock i') targetDTE l = true
    /\ built_from (type r) s l r
    /\ daysToExpiration r
       = getDaysToExpiration
           (match type r with
            | call => atCallLoop clock j
            | put => atPutLoop clock j
            end)
           (expiration s)
    /\ expirationDate r
       = split_T_0 (Date_toISOString (JS.TimeClip (expiration s * 1000))).

(** Contracts listed by ascending strike, as an option chain lists each of
    its sides. *)
Definition ascending (contracts : list OptionContract) : Prop :=
  StronglySorted (fun a b => (strike a <=? strike b) = true) contracts.

Definition putSpreads (l : list CreditSpreadRecommendation)
  : list CreditSpreadRecommendation :=
  List.filter (fun r => is_put (type r)) l.
(** The order in which the news route lists its items: by impact, the
    heavier first, and among items of one impact by date, the later
    first. *)
Definition Impact_rank (i : MarketNews.Impact) : nat :=
  match i with
  | MarketNews.high => 3
  | MarketNews.medium => 2
  | MarketNews.low => 1
  end.

Definition listed_before `{TextPlatform} (a b : MarketNews.NewsItem) : Prop :=
  (Impact_rank (MarketNews.impact b) < Impact_rank (MarketNews.impact a))%nat
  \/ (MarketNews.impact a = MarketNews.impact b
      /\ (Date_parse (MarketNews.publishedAt b)
          <=? Date_parse (MarketNews.publishedAt a)) = true).

(** An item whose date the platform can read. *)
Definition dated `{TextPlatform} (item : MarketNews.NewsItem) : Prop :=
  is_nan (Date_parse (MarketNews.publishedAt item)) = false.

(** The items of a list that are the first of their title. *)
Fixpoint first_of_title (seen : list string) (l : list MarketNews.NewsItem)
  : list MarketNews.NewsItem :=
  match l with
  | [] => []
  | item :: rest =>
      if existsb (String.eqb (MarketNews.title item)) seen
      then first_of_title seen rest
      else item :: first_of_title (MarketNews.title item :: seen) rest
  end.
(** Whether the latest request of a history about a callback and a topic
    is a [subscribe]. *)
Definition subscribed (history : list Request)
    (type : WebSocketManager.DataType)
    (callback : WebSocketManager.SubscriptionCallback) : bool :=
  fold_left
    (fun now r =>
       match r with
       | Subscribe t c =>
           if WebSocketManager.DataType_eqb t type && Nat.eqb c callback
           then true else now
       | Unsubscribe t c =>
           if WebSocketManager.DataType_eqb t type && Nat.eqb c callback
           then false else now
       | Tick _ => now
       end)
    history false.

(** How often a list of effects calls a callback. *)
Definition calls_of {Data : Type}
    (callback : WebSocketManager.SubscriptionCallback)
    (effects : list (WebSocketManager.Effect Data)) : nat :=
  length (List.filter (fun i => Nat.eqb i.1 callback) (invocations effects)).

(** The manager after [n] attempts to connect that all throw. *)
Fixpoint after_failures (n : nat) (s : WebSocketManager.State)
  : WebSocketManager.State :=
  match n with
  | O => s
  | S n => (Reconnection.failedConnect (after_failures n s)).1
  end.

(** The intervals [n] attempts arm when the first of them is given the id
    [id]: three for each attempt. *)
Fixpoint leaked (id n : nat) : list (nat * WebSocketManager.DataType) :=
  match n with
  | O => []
  | S n =>
      leaked id n
      ++ [(id + 3 * n, WebSocketManager.price);
          (S (id + 3 * n), WebSocketManager.options);
          (S (S (id + 3 * n)), WebSocketManager.news)]%nat
  end.
(** What the user and the hub do to the alerts: a price arrives, an alert
    is paused or resumed, removed, or added through the form. *)
Inductive AlertOp :=
| PriceUpdate (clock : nat -> JS.number) (currentPrice : JS.number)
| Toggle (id : string)
| Remove (id : string)
| Add (now created : JS.number) (newAlertPrice : string)
    (newAlertCondition : PriceAlerts.Condition).

Definition apply_op `{Platform} `{TextPlatform} (op : AlertOp)
    (alerts : list PriceAlerts.PriceAlert) : list PriceAlerts.PriceAlert :=
  match op with
  | PriceUpdate clock currentPrice =>
      PriceAlerts.checkAlerts clock currentPrice alerts
  | Toggle id => PriceAlerts.toggleAlert id alerts
  | Remove id => PriceAlerts.removeAlert id alerts
  | Add now created newAlertPrice newAlertCondition =>
      PriceAlerts.addAlert now created newAlertPrice newAlertCondition alerts
  end.

Definition apply_ops `{Platform} `{TextPlatform} (ops : list AlertOp)
    (alerts : list PriceAlerts.PriceAlert) : list PriceAlerts.PriceAlert :=
  fold_left (fun alerts op => apply_op op alerts) ops alerts.

(** An alert that still waits for its price. *)
Definition waiting (alert : PriceAlerts.PriceAlert) : bool :=
  PriceAlerts.active alert
  && negb (PriceAlerts.truthy (PriceAlerts.triggeredAt alert)).

Definition is_Remove (op : AlertOp) : bool :=
  match op with Remove _ => true | _ => false end.
(** ** A reference text platform

    The text functions on the inputs of the examples: [toLowerCase] on
    ASCII text, the date parser on the two ISO forms [YYYY-MM-DD] and
    [YYYY-MM-DDTHH:mm:ss.sssZ], and [Number.prototype.toString] on finite
    numbers that print without an exponent. *)

Module ReferenceText.

Definition lower (c : ascii) : ascii :=
  let n := nat_of_ascii c in
  if ((65 <=? n) && (n <=? 90))%nat then ascii_of_nat (n + 32) else c.

Fixpoint toLowerCase (s : string) : string :=
  match s with
  | EmptyString => EmptyString
  | String c rest => String (lower c) (toLowerCase rest)
  end.

(** Exactly [n] decimal digits at the head of [s]. *)
Fixpoint digits (n : nat) (acc : Z) (s : string) : option (Z * string) :=
  match n with
  | O => Some (acc, s)
  | S n =>
      match s with
      | String c rest =>
          match Reference.digit_of c with
          | Some d => digits n (acc * 10 + d)%Z rest
          | None => None
          end
      | EmptyString => None
      end
  end.

Definition expect (c : ascii) (s : string) : option string :=
  match s with
  | String c' rest => if Ascii.eqb c c' then Some rest else None
  | EmptyString => None
  end.

Definition leap (y : Z) : bool :=
  ((y mod 4 =? 0) && negb (y mod 100 =? 0) || (y mod 400 =? 0))%Z.

Definition days_in_month (y m : Z) : Z :=
  (if m =? 2 then (if leap y then 29 else 28)
   else if (m =? 4) || (m =? 6) || (m =? 9) || (m =? 11) then 30
   else 31)%Z.

(** The day number of a civil date, counted from 1970-01-01. *)
Definition days_from_civil (y m d : Z) : Z :=
  (let y := if m <=? 2 then y - 1 else y in
   let era := y / 400 in
   let yoe := y - era * 400 in
   let mp := if 2 <? m then m - 3 else m + 9 in
   let doy := (153 * mp + 2) / 5 + d - 1 in
   let doe := yoe * 365 + yoe / 4 - yoe / 100 + doy in
   era * 146097 + doe - 719468)%Z.

Definition parse_date (s : string) : option (Z * string) :=
  match digits 4 0 s with
  | Some (y, s) =>
      match expect "-" s with
      | Some s =>
          match digits 2 0 s with
          | Some (m, s) =>
              match expect "-" s with
              | Some s =>
                  match digits 2 0 s with
                  | Some (d, s) =>
                      if ((1 <=? m) && (m <=? 12) && (1 <=? d)
                          && (d <=? days_in_month y m))%Z
                      then Some (days_from_civil y m d * 86400000, s)%Z
                      else None
                  | None => None
                  end
              | None => None
              end
          | None => None
          end
      | None => None
      end
  | None => None
  end.

Definition parse_time (s : string) : option Z :=
  match digits 2 0 s with
  | Some (h, s) =>
      match expect ":" s with
      | Some s =>
          match digits 2 0 s with
          | Some (mi, s) =>
              match expect ":" s with
              | Some s =>
                  match digits 2 0 s with
                  | Some (sec, s) =>
                      match expect "." s with
                      | Some s =>
                          match digits 3 0 s with
                          | Some (ms, "Z"%string) =>
                              if ((h <? 24) && (mi <? 60) && (sec <? 60))%Z
                              then
                                Some (h * 3600000 + mi * 60000 + sec * 1000
                                      + ms)%Z
                              else None
                          | _ => None
                          end
                      | None => None
                      end
                  | None => None
                  end
              | None => None
              end
          | None => None
          end
      | None => None
      end
  | None => None
  end.

Definition Date_parse (s : string) : float :=
  match parse_date s with
  | Some (day, EmptyString) => JS.TimeClip (JS.of_Z day)
  | Some (day, String "T" rest) =>
      match parse_time rest with
      | Some ms => JS.TimeClip (JS.of_Z (day + ms))
      | None => nan
      end
  | _ => nan
  end.

(** The decimal digits of a natural number. *)
Fixpoint decimal (fuel : nat) (n : Z) : string :=
  match fuel with
  | O => EmptyString
  | S fuel =>
      ((if (n <? 10)%Z then EmptyString else decimal fuel (n / 10))
       ++ String (ascii_of_nat (48 + Z.to_nat (n mod 10))) EmptyString)%string
  end.

(** The least number of fraction digits, up to [fuel] more than [k], with
    which the decimal of [m / 2 ^ e] reads back as [x]. *)
Fixpoint shortest (fuel k : nat) (m e : Z) (x : float) : option (Z * nat) :=
  match fuel with
  | O => None
  | S fuel =>
      let scaled := (m * 10 ^ Z.of_nat k)%Z in
      let q := (scaled / 2 ^ e)%Z in
      let r := (scaled mod 2 ^ e)%Z in
      let n :=
        (if (2 * r <? 2 ^ e) then q
         else if (2 ^ e <? 2 * r) then q + 1
         else if Z.even q then q else q + 1)%Z in
      if JS.of_Z n / JS.of_Z (10 ^ Z.of_nat k) =? x then Some (n, k)
      else shortest fuel (S k) m e x
  end.

Definition Number_toString (x : float) : string :=
  match Prim2SF x with
  | S754_nan => "NaN"
  | S754_infinity s => if s then "-Infinity" else "Infinity"
  | S754_zero _ => "0"
  | S754_finite s m e =>
      let sign := if s then "-"%string else EmptyString in
      if (0 <=? e)%Z then (sign ++ decimal 400 (Z.pos m * 2 ^ e))%string
      else
        match shortest 20 0 (Z.pos m) (- e) (abs x) with
        | Some (n, O) => (sign ++ decimal 400 n)%string
        | Some (n, k) =>
            (sign ++ decimal 400 (n / 10 ^ Z.of_nat k) ++ "."
             ++ Reference.pad k (n mod 10 ^ Z.of_nat k))%string
        | None => "NaN"
        end
  end.

End ReferenceText.

Definition referenceText : TextPlatform :=
  {| String_toLowerCase := ReferenceText.toLowerCase;
     Date_parse := ReferenceText.Date_parse;
     Number_toString := ReferenceText.Number_toString |}.
(** ** More sample inputs *)

Definition no_keys : ProcessEnv :=
  {| ALPHA_VANTAGE_API_KEY := None; FMP_API_KEY := None |}.

Definition no_quotes : Enhanced.Quotes :=
  {| Enhanced.yahoo := Throws; Enhanced.alphaVantage := Throws;
     Enhanced.fmp := Throws |}.

(** The option chain that lists [calls] and [puts]. *)
Definition chain_of (calls puts : list OptionContract) : Lookup OptionsData :=
  Json {| optionChain :=
            Some {| result :=
                      Some [ {| options :=
                                  Some [ {| calls := Some calls;
                                            puts := Some puts |} ] |} ] |} |}.



(** An option chain whose [options[0]] has neither [calls] nor [puts]. *)
Definition bare_chain : Lookup OptionsData :=
  Json {| optionChain :=
            Some {| result :=
                      Some [ {| options :=
                                  Some [ {| calls := None;
                                            puts := None |} ] |} ] |} |}.

(** Two puts below the calls of the scenario, by ascending strike. *)
Definition scenario_puts : list OptionContract :=
  [contract 240 0.30 0.40 0.3 false; contract 245 1.50 1.60 0.3 false].

Definition no_recommendation : CreditSpreadRecommendation :=
  {| type := call; shortStrike := 0; longStrike := 0; expirationDate := "";
     creditReceived := 0; maxProfit := 0; maxLoss := 0; breakeven := 0;
     probOfProfit := 0; riskRewardRatio := 0; daysToExpiration := 0 |}.

(** Three articles: one on a product, two on inflation, of which the later
    repeats the title of the first reading. *)
Definition sample_articles : list MarketNews.Article :=
  [ {| MarketNews.article_title := "Model Y refresh announced";
       MarketNews.article_description := None;
       MarketNews.article_url := "https://example.org/a";
       MarketNews.article_publishedAt := "2023-11-14T10:00:00.000Z";
       MarketNews.article_source_name := "Wire" |};
    {| MarketNews.article_title := "CPI cools in October";
       MarketNews.article_description := Some "Inflation slows"%string;
       MarketNews.article_url := "https://example.org/b";
       MarketNews.article_publishedAt := "2023-11-14T13:30:00.000Z";
       MarketNews.article_source_name := "Wire" |};
    {| MarketNews.article_title := "CPI cools in October";
       MarketNews.article_description := Some "Second reading"%string;
       MarketNews.article_url := "https://example.org/c";
       MarketNews.article_publishedAt := "2023-11-14T14:00:00.000Z";
       MarketNews.article_source_name := "Desk" |} ].

Definition triggered_alert : PriceAlerts.PriceAlert :=
  {| PriceAlerts.id := "1700000000000"; PriceAlerts.price := 260;
     PriceAlerts.condition := PriceAlerts.above;
     PriceAlerts.message := "Alert when TSLA goes above $260";
     PriceAlerts.active := false;
     PriceAlerts.createdAt := "2023-11-14T22:13:20.000Z";
     PriceAlerts.triggeredAt := Some "2023-11-15T15:00:00.000Z"%string |}.

(** Two entries of the provider's economic calendar: one three days after
    the time of the samples, one sixty days after. *)
Definition sample_calendar : list EconomicCalendar.FmpEconomic :=
  [ {| EconomicCalendar.fmp_date := "2023-11-17T13:30:00.000Z";
       EconomicCalendar.fmp_event := "Retail Sales";
       EconomicCalendar.fmp_impact := "Medium";
       EconomicCalendar.fmp_actual := None;
       EconomicCalendar.fmp_estimate := Some (EconomicCalendar.Num 0.3);
       EconomicCalendar.fmp_previous := Some (EconomicCalendar.Num 0.7);
       EconomicCalendar.fmp_currency := "USD" |};
    {| EconomicCalendar.fmp_date := "2024-01-13T13:30:00.000Z";
       EconomicCalendar.fmp_event := "CPI";
       EconomicCalendar.fmp_impact := "High";
       EconomicCalendar.fmp_actual := None;
       EconomicCalendar.fmp_estimate := None;
       EconomicCalendar.fmp_previous := None;
       EconomicCalendar.fmp_currency := "USD" |} ].


(** What the calendar route answers to a first request at the time of the
    samples, with a key, that calendar, an earnings lookup that throws and
    no static event. *)
Definition sample_calendar_data : EconomicCalendar.CalendarData :=
  EconomicCalendar.data
    (@EconomicCalendar.GET referencePlatform referenceText [] []
       (EconomicCalendar.always now0) (Some "key"%string)
       (Json (Some sample_calendar)) Throws ∅).1.

(** * Proofs *)

(** ** The order of numbers and the sign of a difference *)

Local Open Scope Z_scope.

Lemma SFcompare_key (x y : spec_float) :
  SFcompare x y =
    match key x, key y with
    | Some a, Some b => Some (lex3 a b)
    | _, _ => None
    end.
Proof.
  destruct x as [[]|[]| |[] mx ex], y as [[]|[]| |[] my ey]; try reflexivity;
    cbn [SFcompare key lex3]; rewrite ?Z.compare_refl; try reflexivity.
  - cbn. rewrite Z.compare_opp, (Z.compare_antisym ex ey).
    change (PosDef.Pos.compare_cont Eq mx my) with (mx ?= my)%positive.
    destruct (ex ?= ey); reflexivity.
Qed.

Lemma lex3_spec a b :
  match lex3 a b with
  | Lt => lexlt a b
  | Eq => a = b
  | Gt => lexlt b a
  end.
Proof.
  destruct a as [[a1 a2] a3], b as [[b1 b2] b3]. unfold lex3, lexlt; cbn.
  destruct (Z.compare_spec a1 b1); [|lia|lia].
  destruct (Z.compare_spec a2 b2); [|lia|lia].
  destruct (Z.compare_spec a3 b3); [congruence|lia|lia].
Qed.

(** digits and shifts *)
Lemma digits2_pos_bounds (m : positive) :
  2 ^ (Z.pos (digits2_pos m) - 1) <= Z.pos m < 2 ^ Z.pos (digits2_pos m).
Proof.
  induction m as [m IH|m IH|]; cbn [digits2_pos].
  - rewrite Pos2Z.inj_succ. replace (Z.succ (Z.pos (digits2_pos m)) - 1)
      with (Z.succ (Z.pos (digits2_pos m) - 1)) by lia.
    rewrite !Z.pow_succ_r by lia. lia.
  - rewrite Pos2Z.inj_succ. replace (Z.succ (Z.pos (digits2_pos m)) - 1)
      with (Z.succ (Z.pos (digits2_pos m) - 1)) by lia.
    rewrite !Z.pow_succ_r by lia. lia.
  - cbn. lia.
Qed.

Lemma iter_xO_pow (m d : positive) :
  Z.pos (Pos.iter xO m d) = Z.pos m * 2 ^ Z.pos d.
Proof.
  rewrite <- Z.shiftl_mul_pow2 by lia. cbn [Z.shiftl].
  apply (Pos.iter_swap_gen _ _ Z.pos xO (Z.mul 2)). reflexivity.
Qed.

Lemma shl_align_fst (mx : positive) (ex ez : Z) :
  ez <= ex -> Z.pos (fst (shl_align mx ex ez)) = Z.pos mx * 2 ^ (ex - ez).
Proof.
  intros Hle. unfold shl_align.
  destruct (ez - ex) as [|d|d] eqn:E; cbn [fst]; try lia.
  - replace (ex - ez) with 0 by lia. lia.
  - rewrite iter_xO_pow. f_equal. f_equal. lia.
Qed.

Lemma shr_1_m (r : shr_record) :
  0 <= shr_m r -> shr_m (shr_1 r) = Z.div2 (shr_m r).
Proof.
  destruct r as [m r s]; cbn [shr_m]. intros Hm.
  destruct m as [|[p|p|]|p]; try reflexivity. lia.
Qed.

Lemma iter_shr_1_m (p : positive) : forall r : shr_record,
  0 <= shr_m r ->
  shr_m (SpecFloat.iter_pos shr_1 p r) = Z.shiftr (shr_m r) (Z.pos p).
Proof.
  induction p as [p IH|p IH|]; intros r Hr; cbn [SpecFloat.iter_pos].
  - assert (H1 : 0 <= shr_m (shr_1 r)) by
      (rewrite shr_1_m by assumption; rewrite Z.div2_nonneg; assumption).
    assert (H2 : 0 <= shr_m (SpecFloat.iter_pos shr_1 p (shr_1 r))) by
      (rewrite IH by assumption; apply Z.shiftr_nonneg; assumption).
    rewrite IH, IH, shr_1_m by assumption.
    rewrite Z.div2_spec, !Z.shiftr_shiftr by lia. f_equal. lia.
  - assert (H2 : 0 <= shr_m (SpecFloat.iter_pos shr_1 p r)) by
      (rewrite IH by assumption; apply Z.shiftr_nonneg; assumption).
    rewrite IH, IH by assumption.
    rewrite !Z.shiftr_shiftr by lia. f_equal. lia.
  - rewrite shr_1_m by assumption. apply Z.div2_spec.
Qed.

Lemma shr_m_of_loc (m : Z) (l : location) :
  shr_m (shr_record_of_loc m l) = m.
Proof. destruct l as [|[]]; reflexivity. Qed.

Lemma shr_fexp_pos (m e : Z) (l : location) :
  0 < m -> -1074 <= e ->
  0 < shr_m (fst (shr_fexp prec emax m e l))
  /\ -1074 <= snd (shr_fexp prec emax m e l).
Proof.
  intros Hm He. unfold shr_fexp, shr.
  destruct m as [|p|p]; try lia. cbn [Zdigits2].
  pose proof (digits2_pos_bounds p) as Hd.
  set (d := Z.pos (digits2_pos p)) in *.
  unfold fexp, SpecFloat.emin, prec, emax.
  destruct (Z.max (d + e - 53) (3 - 1024 - 53) - e) as [|n|n] eqn:En;
    cbn [fst snd]; rewrite ?shr_m_of_loc; try lia.
  rewrite iter_shr_1_m by (rewrite shr_m_of_loc; lia).
  rewrite shr_m_of_loc, Z.shiftr_div_pow2 by lia.
  split; [|lia].
  apply Z.div_str_pos. split; [apply Z.pow_pos_nonneg; lia|].
  transitivity (2 ^ (d - 1)); [|lia].
  apply Z.pow_le_mono_r; lia.
Qed.

Lemma round_nearest_even_pos (m : Z) (l : location) :
  0 < m -> 0 < round_nearest_even m l.
Proof.
  intros Hm. destruct l as [|[]]; cbn [round_nearest_even]; try lia.
  destruct (Z.even m); lia.
Qed.

(** Rounding a non-zero integer multiple of [2 ^ e], [e] not below the
    least exponent, gives a non-zero number of the sign asked for. *)
Lemma binary_round_aux_shape (s : bool) (m e : Z) (l : location) :
  0 < m -> -1074 <= e ->
  (exists m' e', binary_round_aux prec emax s m e l = S754_finite s m' e')
  \/ binary_round_aux prec emax s m e l = S754_infinity s.
Proof.
  intros Hm He. unfold binary_round_aux.
  pose proof (shr_fexp_pos m e l Hm He) as [H1 H1'].
  destruct (shr_fexp prec emax m e l) as [r1 e1]. cbn [fst snd] in *.
  pose proof (round_nearest_even_pos _ (loc_of_shr_record r1) H1) as H2.
  pose proof (shr_fexp_pos _ e1 loc_Exact H2 H1') as [H3 _].
  destruct (shr_fexp prec emax _ e1 loc_Exact) as [r2 e2]. cbn [fst] in H3.
  destruct (shr_m r2) as [|m2|m2]; try lia.
  destruct (e2 <=? emax - prec); eauto.
Qed.

Lemma binary_round_shape (s : bool) (m : positive) (e : Z) :
  -1074 <= e ->
  (exists m' e', binary_round prec emax s m e = S754_finite s m' e')
  \/ binary_round prec emax s m e = S754_infinity s.
Proof.
  intros He. unfold binary_round.
  destruct (shl_align m e _) as [mz ez] eqn:E.
  apply binary_round_aux_shape; [lia|].
  unfold shl_align in E.
  destruct (_ - e) eqn:E'; inversion E; subst; try lia.
  unfold fexp, SpecFloat.emin, prec, emax. lia.
Qed.

Lemma binary_round_opp (s : bool) (m : positive) (e : Z) :
  binary_round prec emax (negb s) m e = SFopp (binary_round prec emax s m e).
Proof.
  unfold binary_round. destruct (shl_align m e _) as [mz ez].
  unfold binary_round_aux.
  destruct (shr_fexp prec emax (Z.pos mz) ez loc_Exact) as [r1 e1].
  destruct (shr_fexp prec emax _ e1 loc_Exact) as [r2 e2].
  destruct (shr_m r2); try reflexivity.
  destruct (e2 <=? emax - prec); reflexivity.
Qed.

Lemma bounded_facts (m : positive) (e : Z) :
  bounded prec emax m e = true ->
  -1074 <= e /\ Z.pos (digits2_pos m) <= 53
  /\ (-1074 < e -> Z.pos (digits2_pos m) = 53).
Proof.
  unfold bounded, canonical_mantissa, fexp, SpecFloat.emin, prec, emax.
  intros [H _]%andb_prop. apply Z.eqb_eq in H. lia.
Qed.

(** Canonical mantissas compare as the numbers they stand for. *)
Lemma compare_aligned (mx my : positive) (ex ey : Z) :
  bounded prec emax mx ex = true -> bounded prec emax my ey = true ->
  (Z.pos (fst (shl_align mx ex (Z.min ex ey)))
   ?= Z.pos (fst (shl_align my ey (Z.min ex ey))))
  = match ex ?= ey with Eq => (mx ?= my)%positive | c => c end.
Proof.
  intros [Hx1 [Hx2 Hx3]]%bounded_facts [Hy1 [Hy2 Hy3]]%bounded_facts.
  rewrite !shl_align_fst by lia.
  pose proof (digits2_pos_bounds mx) as Bx.
  pose proof (digits2_pos_bounds my) as By.
  assert (P53 : forall d, d <= 53 -> 2 ^ d <= 2 ^ 53)
    by (intros; apply Z.pow_le_mono_r; lia).
  assert (P2 : forall k, 1 <= k -> 2 ^ 1 <= 2 ^ k)
    by (intros; apply Z.pow_le_mono_r; lia).
  destruct (Z.compare_spec ex ey) as [E|E|E].
  - subst ey. rewrite Z.min_id, Z.sub_diag, !Z.mul_1_r. reflexivity.
  - rewrite Z.min_l, Z.sub_diag, Z.mul_1_r by lia.
    apply Z.compare_lt_iff.
    specialize (Hy3 ltac:(lia)). rewrite Hy3 in By.
    specialize (P53 _ Hx2). specialize (P2 (ey - ex) ltac:(lia)).
    change (2 ^ (53 - 1)) with 4503599627370496 in By.
    change (2 ^ 53) with 9007199254740992 in *. change (2 ^ 1) with 2 in P2.
    nia.
  - rewrite Z.min_r, Z.sub_diag, Z.mul_1_r by lia.
    apply Z.compare_gt_iff.
    specialize (Hx3 ltac:(lia)). rewrite Hx3 in Bx.
    specialize (P53 _ Hy2). specialize (P2 (ex - ey) ltac:(lia)).
    change (2 ^ (53 - 1)) with 4503599627370496 in Bx.
    change (2 ^ 53) with 9007199254740992 in *. change (2 ^ 1) with 2 in P2.
    nia.
Qed.

Lemma binary_normalize_sign (d ez : Z) :
  -1074 <= ez ->
  match d ?= 0 with
  | Gt => signed_shape false (binary_normalize prec emax d ez false)
  | Lt => signed_shape true (binary_normalize prec emax d ez false)
  | Eq => binary_normalize prec emax d ez false = S754_zero false
  end.
Proof.
  intros He. destruct d as [|p|p]; cbn [Z.compare binary_normalize];
    try reflexivity; apply binary_round_shape; assumption.
Qed.

Lemma binary_normalize_opp (d ez : Z) :
  d <> 0 ->
  binary_normalize prec emax (- d) ez false
  = SFopp (binary_normalize prec emax d ez false).
Proof.
  intros Hd. destruct d as [|p|p]; try lia.
  - apply (binary_round_opp false).
  - change (binary_round prec emax false p ez
            = SFopp (binary_round prec emax true p ez)).
    rewrite (binary_round_opp true).
    destruct (binary_round prec emax true p ez) as [[]|[]| |[]]; reflexivity.
Qed.

(** What [b - a] is, by how [a] compares with [b]. *)
Lemma SFsub_cases (a b : spec_float) :
  valid_binary a = true -> valid_binary b = true ->
  match SFcompare a b with
  | Some Lt => signed_shape false (SF64sub b a)
  | Some Gt => signed_shape true (SF64sub b a)
  | Some Eq => (exists s, SF64sub b a = S754_zero s) \/ SF64sub b a = S754_nan
  | None => SF64sub b a = S754_nan
  end.
Proof.
  intros Va Vb. unfold SF64sub, signed_shape.
  destruct a as [sa|sa| |sa ma ea], b as [sb|sb| |sb mb eb];
    try (destruct sa); try (destruct sb); cbn [SFcompare SFsub negb];
    eauto.
  all: cbn [valid_binary] in Va, Vb.
  all: pose proof (bounded_facts _ _ Va) as [Ha _];
       pose proof (bounded_facts _ _ Vb) as [Hb _].
  all: pose proof (compare_aligned _ _ _ _ Vb Va) as C.
  all: change (PosDef.Pos.compare_cont Eq ma mb) with (ma ?= mb)%positive.
  all: set (B := Z.pos (fst (shl_align mb eb (Z.min eb ea)))) in *.
  all: set (A := Z.pos (fst (shl_align ma ea (Z.min eb ea)))) in *.
  all: cbn [cond_Zopp].
  all: pose proof (binary_normalize_sign (- B - - A) (Z.min eb ea) ltac:(lia)) as N1.
  all: pose proof (binary_normalize_sign (- B - A) (Z.min eb ea) ltac:(lia)) as N2.
  all: pose proof (binary_normalize_sign (B - - A) (Z.min eb ea) ltac:(lia)) as N3.
  all: pose proof (binary_normalize_sign (B - A) (Z.min eb ea) ltac:(lia)) as N4.
  all: unfold signed_shape in *.
  - (* both negative *)
    rewrite (Z.compare_antisym eb ea), (Pos.compare_antisym mb ma).
    destruct (eb ?= ea) eqn:E; cbn [CompOpp];
      [destruct (mb ?= ma)%positive eqn:E'; cbn [CompOpp]| |].
    all: rewrite ?E, ?E' in C.
    all: destruct (Z.compare_spec (- B - - A) 0); eauto.
    all: destruct (Z.compare_spec B A); try discriminate C; lia.
  - destruct (Z.compare_spec (B - - A) 0); eauto; lia.
  - destruct (Z.compare_spec (- B - A) 0); eauto; lia.
  - rewrite (Z.compare_antisym eb ea), (Pos.compare_antisym mb ma).
    destruct (eb ?= ea) eqn:E; cbn [CompOpp];
      [destruct (mb ?= ma)%positive eqn:E'; cbn [CompOpp]| |].
    all: rewrite ?E, ?E' in C.
    all: destruct (Z.compare_spec (B - A) 0); eauto.
    all: destruct (Z.compare_spec B A); try discriminate C; lia.
Qed.

Lemma SFsub_opp (a b : spec_float) :
  valid_binary a = true -> valid_binary b = true ->
  SFcompare a b = Some Lt \/ SFcompare a b = Some Gt ->
  SF64sub a b = SFopp (SF64sub b a).
Proof.
  intros Va Vb Hc. unfold SF64sub.
  destruct a as [sa|sa| |sa ma ea], b as [sb|sb| |sb mb eb];
    try (destruct sa); try (destruct sb); cbn [SFcompare SFsub negb SFopp] in *;
    try reflexivity; try (destruct Hc; discriminate).
  all: cbn [valid_binary] in Va, Vb.
  all: pose proof (bounded_facts _ _ Va) as [Ha _];
       pose proof (bounded_facts _ _ Vb) as [Hb _].
  all: pose proof (compare_aligned _ _ _ _ Vb Va) as C.
  all: change (PosDef.Pos.compare_cont Eq ma mb) with (ma ?= mb)%positive in Hc.
  all: rewrite (Z.min_comm ea eb).
  all: set (B := Z.pos (fst (shl_align mb eb (Z.min eb ea)))) in *.
  all: set (A := Z.pos (fst (shl_align ma ea (Z.min eb ea)))) in *.
  all: cbn [cond_Zopp].
  - replace (- A - - B) with (- (- B - - A)) by lia.
    apply binary_normalize_opp.
    rewrite (Z.compare_antisym eb ea), (Pos.compare_antisym mb ma) in Hc.
    destruct (eb ?= ea) eqn:E; cbn [CompOpp] in Hc;
      [destruct (mb ?= ma)%positive eqn:E'; cbn [CompOpp] in Hc| |].
    all: destruct (Z.compare_spec B A); try discriminate C;
      try (destruct Hc; discriminate); lia.
  - replace (- A - B) with (- (B - - A)) by lia.
    apply binary_normalize_opp. lia.
  - replace (A - - B) with (- (- B - A)) by lia.
    apply binary_normalize_opp. lia.
  - replace (A - B) with (- (B - A)) by lia.
    apply binary_normalize_opp.
    rewrite (Z.compare_antisym eb ea), (Pos.compare_antisym mb ma) in Hc.
    destruct (eb ?= ea) eqn:E; cbn [CompOpp] in Hc;
      [destruct (mb ?= ma)%positive eqn:E'; cbn [CompOpp] in Hc| |].
    all: destruct (Z.compare_spec B A); try discriminate C;
      try (destruct Hc; discriminate); lia.
Qed.

Local Open Scope float_scope.

Lemma ltb_lex (x y : float) : (x <? y) = lex_ltb (fkey x) (fkey y).
Proof.
  rewrite FloatAxioms.ltb_spec. unfold SFltb, lex_ltb, fkey. rewrite SFcompare_key.
  destruct (key (Prim2SF x)), (key (Prim2SF y)); reflexivity.
Qed.

Lemma leb_lex (x y : float) : (x <=? y) = lex_leb (fkey x) (fkey y).
Proof.
  rewrite FloatAxioms.leb_spec. unfold SFleb, lex_leb, fkey. rewrite SFcompare_key.
  destruct (key (Prim2SF x)), (key (Prim2SF y)); reflexivity.
Qed.

Lemma eqb_lex (x y : float) : (x =? y) = lex_eqb (fkey x) (fkey y).
Proof.
  rewrite FloatAxioms.eqb_spec. unfold SFeqb, lex_eqb, fkey. rewrite SFcompare_key.
  destruct (key (Prim2SF x)), (key (Prim2SF y)); reflexivity.
Qed.

Lemma is_nan_lex (x : float) :
  is_nan x = match fkey x with Some _ => false | None => true end.
Proof.
  unfold is_nan. rewrite eqb_lex. unfold lex_eqb.
  destruct (fkey x) as [a|]; [|reflexivity].
  pose proof (lex3_spec a a) as H. unfold lexlt in H.
  destruct (lex3 a a); [reflexivity|lia|lia].
Qed.

(** Comparisons of floats, decided on their keys. *)
Ltac float_order :=
  unfold JS.gtb, JS.geb in *;
  rewrite ?ltb_lex, ?leb_lex, ?eqb_lex, ?is_nan_lex in *;
  unfold lex_ltb, lex_leb, lex_eqb in *;
  repeat match goal with
    | |- context [fkey ?x] => destruct (fkey x) as [[[? ?] ?]|]
    | H : context [fkey ?x] |- _ => destruct (fkey x) as [[[? ?] ?]|]
    end;
  repeat match goal with
    | |- context [lex3 ?a ?b] =>
        pose proof (lex3_spec a b); destruct (lex3 a b)
    | H : context [lex3 ?a ?b] |- _ =>
        pose proof (lex3_spec a b); destruct (lex3 a b)
    end;
  unfold lexlt in *; cbn [fst snd] in *;
  try discriminate; try reflexivity;
  repeat match goal with
    | H : (_, _) = (_, _) |- _ => injection H as ? ? ?
    end;
  try lia.

Lemma ltb_asym (x y : float) : (x <? y) = true -> (y <? x) = false.
Proof. intros. float_order. Qed.

Lemma ltb_false_leb (x y : float) :
  is_nan x = false -> is_nan y = false -> (x <? y) = false -> (y <=? x) = true.
Proof. intros. float_order. Qed.

Lemma leb_trans (x y z : float) :
  (x <=? y) = true -> (y <=? z) = true -> (x <=? z) = true.
Proof. intros. float_order. Qed.

Lemma leb_not_gtb (x y : float) : (x <=? y) = true -> (y <? x) = false.
Proof. intros. float_order. Qed.

Lemma ltb_leb (x y : float) : (x <? y) = true -> (x <=? y) = true.
Proof. intros. float_order. Qed.

Lemma ltb_trans (x y z : float) :
  (x <? y) = true -> (y <? z) = true -> (x <? z) = true.
Proof. intros. float_order. Qed.

Lemma eqb_ltb_neq (r x y : float) :
  (r =? x) = true -> (x <? y) = true -> (r =? y) = false.
Proof. intros. float_order. Qed.

Lemma ltb_not_nan_r (c x : float) : (c <? x) = true -> is_nan x = false.
Proof. intros. float_order. Qed.

Lemma Prim2SF_zero : Prim2SF 0 = S754_zero false.
Proof. vm_compute. reflexivity. Qed.

(** The comparator idiom [y - x > 0] decides [x < y]. *)
Lemma sub_pos (x y : float) : (0 <? y - x) = (x <? y).
Proof.
  rewrite !FloatAxioms.ltb_spec, sub_spec, Prim2SF_zero.
  pose proof (SFsub_cases _ _ (Prim2SF_valid x) (Prim2SF_valid y)) as H.
  unfold SFltb at 2.
  destruct (SFcompare (Prim2SF x) (Prim2SF y)) as [[]|];
    [destruct H as [[s ->]| ->]
    |destruct H as [(m & e & ->)| ->]
    |destruct H as [(m & e & ->)| ->]
    |rewrite H]; reflexivity.
Qed.

Lemma abs_sub (x y : float) : (x <? y) = true -> abs (y - x) = y - x.
Proof.
  rewrite FloatAxioms.ltb_spec. intros Hlt. apply Prim2SF_inj.
  rewrite abs_spec, sub_spec.
  pose proof (SFsub_cases _ _ (Prim2SF_valid x) (Prim2SF_valid y)) as H.
  unfold SFltb in Hlt.
  destruct (SFcompare (Prim2SF x) (Prim2SF y)) as [[]|]; try discriminate.
  destruct H as [(m & e & ->)| ->]; reflexivity.
Qed.

Lemma sub_swap (x y : float) : (x <? y) = true -> x - y = - (y - x).
Proof.
  rewrite FloatAxioms.ltb_spec. intros Hlt. apply Prim2SF_inj.
  rewrite opp_spec, !sub_spec.
  apply SFsub_opp; try apply Prim2SF_valid.
  unfold SFltb in Hlt.
  destruct (SFcompare (Prim2SF x) (Prim2SF y)) as [[]|]; try discriminate.
  left; reflexivity.
Qed.

Lemma abs_opp (z : float) : abs (- z) = abs z.
Proof.
  apply Prim2SF_inj. rewrite !abs_spec, opp_spec.
  destruct (Prim2SF z); reflexivity.
Qed.

Lemma abs_sub_swap (x y : float) : (x <? y) = true -> abs (x - y) = y - x.
Proof.
  intros Hlt. rewrite (sub_swap _ _ Hlt), abs_opp. apply abs_sub, Hlt.
Qed.

Lemma Prim2SF_nan : Prim2SF nan = S754_nan.
Proof. vm_compute. reflexivity. Qed.

Lemma sub_nan_l (y : float) : nan - y = nan.
Proof.
  apply Prim2SF_inj. rewrite sub_spec, Prim2SF_nan. reflexivity.
Qed.

Lemma div_nan_l (y : float) : nan / y = nan.
Proof.
  apply Prim2SF_inj. rewrite div_spec, Prim2SF_nan. reflexivity.
Qed.

Lemma div_nan_r (x : float) : x / nan = nan.
Proof.
  apply Prim2SF_inj. rewrite div_spec, Prim2SF_nan.
  unfold SF64div. destruct (Prim2SF x); reflexivity.
Qed.

Lemma is_nan_eq (x : float) : is_nan x = true -> x = nan.
Proof.
  intros H. apply Prim2SF_inj. rewrite Prim2SF_nan.
  rewrite is_nan_lex in H. unfold fkey in H.
  destruct (Prim2SF x) as [[]|[]| |[]]; try discriminate. reflexivity.
Qed.

(** [Math.min(Math.max(p, lo), hi)] is within [[lo, hi]] unless [p] is
    [NaN], which it returns. *)
Lemma clamp_range (p lo hi : float) :
  (lo <=? hi) = true ->
  let r := JS.Math_min (JS.Math_max p lo) hi in
  if is_nan p then r = nan
  else (lo <=? r) = true /\ (r <=? hi) = true.
Proof.
  intros Hlh r. subst r. unfold JS.Math_min, JS.Math_max.
  assert (Hlo : is_nan lo = false) by float_order.
  assert (Hhi : is_nan hi = false) by float_order.
  rewrite Hlo, Hhi, !orb_false_r.
  destruct (is_nan p) eqn:Hp; [reflexivity|].
  change (is_nan nan) with true. cbn [orb].
  destruct (p <? lo) eqn:H1.
  - rewrite Hlo. destruct (lo <? hi) eqn:H2; [split; float_order|].
    destruct (hi <? lo) eqn:H3; [float_order|].
    destruct (get_sign lo); split; float_order.
  - destruct (lo <? p) eqn:H2.
    + rewrite Hp. destruct (p <? hi) eqn:H3; [split; float_order|].
      destruct (hi <? p) eqn:H4; [split; float_order|].
      destruct (get_sign p); split; float_order.
    + destruct (get_sign p).
      * rewrite Hlo. destruct (lo <? hi) eqn:H3; [split; float_order|].
        destruct (hi <? lo) eqn:H4; [float_order|].
        destruct (get_sign lo); split; float_order.
      * rewrite Hp. destruct (p <? hi) eqn:H3; [split; float_order|].
        destruct (hi <? p) eqn:H4; [split; float_order|].
        destruct (get_sign p); split; float_order.
Qed.

(** ** Lists: the sort, the slice and the loop over neighbours *)

Section SortFacts.
Context {A : Type} (ratio : A -> JS.number).

(** The comparator of both routes, [(a, b) => b.ratio - a.ratio]. *)
Let cmp (a b : A) : JS.number := ratio b - ratio a.

Lemma sort_insert_perm (x : A) (l : list A) :
  Permutation (JS.sort_insert cmp x l) (x :: l).
Proof.
  induction l as [|y l IH]; cbn [JS.sort_insert]; [reflexivity|].
  destruct (0 <? cmp x y); [|reflexivity].
  rewrite IH. apply perm_swap.
Qed.

Lemma Array_sort_perm (l : list A) : Permutation (JS.Array_sort cmp l) l.
Proof.
  induction l as [|x l IH]; [reflexivity|].
  unfold JS.Array_sort in *. cbn [foldr].
  rewrite sort_insert_perm. apply perm_skip, IH.
Qed.

Lemma sort_insert_filter_out (p : A -> bool) (x : A) (l : list A) :
  p x = false ->
  List.filter p (JS.sort_insert cmp x l) = List.filter p l.
Proof.
  intros Hx. induction l as [|y l IH]; cbn [JS.sort_insert List.filter].
  - rewrite Hx. reflexivity.
  - destruct (0 <? cmp x y); cbn [List.filter]; rewrite ?IH, ?Hx; reflexivity.
Qed.

(** Entries of one ratio keep their order: an entry moves only behind
    entries of a larger ratio. *)
Lemma sort_insert_stable (r : JS.number) (x : A) (l : list A) :
  List.filter (fun a => r =? ratio a) (JS.sort_insert cmp x l)
  = List.filter (fun a => r =? ratio a) (x :: l).
Proof.
  destruct (r =? ratio x) eqn:Hx.
  - induction l as [|y l IH]; cbn [JS.sort_insert]; [reflexivity|].
    destruct (0 <? cmp x y) eqn:Hc; [|reflexivity].
    unfold cmp in Hc. rewrite sub_pos in Hc.
    assert (Hy : (r =? ratio y) = false) by (eapply eqb_ltb_neq; eassumption).
    cbn [List.filter] in *. rewrite Hx, Hy in *. exact IH.
  - cbn [List.filter]. rewrite Hx. apply sort_insert_filter_out, Hx.
Qed.

Lemma Array_sort_stable (r : JS.number) (l : list A) :
  List.filter (fun a => r =? ratio a) (JS.Array_sort cmp l)
  = List.filter (fun a => r =? ratio a) l.
Proof.
  induction l as [|x l IH]; [reflexivity|].
  unfold JS.Array_sort in *. cbn [foldr].
  rewrite sort_insert_stable. cbn [List.filter]. rewrite IH. reflexivity.
Qed.

Lemma sort_insert_sorted (x : A) (l : list A) :
  is_nan (ratio x) = false ->
  Forall (fun a => is_nan (ratio a) = false) l ->
  StronglySorted (descending ratio) l ->
  StronglySorted (descending ratio) (JS.sort_insert cmp x l).
Proof.
  intros Hx Hl Hs. induction Hs as [|y l Hs IH Hy]; cbn [JS.sort_insert].
  - constructor; constructor.
  - inversion Hl as [|? ? Hny Hl']; subst.
    destruct (0 <? cmp x y) eqn:Hc; unfold cmp in Hc; rewrite sub_pos in Hc.
    + constructor; [apply IH, Hl'|].
      rewrite (sort_insert_perm x l). constructor; [|exact Hy].
      apply ltb_leb, Hc.
    + assert (Hyx : descending ratio x y) by (apply ltb_false_leb; assumption).
      constructor; [constructor; assumption|].
      constructor; [exact Hyx|].
      eapply Forall_impl; [exact Hy|].
      intros z Hz. unfold descending in *. eapply leb_trans; eassumption.
Qed.

Lemma Array_sort_sorted (l : list A) :
  Forall (fun a => is_nan (ratio a) = false) l ->
  StronglySorted (descending ratio) (JS.Array_sort cmp l).
Proof.
  induction 1 as [|x l Hx Hl IH]; [constructor|].
  unfold JS.Array_sort in *. cbn [foldr].
  apply sort_insert_sorted; [exact Hx| |exact IH].
  fold (JS.Array_sort cmp l). rewrite Array_sort_perm. exact Hl.
Qed.

End SortFacts.

Lemma In_firstn {A : Type} (n : nat) (l : list A) (x : A) :
  In x (firstn n l) -> In x l.
Proof.
  revert n. induction l as [|y l IH]; intros [|n]; cbn [firstn In]; try tauto.
  intros [H|H]; [left; exact H|right; eapply IH, H].
Qed.

Lemma StronglySorted_firstn {A : Type} (R : A -> A -> Prop) (n : nat)
    (l : list A) :
  StronglySorted R l -> StronglySorted R (firstn n l).
Proof.
  intros Hs. revert n. induction Hs as [|x l Hs IH Hx]; intros [|n];
    cbn [firstn]; try constructor.
  - apply IH.
  - apply List.Forall_forall. intros y Hy. apply In_firstn in Hy.
    eapply List.Forall_forall in Hx; eassumption.
Qed.

Lemma filter_firstn_prefix {A : Type} (p : A -> bool) (n : nat) (l : list A) :
  exists k, List.filter p (firstn n l) = firstn k (List.filter p l).
Proof.
  revert n. induction l as [|x l IH]; intros [|n]; cbn [firstn List.filter].
  - exists O. reflexivity.
  - exists O. reflexivity.
  - exists O. reflexivity.
  - destruct (IH n) as [k Hk]. destruct (p x).
    + exists (S k). cbn [firstn]. rewrite Hk. reflexivity.
    + exists k. exact Hk.
Qed.

Lemma filterAt_In {A : Type} (p : nat -> A -> bool) (xs : list A) (x : A) :
  forall i,
    In x (filterAt p i xs)
    <-> exists j, nth_error xs j = Some x /\ p (i + j)%nat x = true.
Proof.
  induction xs as [|y xs IH]; intros i; cbn [filterAt].
  - split; [intros []|intros ([|j] & Hj & _); discriminate Hj].
  - assert (Hrest : In x (filterAt p (S i) xs)
                    <-> exists j, nth_error xs j = Some x
                                  /\ p (i + S j)%nat x = true).
    { rewrite IH. split; intros (j & Hj & Hp); exists j;
        (split; [exact Hj|]); rewrite <- Hp; f_equal; lia. }
    split.
    + intros Hx.
      assert (Hx' : (y = x /\ p i y = true) \/ In x (filterAt p (S i) xs)).
      { destruct (p i y); cbn [In] in Hx; tauto. }
      destruct Hx' as [[<- Hp]|Hx'].
      * exists 0%nat. rewrite Nat.add_0_r. split; [reflexivity|exact Hp].
      * apply Hrest in Hx' as (j & Hj & Hp). exists (S j). split; assumption.
    + intros ([|j] & Hj & Hp).
      * injection Hj as ->. rewrite Nat.add_0_r in Hp. rewrite Hp. left.
        reflexivity.
      * assert (Hx : In x (filterAt p (S i) xs)) by (apply Hrest; eauto).
        destruct (p i y); [right|]; exact Hx.
Qed.

Lemma filterAt_app {A : Type} (p : nat -> A -> bool) (xs ys : list A) :
  forall i,
    filterAt p i (xs ++ ys)
    = filterAt p i xs ++ filterAt p (i + length xs) ys.
Proof.
  induction xs as [|x xs IH]; intros i; cbn [filterAt app length].
  - rewrite Nat.add_0_r. reflexivity.
  - rewrite IH. replace (S i + length xs)%nat with (i + S (length xs))%nat
      by lia.
    destruct (p i x); reflexivity.
Qed.

Lemma filterAt_always {A : Type} (p : A -> bool) (xs : list A) :
  forall i, filterAt (fun _ => p) i xs = List.filter p xs.
Proof.
  induction xs as [|x xs IH]; intros i; cbn [filterAt List.filter];
    [reflexivity|].
  rewrite IH. reflexivity.
Qed.

Lemma forAdjacent_In {A B : Type} (body : nat -> A -> A -> list B)
    (xs : list A) (r : B) :
  forall i,
    In r (forAdjacent body i xs) ->
    exists before shortOption longOption after,
      xs = before ++ shortOption :: longOption :: after
      /\ In r (body (i + length before)%nat shortOption longOption).
Proof.
  induction xs as [|s [|l xs] IH]; intros i; cbn [forAdjacent];
    try (intros []).
  intros [H|H]%in_app_or.
  - exists [], s, l, xs. rewrite Nat.add_0_r. split; [reflexivity|exact H].
  - destruct (IH _ H) as (before & s' & l' & after & E & Hr).
    exists (s :: before), s', l', after. rewrite E.
    split; [reflexivity|].
    replace (i + length (s :: before))%nat with (S i + length before)%nat
      by (cbn [length]; lia).
    exact Hr.
Qed.

Lemma forAdjacent_length {A B : Type} (body : nat -> A -> A -> list B)
    (xs : list A) :
  (forall i s l, length (body i s l) <= 1)%nat ->
  forall i, (length (forAdjacent body i xs) <= length xs - 1)%nat.
Proof.
  intros Hb. induction xs as [|s [|l xs] IH]; intros i;
    [cbn; lia|cbn; lia|].
  change (forAdjacent body i (s :: l :: xs))
    with (body i s l ++ forAdjacent body (S i) (l :: xs)).
  rewrite length_app. specialize (Hb i s l). specialize (IH (S i)).
  cbn [length] in *. lia.
Qed.

(** ** What the pairing loops push *)

Local Open Scope float_scope.

Section EnhancedFacts.
Context `{Platform}.

Lemma Enhanced_callSpread_inv now currentPrice s l r :
  In r (Enhanced.callSpread now currentPrice s l) ->
  built_from call s l r
  /\ JS.gtb (creditReceived r) 0.15 = true
  /\ JS.gtb (maxProfit r / maxLoss r) 0.25 = true
  /\ JS.geb (daysToExpiration r) 5 = true
  /\ (daysToExpiration r <=? 10) = true
  /\ daysToExpiration r = getDaysToExpiration now (expiration s)
  /\ probOfProfit r
     = Enhanced.calculateProbOfProfit currentPrice (shortStrike r)
         (creditReceived r) call
         ((impliedVolatility s + impliedVolatility l) / 2)
         (daysToExpiration r).
Proof.
  unfold Enhanced.callSpread, built_from.
  destruct (JS.gtb (strike l) (strike s)) eqn:Hgt; [|intros []].
  destruct (JS.gtb (bid s - ask l) 0.15) eqn:H1; [|intros []].
  destruct (JS.gtb _ 0.25) eqn:H2; [|intros []].
  destruct (JS.geb _ 5) eqn:H3; [|intros []].
  destruct (_ <=? 10) eqn:H4; [|intros []].
  cbn [andb In]. intros [<-|[]]. cbn. unfold JS.gtb in Hgt. tauto.
Qed.

Lemma Enhanced_putSpread_inv now currentPrice s l r :
  In r (Enhanced.putSpread now currentPrice s l) ->
  built_from put s l r
  /\ JS.gtb (creditReceived r) 0.15 = true
  /\ JS.gtb (maxProfit r / maxLoss r) 0.25 = true
  /\ JS.geb (daysToExpiration r) 5 = true
  /\ (daysToExpiration r <=? 10) = true
  /\ daysToExpiration r = getDaysToExpiration now (expiration s)
  /\ probOfProfit r
     = Enhanced.calculateProbOfProfit currentPrice (shortStrike r)
         (creditReceived r) put
         ((impliedVolatility s + impliedVolatility l) / 2)
         (daysToExpiration r).
Proof.
  unfold Enhanced.putSpread, built_from.
  destruct (strike l <? strike s) eqn:Hgt; [|intros []].
  destruct (JS.gtb (bid s - ask l) 0.15) eqn:H1; [|intros []].
  destruct (JS.gtb _ 0.25) eqn:H2; [|intros []].
  destruct (JS.geb _ 5) eqn:H3; [|intros []].
  destruct (_ <=? 10) eqn:H4; [|intros []].
  cbn [andb In]. intros [<-|[]]. cbn. tauto.
Qed.

Lemma Enhanced_find_pairing clock options currentPrice targetDTE r :
  In r (Enhanced.findCreditSpreads clock options currentPrice targetDTE) ->
  In r (Enhanced.pairing clock options currentPrice targetDTE).
Proof.
  unfold Enhanced.findCreditSpreads, JS.slice0. intros Hr%In_firstn.
  eapply Permutation_in; [|exact Hr].
  apply (Array_sort_perm riskRewardRatio).
Qed.

End EnhancedFacts.

Section BasicFacts.
Context `{Platform}.

Lemma Basic_callSpread_inv now currentPrice s l r :
  In r (Basic.callSpread now currentPrice s l) ->
  built_from call s l r
  /\ JS.gtb (creditReceived r) 0.10 = true
  /\ JS.gtb (maxProfit r / maxLoss r) 0.2 = true
  /\ daysToExpiration r = getDaysToExpiration now (expiration s).
Proof.
  unfold Basic.callSpread, built_from.
  destruct (JS.gtb (strike l) (strike s)) eqn:Hgt; [|intros []].
  destruct (JS.gtb (bid s - ask l) 0.10) eqn:H1; [|intros []].
  destruct (JS.gtb _ 0.2) eqn:H2; [|intros []].
  cbn [andb In]. intros [<-|[]]. cbn. unfold JS.gtb in Hgt. tauto.
Qed.

Lemma Basic_putSpread_inv now currentPrice s l r :
  In r (Basic.putSpread now currentPrice s l) ->
  built_from put s l r
  /\ JS.gtb (creditReceived r) 0.10 = true
  /\ JS.gtb (maxProfit r / maxLoss r) 0.2 = true
  /\ daysToExpiration r = getDaysToExpiration now (expiration s).
Proof.
  unfold Basic.putSpread, built_from.
  destruct (strike l <? strike s) eqn:Hgt; [|intros []].
  destruct (JS.gtb (bid s - ask l) 0.10) eqn:H1; [|intros []].
  destruct (JS.gtb _ 0.2) eqn:H2; [|intros []].
  cbn [andb In]. intros [<-|[]]. cbn. tauto.
Qed.

Lemma Basic_find_pairing clock options currentPrice targetDTE r :
  In r (Basic.findCreditSpreads clock options currentPrice targetDTE) ->
  In r (Basic.pairing clock options currentPrice targetDTE).
Proof.
  unfold Basic.findCreditSpreads, JS.slice0. intros Hr%In_firstn.
  eapply Permutation_in; [|exact Hr].
  apply (Array_sort_perm riskRewardRatio).
Qed.

End BasicFacts.

Lemma pairing_app_inv {B : Type} (callBody putBody : nat -> OptionContract ->
      OptionContract -> list B) (cs ps : list OptionContract) (r : B) :
  In r (forAdjacent callBody 0 cs ++ forAdjacent putBody 0 ps) ->
  (exists before s l after,
      cs = before ++ s :: l :: after
      /\ In r (callBody (length before) s l))
  \/ (exists before s l after,
      ps = before ++ s :: l :: after
      /\ In r (putBody (length before) s l)).
Proof.
  intros [Hr|Hr]%in_app_or; [left|right]; apply forAdjacent_In in Hr;
    exact Hr.
Qed.

(** ** C1: the fields of a recommendation *)

Lemma built_from_consistent t s l r :
  built_from t s l r -> fields_consistent r.
Proof.
  unfold built_from, fields_consistent.
  intros (Ht & Hs & Hl & Hc & Hp & Hm & Hb & Hr & Hlt).
  rewrite Hs, Hl, Ht. repeat split; try assumption.
  - rewrite Hm. destruct t; cbn [is_call] in *.
    + rewrite (abs_sub _ _ Hlt). reflexivity.
    + rewrite (abs_sub_swap _ _ Hlt). reflexivity.
  - rewrite Hb. destruct t; reflexivity.
Qed.

(** C1.  Every recommendation either route's [findCreditSpreads] returns has
    [maxProfit] equal to [creditReceived], [maxLoss] equal to
    [|longStrike - shortStrike| - creditReceived], [riskRewardRatio] equal to
    [maxProfit / maxLoss], and [breakeven] equal to
    [shortStrike + creditReceived] for a call spread and to
    [shortStrike - creditReceived] for a put spread. *)
Theorem recommendation_fields_consistent `{Platform}
    (clock : Clock) (options : list OptionContract)
    (currentPrice targetDTE : JS.number) (r : CreditSpreadRecommendation) :
  In r (Enhanced.findCreditSpreads clock options currentPrice targetDTE)
  \/ In r (Basic.findCreditSpreads clock options currentPrice targetDTE) ->
  fields_consistent r.
Proof.
  intros [Hr|Hr].
  - apply Enhanced_find_pairing, pairing_app_inv in Hr.
    destruct Hr as [(b & s & l & a & _ & Hr)|(b & s & l & a & _ & Hr)].
    + apply Enhanced_callSpread_inv in Hr as [Hb _].
      eapply built_from_consistent, Hb.
    + apply Enhanced_putSpread_inv in Hr as [Hb _].
      eapply built_from_consistent, Hb.
  - apply Basic_find_pairing, pairing_app_inv in Hr.
    destruct Hr as [(b & s & l & a & _ & Hr)|(b & s & l & a & _ & Hr)].
    + apply Basic_callSpread_inv in Hr as [Hb _].
      eapply built_from_consistent, Hb.
    + apply Basic_putSpread_inv in Hr as [Hb _].
      eapply built_from_consistent, Hb.
Qed.

(** C1 on the scenario of the specification: the multi-provider route
    returns the bear call spread 260/265. *)
Lemma recommendation_fields_consistent_witness :
  fields_consistent
    (nth 0
       (@Enhanced.findCreditSpreads referencePlatform (always now0) scenario
          255 7)
       no_recommendation).
Proof.
  apply (@recommendation_fields_consistent referencePlatform (always now0)
           scenario 255 7).
  left. vm_compute. left. reflexivity.
Defined.

(** ** C2: the ranker *)

Lemma sort_slice_ranked (cands : list CreditSpreadRecommendation) :
  Forall (fun r => is_nan (riskRewardRatio r) = false) cands ->
  ranked cands
    (JS.slice0 10
       (JS.Array_sort (fun a b => riskRewardRatio b - riskRewardRatio a)
          cands)).
Proof.
  intros Hn. unfold ranked, JS.slice0. repeat split.
  - apply StronglySorted_firstn, Array_sort_sorted, Hn.
  - intros rho.
    rewrite <- (Array_sort_stable riskRewardRatio rho cands).
    apply filter_firstn_prefix.
  - apply firstn_le_length.
Qed.

Lemma targetOptions_window now options targetDTE c :
  In c (targetOptions now options targetDTE) ->
  exists i,
    nth_error options i = Some c /\ inWindow (now i) targetDTE c = true.
Proof.
  unfold targetOptions. intros Hc%filterAt_In. exact Hc.
Qed.

Lemma inWindow_days now targetDTE c :
  inWindow now targetDTE c = true ->
  JS.geb (getDaysToExpiration now (expiration c)) (targetDTE - 2) = true
  /\ (getDaysToExpiration now (expiration c) <=? targetDTE + 2) = true.
Proof. unfold inWindow. intros Hc. apply andb_prop in Hc. exact Hc. Qed.

(** The contracts of either side passed the window filter. *)
Lemma side_window now options currentPrice targetDTE c :
  In c (callOptions currentPrice (targetOptions now options targetDTE))
  \/ In c (putOptions currentPrice (targetOptions now options targetDTE)) ->
  exists i,
    nth_error options i = Some c /\ inWindow (now i) targetDTE c = true.
Proof.
  intros [Hc|Hc]; apply filter_In in Hc as [Hc _];
    apply targetOptions_window, Hc.
Qed.

(** A contract that passes the window has a valid expiration date, so that
    [toISOString] is never called on an invalid date. *)
Lemma window_valid_date now e lo :
  JS.geb (getDaysToExpiration now e) lo = true ->
  is_nan (JS.TimeClip (e * 1000)) = false.
Proof.
  intros Hw. destruct (is_nan (JS.TimeClip (e * 1000))) eqn:Hn; [|reflexivity].
  apply is_nan_eq in Hn. unfold getDaysToExpiration in Hw.
  rewrite Hn, sub_nan_l, div_nan_l in Hw.
  change (JS.Math_ceil nan) with nan in Hw. unfold JS.geb in Hw.
  rewrite leb_lex in Hw. change (fkey nan) with (@None (Z * Z * Z)) in Hw.
  unfold lex_leb in Hw. destruct (fkey lo); discriminate Hw.
Qed.

Lemma In_middle {A : Type} (before after : list A) (s l : A) :
  In s (before ++ s :: l :: after) /\ In l (before ++ s :: l :: after).
Proof. split; apply in_or_app; right; cbn; tauto. Qed.

Section RankerFacts.
Context `{Platform}.

Lemma Enhanced_pairing_policy clock options currentPrice targetDTE r :
  In r (Enhanced.pairing clock options currentPrice targetDTE) ->
  ranker_policy r /\ riskRewardRatio r = maxProfit r / maxLoss r.
Proof.
  intros Hr. apply pairing_app_inv in Hr.
  destruct Hr as [(b & s & l & a & _ & Hr)|(b & s & l & a & _ & Hr)].
  - apply Enhanced_callSpread_inv in Hr. unfold ranker_policy, built_from in *.
    tauto.
  - apply Enhanced_putSpread_inv in Hr. unfold ranker_policy, built_from in *.
    tauto.
Qed.

Lemma Basic_pairing_policy clock options currentPrice targetDTE r :
  In r (Basic.pairing clock options currentPrice targetDTE) ->
  basic_policy r /\ basic_days clock options targetDTE r
  /\ riskRewardRatio r = maxProfit r / maxLoss r.
Proof.
  intros Hr. apply pairing_app_inv in Hr.
  destruct Hr as [(b & s & l & a & E & Hr)|(b & s & l & a & E & Hr)].
  - apply Basic_callSpread_inv in Hr as (Hb & H1 & H2 & Hd).
    pose proof (In_middle b a s l) as [Hs _]. rewrite <- E in Hs.
    destruct (side_window _ _ _ _ _ (or_introl Hs)) as (i & Hi & Hw).
    assert (Ht : type r = call) by apply Hb.
    split; [split; assumption|]. split; [|apply Hb].
    exists s, i, (length b). rewrite Ht.
    split; [exact Hi|]. split; [apply Hb|]. split; [exact Hw|exact Hd].
  - apply Basic_putSpread_inv in Hr as (Hb & H1 & H2 & Hd).
    pose proof (In_middle b a s l) as [Hs _]. rewrite <- E in Hs.
    destruct (side_window _ _ _ _ _ (or_intror Hs)) as (i & Hi & Hw).
    assert (Ht : type r = put) by apply Hb.
    split; [split; assumption|]. split; [|apply Hb].
    exists s, i, (length b). rewrite Ht.
    split; [exact Hi|]. split; [apply Hb|]. split; [exact Hw|exact Hd].
Qed.

End RankerFacts.

(** C2, as stated, fails.  The single-provider route returns a
    recommendation whose credit is 0.125; it returns a recommendation whose
    [daysToExpiration] is 4, the short leg having been five days from
    expiration when the window filter read the clock and four when the
    loop read it, one millisecond later; and the multi-provider route does
    not reject the ratio of a spread whose maximal loss is zero: the
    quotient is [+Infinity], which is larger than 0.25. *)
Lemma ranker_policy_counterexample :
  ~ (forall clock options currentPrice targetDTE r,
        In r (@Basic.findCreditSpreads referencePlatform clock options
                currentPrice targetDTE) ->
        ranker_policy r)
  /\ (exists r,
        In r (@Basic.findCreditSpreads referencePlatform day_turns scenario
                255 7)
        /\ daysToExpiration r = 4)
  /\ (exists r,
        In r (@Enhanced.findCreditSpreads referencePlatform (always now0)
                zero_loss_scenario 255 7)
        /\ maxLoss r = 0 /\ riskRewardRatio r = infinity).
Proof.
  split; [|split].
  - intros Hall.
    assert (Hin : In (nth 0 (@Basic.findCreditSpreads referencePlatform
                                (always now0) thin_scenario 255 7)
                        no_recommendation)
                   (@Basic.findCreditSpreads referencePlatform (always now0)
                      thin_scenario 255 7))
      by (vm_compute; left; reflexivity).
    apply Hall in Hin. destruct Hin as [Hc _].
    vm_compute in Hc. discriminate Hc.
  - eexists. split; [vm_compute; left; reflexivity|].
    vm_compute. reflexivity.
  - eexists. split; [vm_compute; left; reflexivity|].
    split; vm_compute; reflexivity.
Qed.

(** C2, amended.  In the list the multi-provider route returns every
    recommendation has [creditReceived > 0.15], [maxProfit / maxLoss > 0.25]
    and [5 <= daysToExpiration <= 10]; in the list the single-provider route
    returns every recommendation has [creditReceived > 0.10] and
    [maxProfit / maxLoss > 0.2], and its short leg was within
    [targetDTE - 2 .. targetDTE + 2] days from expiration when the window
    filter read the clock, while its [daysToExpiration] is what a later
    reading gives and is not tested.  In both the ratio is a positive
    number, so that a [NaN] or non-positive ratio is rejected.  Either list
    is in descending order of [riskRewardRatio], keeps entries of equal
    ratio in the order the pairing stage produced them, and has at most ten
    entries.  This holds whatever the readings of the clock. *)
Theorem ranker_policy_and_order `{Platform}
    (clock : Clock) (options : list OptionContract)
    (currentPrice targetDTE : JS.number) :
  (Forall
     (fun r => ranker_policy r /\ (0 <? riskRewardRatio r) = true)
     (Enhanced.findCreditSpreads clock options currentPrice targetDTE)
   /\ ranked (Enhanced.pairing clock options currentPrice targetDTE)
        (Enhanced.findCreditSpreads clock options currentPrice targetDTE))
  /\ (Forall
        (fun r =>
           basic_policy r /\ basic_days clock options targetDTE r
           /\ (0 <? riskRewardRatio r) = true)
        (Basic.findCreditSpreads clock options currentPrice targetDTE)
      /\ ranked (Basic.pairing clock options currentPrice targetDTE)
           (Basic.findCreditSpreads clock options currentPrice targetDTE)).
Proof.
  split; split.
  - apply List.Forall_forall. intros r Hr.
    apply Enhanced_find_pairing, Enhanced_pairing_policy in Hr as [Hp ->].
    split; [exact Hp|]. destruct Hp as (_ & Hp & _).
    apply (ltb_trans 0 0.25); [reflexivity|exact Hp].
  - apply sort_slice_ranked, List.Forall_forall. intros r Hr.
    apply Enhanced_pairing_policy in Hr as [(_ & Hr & _) ->].
    eapply ltb_not_nan_r, Hr.
  - apply List.Forall_forall. intros r Hr.
    apply Basic_find_pairing, Basic_pairing_policy in Hr as (Hp & Hd & ->).
    split; [exact Hp|]. split; [exact Hd|]. destruct Hp as (_ & Hp).
    apply (ltb_trans 0 0.2); [reflexivity|exact Hp].
  - apply sort_slice_ranked, List.Forall_forall. intros r Hr.
    apply Basic_pairing_policy in Hr as ((_ & Hr) & _ & ->).
    eapply ltb_not_nan_r, Hr.
Qed.

(** ** C3: the range of the probability of profit *)

Section ProbabilityFacts.
Context `{Platform}.

(** The clamp keeps every probability that is a number within [[20, 85]];
    it returns [NaN] for [NaN]. *)
Lemma calculateProbOfProfit_range currentPrice shortStrike creditReceived
    type impliedVol daysToExp :
  let r := Enhanced.calculateProbOfProfit currentPrice shortStrike
             creditReceived type impliedVol daysToExp in
  r = nan \/ ((20 <=? r) = true /\ (r <=? 85) = true).
Proof.
  unfold Enhanced.calculateProbOfProfit.
  match goal with
  | |- context [JS.Math_min (JS.Math_max ?p 20) 85] =>
      pose proof (clamp_range p 20 85 eq_refl) as Hc; cbv zeta in Hc;
      destruct (is_nan p); [left|right]; exact Hc
  end.
Qed.

End ProbabilityFacts.

(** C3.  The range [[20, 85]] fails on the code for inputs whose raw
    probability is [NaN]: the clamp passes [NaN] on.  A put
    whose credit exceeds its short strike has a negative breakeven, and the
    logarithm of a negative ratio is [NaN]; at zero implied volatility with
    the underlying at the breakeven the distance is [0 / 0].  The second
    case is reached through [findCreditSpreads]. *)
Theorem calculateProbOfProfit_nan `{Platform} :
  Enhanced.calculateProbOfProfit 250 1 2 put 0.3 7 = nan
  /\ Enhanced.calculateProbOfProfit 262 260 2 call 0 7 = nan
  /\ map probOfProfit
       (Enhanced.findCreditSpreads (always now0) zero_iv_scenario 262 7)
     = [nan]
  /\ (20 <=? nan) && (nan <=? 85) = false.
Proof.
  assert (H1 : Enhanced.calculateProbOfProfit 250 1 2 put 0.3 7 = nan).
  { unfold Enhanced.calculateProbOfProfit. cbn [is_call is_put].
    replace (250 / (1 - 2)) with (-250) by (vm_compute; reflexivity).
    rewrite Math_log_neg by (vm_compute; reflexivity).
    rewrite div_nan_l.
    replace (-2 * nan * nan / JS.Math_PI) with nan
      by (vm_compute; reflexivity).
    rewrite Math_exp_nan. vm_compute. reflexivity. }
  assert (H2 : Enhanced.calculateProbOfProfit 262 260 2 call 0 7 = nan).
  { unfold Enhanced.calculateProbOfProfit. cbn [is_call is_put].
    replace (262 / (260 + 2)) with 1 by (vm_compute; reflexivity).
    rewrite Math_log_one.
    replace (0 / (0 * JS.Math_sqrt (7 / 365))) with nan
      by (vm_compute; reflexivity).
    replace (-2 * nan * nan / JS.Math_PI) with nan
      by (vm_compute; reflexivity).
    rewrite Math_exp_nan. vm_compute. reflexivity. }
  repeat split; try assumption.
  unfold Enhanced.findCreditSpreads, Enhanced.pairing.
  replace (callOptions 262
             (targetOptions (atFilter (always now0)) zero_iv_scenario 7))
    with zero_iv_scenario by (vm_compute; reflexivity).
  replace (putOptions 262
             (targetOptions (atFilter (always now0)) zero_iv_scenario 7))
    with [contract 260 2.5 2.6 0 false] by (vm_compute; reflexivity).
  cbn [forAdjacent zero_iv_scenario app always atCallLoop].
  unfold Enhanced.callSpread.
  replace (JS.gtb (strike (contract 265 0.4 0.5 0 true))
             (strike (contract 260 2.5 2.6 0 false))) with true
    by (vm_compute; reflexivity).
  cbv zeta.
  match goal with
  | |- context [if ?c then _ else _] =>
      replace c with true by (vm_compute; reflexivity)
  end.
  cbn [app JS.Array_sort foldr JS.sort_insert JS.slice0 firstn map
         probOfProfit].
  f_equal.
  replace (getDaysToExpiration now0 _) with 7 by (vm_compute; reflexivity).
  replace ((impliedVolatility _ + impliedVolatility _) / 2) with 0
    by (vm_compute; reflexivity).
  exact H2.
Qed.

(** ** C4: the formula of the probability model *)

Lemma leb_same (x : float) : is_nan x = false -> (x <=? x) = true.
Proof. intros. float_order. Qed.

Lemma eqb_same (x : float) : is_nan x = false -> (x =? x) = true.
Proof. intros. float_order. Qed.

Lemma leb_antisym (x y : float) :
  (x <=? y) = true -> (y <=? x) = true -> (x =? y) = true.
Proof. intros. float_order. Qed.

Lemma leb_not_nan (x y : float) :
  (x <=? y) = true -> is_nan x = false /\ is_nan y = false.
Proof. intros. split; float_order. Qed.

Lemma Math_max_cases (x lo : float) :
  is_nan x = false -> is_nan lo = false ->
  (JS.Math_max x lo = lo /\ (x <=? lo) = true)
  \/ (JS.Math_max x lo = x /\ (lo <=? x) = true).
Proof.
  intros Hx Hlo. unfold JS.Math_max. rewrite Hx, Hlo. cbn [orb].
  destruct (x <? lo) eqn:H1;
    [left; split; [reflexivity|apply ltb_leb, H1]|].
  destruct (lo <? x) eqn:H2;
    [right; split; [reflexivity|apply ltb_leb, H2]|].
  destruct (get_sign x); [left|right]; split; try reflexivity;
    apply ltb_false_leb; assumption.
Qed.

Lemma Math_min_cases (m hi : float) :
  is_nan m = false -> is_nan hi = false ->
  (JS.Math_min m hi = m /\ (m <=? hi) = true)
  \/ (JS.Math_min m hi = hi /\ (hi <=? m) = true).
Proof.
  intros Hm Hhi. unfold JS.Math_min. rewrite Hm, Hhi. cbn [orb].
  destruct (m <? hi) eqn:H1;
    [left; split; [reflexivity|apply ltb_leb, H1]|].
  destruct (hi <? m) eqn:H2;
    [right; split; [reflexivity|apply ltb_leb, H2]|].
  destruct (get_sign m); [left|right]; split; try reflexivity;
    apply ltb_false_leb; assumption.
Qed.

Lemma clamped_intro (lo hi x r : float) :
  (lo <=? r) = true -> (r <=? hi) = true ->
  ((x <? lo) = true -> (r =? lo) = true) ->
  ((hi <? x) = true -> (r =? hi) = true) ->
  ((lo <=? x) = true -> (x <=? hi) = true -> (r =? x) = true) ->
  SpecFormula.clamped lo hi x r = true.
Proof.
  intros H1 H2 Hlo Hhi Hin. unfold SpecFormula.clamped. rewrite H1, H2.
  cbn [andb].
  destruct (x <? lo); [auto|]. destruct (hi <? x); [auto|].
  destruct (lo <=? x); [|reflexivity]. destruct (x <=? hi); [|reflexivity].
  cbn [andb]. auto.
Qed.

(** [Math.min(Math.max(x, lo), hi)] clamps every [x] that is a number. *)
Lemma clamped_min_max (lo hi x : float) :
  (lo <=? hi) = true -> is_nan x = false ->
  SpecFormula.clamped lo hi x (JS.Math_min (JS.Math_max x lo) hi) = true.
Proof.
  intros Hlh Hx. destruct (leb_not_nan _ _ Hlh) as [Hlo Hhi].
  destruct (Math_max_cases x lo Hx Hlo) as [[-> Hxl]|[-> Hlx]].
  - destruct (Math_min_cases lo hi Hlo Hhi) as [[-> _]|[-> Hhl]];
      apply clamped_intro.
    + apply leb_same, Hlo.
    + exact Hlh.
    + intros _. apply eqb_same, Hlo.
    + intros Hgt. pose proof (leb_trans _ _ _ Hxl Hlh) as Hxh.
      apply leb_not_gtb in Hxh. congruence.
    + intros Hlx _. apply leb_antisym; assumption.
    + exact Hlh.
    + apply leb_same, Hhi.
    + intros _. apply leb_antisym; assumption.
    + intros _. apply eqb_same, Hhi.
    + intros Hlx Hxh. apply leb_antisym; [|exact Hxh].
      eapply leb_trans; eassumption.
  - destruct (Math_min_cases x hi Hx Hhi) as [[-> Hxh]|[-> Hhx]];
      apply clamped_intro.
    + exact Hlx.
    + exact Hxh.
    + intros Hlt. apply leb_not_gtb in Hlx. congruence.
    + intros Hgt. apply leb_not_gtb in Hxh. congruence.
    + intros _ _. apply eqb_same, Hx.
    + exact Hlh.
    + apply leb_same, Hhi.
    + intros Hlt. apply leb_not_gtb in Hlx. congruence.
    + intros _. apply eqb_same, Hhi.
    + intros _ Hxh. apply leb_antisym; assumption.
Qed.

(** What [calculateProbOfProfit] passes to [Math.max] and [Math.min] is the
    probability of the specification's formula. *)
Lemma calculateProbOfProfit_unclamped `{Platform}
    (currentPrice shortStrike creditReceived : JS.number) (type : SpreadType)
    (impliedVol daysToExp : JS.number) :
  Enhanced.calculateProbOfProfit currentPrice shortStrike creditReceived type
    impliedVol daysToExp
  = JS.Math_min
      (JS.Math_max
         (SpecFormula.unclamped currentPrice shortStrike creditReceived type
            impliedVol daysToExp) 20) 85.
Proof.
  unfold Enhanced.calculateProbOfProfit, SpecFormula.unclamped,
    SpecFormula.comfortablyOutOfTheMoney, SpecFormula.timeDecayBonus,
    SpecFormula.baseProbability, SpecFormula.cdf, SpecFormula.distance,
    SpecFormula.breakevenOf, JS.gtb.
  destruct type; cbn [is_call is_put andb];
    repeat match goal with
           | |- context [if ?c then _ else _] => destruct c
           end; reflexivity.
Qed.

(** C4.  [calculateProbOfProfit] computes the formula of the specification
    (breakeven, distance, approximate cumulative normal, base probability
    by side, time-decay bonus, out-of-the-money bonus, clamp to
    [[20, 85]]) on every input for which the formula gives a number before
    the clamp; it does not on the others, where it returns [NaN] and the
    specification prescribes a value of [[20, 85]]: at zero implied
    volatility with the underlying at the breakeven, for one. *)
Theorem calculateProbOfProfit_formula `{Platform} :
  (forall currentPrice shortStrike creditReceived type impliedVol daysToExp,
      is_nan
        (SpecFormula.unclamped currentPrice shortStrike creditReceived type
           impliedVol daysToExp) = false ->
      SpecFormula.probabilityOfProfit currentPrice shortStrike creditReceived
        type impliedVol daysToExp
        (Enhanced.calculateProbOfProfit currentPrice shortStrike
           creditReceived type impliedVol daysToExp) = true)
  /\ Enhanced.calculateProbOfProfit 262 260 2 call 0 7 = nan
  /\ SpecFormula.probabilityOfProfit 262 260 2 call 0 7
       (Enhanced.calculateProbOfProfit 262 260 2 call 0 7) = false
  /\ (forall p,
        SpecFormula.probabilityOfProfit 262 260 2 call 0 7 p = true ->
        (20 <=? p) = true /\ (p <=? 85) = true).
Proof.
  assert (Hnan : Enhanced.calculateProbOfProfit 262 260 2 call 0 7 = nan).
  { unfold Enhanced.calculateProbOfProfit. cbn [is_call is_put].
    replace (262 / (260 + 2)) with 1 by (vm_compute; reflexivity).
    rewrite Math_log_one.
    replace (0 / (0 * JS.Math_sqrt (7 / 365))) with nan
      by (vm_compute; reflexivity).
    replace (-2 * nan * nan / JS.Math_PI) with nan
      by (vm_compute; reflexivity).
    rewrite Math_exp_nan. vm_compute. reflexivity. }
  split; [|split; [exact Hnan|split]].
  - intros currentPrice shortStrike creditReceived type impliedVol daysToExp
      Hn.
    unfold SpecFormula.probabilityOfProfit.
    rewrite calculateProbOfProfit_unclamped.
    apply clamped_min_max; [reflexivity|exact Hn].
  - rewrite Hnan. unfold SpecFormula.probabilityOfProfit, SpecFormula.clamped.
    change (20 <=? nan) with false. reflexivity.
  - intros p Hp. unfold SpecFormula.probabilityOfProfit, SpecFormula.clamped in Hp.
    apply andb_prop in Hp as [Hp _]. apply andb_prop in Hp. exact Hp.
Qed.

(** C4 on the scenario of the specification, where the formula gives a
    number. *)
Lemma calculateProbOfProfit_formula_witness :
  @SpecFormula.probabilityOfProfit referencePlatform 255 260 1.1 call 0.3 7
    (@Enhanced.calculateProbOfProfit referencePlatform 255 260 1.1 call 0.3
       7) = true.
Proof.
  apply (proj1 (@calculateProbOfProfit_formula referencePlatform)).
  vm_compute. reflexivity.
Defined.

(** ** C5: which contracts are paired *)

(** The contracts are paired in the order the input lists them, which need
    not be the strike order: the code does not sort.  Here 260 is paired
    with 270 although 265 lies between. *)
Lemma pairing_not_in_strike_order :
  ~ (forall clock options currentPrice targetDTE r,
        In r (@Enhanced.findCreditSpreads referencePlatform clock options
                currentPrice targetDTE) ->
        type r = call ->
        adjacent_in_strike_order
          (callOptions currentPrice
             (targetOptions (atFilter clock) options targetDTE)) r).
Proof.
  intros Hall.
  specialize (Hall (always now0) unsorted_scenario 255 7
                (nth 0 (@Enhanced.findCreditSpreads referencePlatform
                          (always now0) unsorted_scenario 255 7)
                   no_recommendation)).
  apply (Hall ltac:(vm_compute; left; reflexivity) eq_refl
           (contract 265 1.0 1.1 0.3 false)).
  - vm_compute. right. right. left. reflexivity.
  - split; vm_compute; reflexivity.
Qed.

(** What the two loops do, whatever the readings of the clock.  Only
    contracts that were within [targetDTE - 2 .. targetDTE + 2] days from
    expiration when the window filter read the clock for them are paired;
    each side is the filtered input in input order, and a recommendation is
    built from two neighbours of that list, the one listed first as short
    leg; a call recommendation has [longStrike > shortStrike] and a put
    recommendation [longStrike < shortStrike]; a side of [n] contracts
    yields at most [n - 1] candidates. *)
Lemma pairing_of_neighbours `{Platform}
    (clock : Clock) (options : list OptionContract)
    (currentPrice targetDTE : JS.number) :
  let targets := targetOptions (atFilter clock) options targetDTE in
  let callSide := callOptions currentPrice targets in
  let putSide := putOptions currentPrice targets in
  Forall
    (fun c =>
       exists i,
         nth_error options i = Some c
         /\ inWindow (atFilter clock i) targetDTE c = true)
    (callSide ++ putSide)
  /\ Forall
       (fun r =>
          (exists before s l after,
              callSide = before ++ s :: l :: after
              /\ built_from call s l r
              /\ (shortStrike r <? longStrike r) = true)
          \/ (exists before s l after,
                 putSide = before ++ s :: l :: after
                 /\ built_from put s l r
                 /\ (longStrike r <? shortStrike r) = true))
       (Enhanced.findCreditSpreads clock options currentPrice targetDTE)
  /\ (length
        (forAdjacent (fun i => Enhanced.callSpread (atCallLoop clock i)
                                 currentPrice) 0 callSide)
      <= length callSide - 1)%nat
  /\ (length
        (forAdjacent (fun i => Enhanced.putSpread (atPutLoop clock i)
                                 currentPrice) 0 putSide)
      <= length putSide - 1)%nat.
Proof.
  intros targets callSide putSide. repeat split.
  - apply List.Forall_forall. intros c Hc.
    apply (side_window _ _ currentPrice). apply in_app_or in Hc. exact Hc.
  - apply List.Forall_forall. intros r Hr.
    apply Enhanced_find_pairing, pairing_app_inv in Hr.
    destruct Hr as [(b & s & l & a & E & Hr)|(b & s & l & a & E & Hr)].
    + left. exists b, s, l, a. apply Enhanced_callSpread_inv in Hr as [Hb _].
      split; [exact E|split; [exact Hb|]].
      destruct Hb as (_ & -> & -> & _ & _ & _ & _ & _ & Hlt). exact Hlt.
    + right. exists b, s, l, a. apply Enhanced_putSpread_inv in Hr as [Hb _].
      split; [exact E|split; [exact Hb|]].
      destruct Hb as (_ & -> & -> & _ & _ & _ & _ & _ & Hlt). exact Hlt.
  - apply forAdjacent_length. intros i s l. unfold Enhanced.callSpread.
    repeat match goal with |- context [if ?c then _ else _] => destruct c end;
      cbn; lia.
  - apply forAdjacent_length. intros i s l. unfold Enhanced.putSpread.
    repeat match goal with |- context [if ?c then _ else _] => destruct c end;
      cbn; lia.
Qed.

(** C5.  The pairing of the puts fails on the code for the chains the
    handler passes, which list each side by ascending strike: with the puts
    240 and 245 below the calls of the scenario, the underlying at 250,
    neither route recommends a put spread, although the bull put spread
    245/240 has a credit of 1.10 against a loss of 3.90; the loop takes the
    contract listed first as short leg and asks for a lower strike next to
    it.  With the two puts listed by descending strike both routes
    recommend that spread. *)
Theorem put_pairing_misses_ascending_puts :
  putSpreads
    (@Enhanced.findCreditSpreads referencePlatform (always now0)
       (scenario ++ scenario_puts) 250 7) = []
  /\ putSpreads
       (@Basic.findCreditSpreads referencePlatform (always now0)
          (scenario ++ scenario_puts) 250 7) = []
  /\ map (fun r => (shortStrike r, longStrike r, creditReceived r, maxLoss r))
       (putSpreads
          (@Enhanced.findCreditSpreads referencePlatform (always now0)
             (scenario ++ rev scenario_puts) 250 7))
     = [(245, 240, 1.1, 3.9)]
  /\ map (fun r => (shortStrike r, longStrike r, creditReceived r, maxLoss r))
       (putSpreads
          (@Basic.findCreditSpreads referencePlatform (always now0)
             (scenario ++ rev scenario_puts) 250 7))
     = [(245, 240, 1.1, 3.9)].
Proof. repeat split; vm_compute; reflexivity. Qed.

(** ** C6: the cache round trip *)

Section CacheFacts.
Context {V : Type}.
Implicit Types (cache : gmap string (SimpleCache.entry V)) (k : string).

Lemma get_fresh cache k item now :
  cache !! k = Some item -> SimpleCache.expired now item = false ->
  SimpleCache.get k now cache = (Some (SimpleCache.data item), cache).
Proof. intros E F. unfold SimpleCache.get. rewrite E, F. reflexivity. Qed.

Lemma get_stale cache k item now :
  cache !! k = Some item -> SimpleCache.expired now item = true ->
  SimpleCache.get k now cache = (None, delete k cache).
Proof. intros E F. unfold SimpleCache.get. rewrite E, F. reflexivity. Qed.

Lemma get_absent cache k now :
  cache !! k = None -> SimpleCache.get k now cache = (None, cache).
Proof. intros E. unfold SimpleCache.get. rewrite E. reflexivity. Qed.

(** [get] never hands out an entry whose ttl has elapsed. *)
Lemma get_Some_fresh cache k now v :
  (SimpleCache.get k now cache).1 = Some v ->
  exists item, cache !! k = Some item /\ SimpleCache.data item = v
               /\ SimpleCache.expired now item = false.
Proof.
  unfold SimpleCache.get. destruct (cache !! k) as [item|]; [|discriminate].
  destruct (SimpleCache.expired now item) eqn:F; [discriminate|].
  cbn. intros [= <-]. eauto.
Qed.

(** A call other than a [set] for [k] leaves the entry of [k] as it is or
    removes it. *)
Lemma call_keeps_or_drops cache k item now (c : CacheCall V) :
  no_set k c ->
  cache !! k = Some item \/ cache !! k = None ->
  call_cache now c cache !! k = Some item
  \/ call_cache now c cache !! k = None.
Proof.
  intros Hc Hk. destruct c as [key d ttl|key| | |]; cbn [call_cache no_set] in *.
  - unfold SimpleCache.set. rewrite lookup_insert_ne by assumption. exact Hk.
  - unfold SimpleCache.get. destruct (cache !! key) as [it|] eqn:E; [|exact Hk].
    destruct (SimpleCache.expired now it); [|exact Hk]. cbn [snd].
    destruct (decide (key = k)) as [->|Hne].
    + right. apply lookup_delete_eq.
    + rewrite lookup_delete_ne by assumption. exact Hk.
  - right. apply lookup_empty.
  - exact Hk.
  - unfold SimpleCache.cleanup.
    destruct Hk as [Hk|Hk].
    + destruct (SimpleCache.expired now item) eqn:F.
      * right. apply map_lookup_filter_None. right. intros it Hit Hp.
        cbn [snd] in Hp. congruence.
      * left. apply map_lookup_filter_Some. split; [exact Hk|exact F].
    + right. apply map_lookup_filter_None. left. exact Hk.
Qed.

(** A call that is no [set] for [k] and keeps the entry of [k] leaves it
    in place. *)
Lemma call_keeps cache k v t ttlSeconds now (c : CacheCall V) :
  let item := {| SimpleCache.data := v; SimpleCache.timestamp := t;
                 SimpleCache.ttl := ttlSeconds * 1000 |} in
  no_set k c -> keeps k t ttlSeconds (now, c) ->
  cache !! k = Some item ->
  call_cache now c cache !! k = Some item.
Proof.
  intros item Hc Hkeep Hk. unfold keeps in Hkeep. cbn [fst snd] in Hkeep.
  destruct c as [key d ttl|key| | |]; cbn [call_cache no_set] in *.
  - unfold SimpleCache.set. rewrite lookup_insert_ne by assumption. exact Hk.
  - unfold SimpleCache.get. destruct (cache !! key) as [it|] eqn:E; [|exact Hk].
    destruct (SimpleCache.expired now it) eqn:F'; [|exact Hk]. cbn [snd].
    destruct (decide (key = k)) as [->|Hne].
    + rewrite Hk in E. injection E as <-.
      specialize (Hkeep eq_refl). unfold SimpleCache.expired in F'.
      subst item. cbn [SimpleCache.timestamp SimpleCache.ttl] in F'.
      congruence.
    + rewrite lookup_delete_ne by assumption. exact Hk.
  - contradiction.
  - exact Hk.
  - apply map_lookup_filter_Some. split; [exact Hk|exact Hkeep].
Qed.

End CacheFacts.

(** C6.  After [set(k, v, ttl)] at time [t] and calls among which there is
    no [set] for [k]: [get(k)] at time [t'] returns [v] and leaves the
    cache as it is when [t' - t <= ttl] (no call in between having cleared
    the cache, nor read [k] or swept the cache after the ttl elapsed); it
    returns [null], the entry of [k] being gone afterwards, when
    [t' - t > ttl]; and [get] never returns a value whose ttl has elapsed,
    whatever [cleanup] did.  [ttl] is given in seconds and the clock counts
    milliseconds. *)
Theorem cache_round_trip {V : Type} (k : string) (v : V)
    (ttlSeconds t t' : JS.number)
    (calls : list (JS.number * CacheCall V))
    (cache0 : gmap string (SimpleCache.entry V)) :
  let cache := call_all calls (SimpleCache.set k v ttlSeconds t cache0) in
  Forall (fun tc => no_set k tc.2) calls ->
  (Forall (keeps k t ttlSeconds) calls ->
   (t' - t <=? ttlSeconds * 1000) = true ->
   SimpleCache.get k t' cache = (Some v, cache))
  /\ (JS.gtb (t' - t) (ttlSeconds * 1000) = true ->
      (SimpleCache.get k t' cache).1 = None
      /\ (SimpleCache.get k t' cache).2 !! k = None)
  /\ (forall now key w (any : gmap string (SimpleCache.entry V)),
        (SimpleCache.get key now any).1 = Some w ->
        exists item, any !! key = Some item /\ SimpleCache.data item = w
          /\ JS.gtb (now - SimpleCache.timestamp item) (SimpleCache.ttl item)
             = false).
Proof.
  intros cache Hns.
  set (item := {| SimpleCache.data := v; SimpleCache.timestamp := t;
                  SimpleCache.ttl := ttlSeconds * 1000 |}).
  assert (H0 : SimpleCache.set k v ttlSeconds t cache0 !! k = Some item)
    by apply lookup_insert_eq.
  split; [|split].
  - intros Hk Hle.
    assert (Hc : cache !! k = Some item).
    { subst cache. revert H0 Hns Hk.
      generalize (SimpleCache.set k v ttlSeconds t cache0).
      induction calls as [|[now c] calls IH]; intros m H0 Hns Hk; [exact H0|].
      inversion Hns; inversion Hk; subst. cbn [call_all fold_left] in *.
      apply IH; try assumption.
      apply call_keeps; assumption. }
    rewrite (get_fresh _ _ _ _ Hc); [reflexivity|].
    unfold SimpleCache.expired. cbn. apply leb_not_gtb, Hle.
  - intros Hgt.
    assert (Hc : cache !! k = Some item \/ cache !! k = None).
    { subst cache.
      assert (H0' : SimpleCache.set k v ttlSeconds t cache0 !! k = Some item
                    \/ SimpleCache.set k v ttlSeconds t cache0 !! k = None)
        by (left; exact H0).
      clear H0. revert H0' Hns.
      generalize (SimpleCache.set k v ttlSeconds t cache0).
      induction calls as [|[now c] calls IH]; intros m H0 Hns; [exact H0|].
      inversion Hns; subst. cbn [call_all fold_left] in *.
      apply IH; try assumption. apply call_keeps_or_drops; assumption. }
    destruct Hc as [Hc|Hc].
    + rewrite (get_stale _ _ _ _ Hc) by exact Hgt. cbn.
      split; [reflexivity|apply lookup_delete_eq].
    + rewrite (get_absent _ _ _ Hc). cbn. split; [reflexivity|exact Hc].
  - intros now key w any Hw. apply get_Some_fresh in Hw. exact Hw.
Qed.

(** C6 on a history: a read of the key, a [set] of another key and a sweep
    lie between the [set] and the [get]. *)
Lemma cache_round_trip_witness :
  (SimpleCache.get "a" 2000
     (call_all [(1500, CallGet "a"); (1600, CallSet "b" 1%nat 60);
                (1700, CallCleanup)]
        (SimpleCache.set "a" 7%nat 30 1000 ∅))).1 = Some 7%nat.
Proof.
  rewrite (proj1 (cache_round_trip "a" 7%nat 30 1000 2000
                    [(1500, CallGet "a"); (1600, CallSet "b" 1%nat 60);
                     (1700, CallCleanup)] ∅
                    ltac:(repeat constructor; discriminate))).
  - reflexivity.
  - repeat constructor; intros; vm_compute; reflexivity.
  - vm_compute. reflexivity.
Defined.

(** ** C7: timers and refreshes *)

(** C7, as stated, fails: with a subscriber on [price], subscribing to the
    idle topic [options] starts no timer and triggers no refresh. *)
Lemma subscribe_idle_topic_counterexample :
  ~ (forall history type callback,
        WebSocketManager.subscribers (after history) type = [] ->
        let effects := (serve (Subscribe type callback) (after history)).2 in
        timers_started type effects = 1%nat /\ refreshes type effects = 1%nat).
Proof.
  intros Hall.
  specialize (Hall [Subscribe WebSocketManager.price 1%nat]
                WebSocketManager.options 2%nat eq_refl).
  cbv zeta in Hall. destruct Hall as [Ht _].
  vm_compute in Ht. discriminate Ht.
Qed.

Section HubFacts.
Import WebSocketManager.

Lemma total_with_subscribers type set s :
  (getTotalSubscribers (with_subscribers type set s)
   + length (subscribers s type)
   = getTotalSubscribers s + length set)%nat.
Proof.
  unfold getTotalSubscribers, with_subscribers.
  destruct type; cbn; lia.
Qed.

Lemma subscribers_with_subscribers type set s :
  subscribers (with_subscribers type set s) type = set.
Proof.
  unfold with_subscribers. cbn [subscribers]. destruct type; reflexivity.
Qed.

Lemma Set_add_length x l :
  (1 <= length (Set_add x l))%nat
  /\ (length l <= length (Set_add x l))%nat.
Proof.
  unfold Set_add. destruct (existsb (Nat.eqb x) l) eqn:E.
  - split; [|lia]. destruct l; [discriminate E|cbn; lia].
  - rewrite length_app. cbn. lia.
Qed.

Lemma Set_delete_length x l : (length (Set_delete x l) <= length l)%nat.
Proof.
  unfold Set_delete. induction l as [|y l IH]; cbn [List.filter length];
    [lia|].
  destruct (negb (x =? y)%nat); cbn [length]; lia.
Qed.

Lemma topic_le_total s type :
  (length (subscribers s type) <= getTotalSubscribers s)%nat.
Proof. unfold getTotalSubscribers. destruct type; lia. Qed.

(** No method fetches but the handler of a timer. *)
Lemma subscribe_effects {Data : Type} type callback s :
  (subscribe (Data := Data) type callback s).2 = []
  \/ exists p o n,
      (subscribe (Data := Data) type callback s).2
      = [SetInterval p price 5000; SetInterval o options 30000;
         SetInterval n news 120000; ConsoleLog "WebSocket simulation started"].
Proof.
  unfold subscribe, connect.
  destruct (Nat.eqb _ 1); [|left; reflexivity].
  destruct (_ || _); [left; reflexivity|right].
  unfold simulateWebSocket. cbn [snd]. eauto.
Qed.

Lemma serve_invariant r s : hub_invariant s -> hub_invariant (serve r s).1.
Proof.
  intros [Hcon Hws]. destruct r as [type cb|type cb|id]; cbn [serve].
  - (* subscribe *)
    unfold subscribe.
    set (s1 := with_subscribers type (Set_add cb (subscribers s type)) s).
    pose proof (total_with_subscribers type
                  (Set_add cb (subscribers s type)) s) as Ht.
    fold s1 in Ht.
    pose proof (Set_add_length cb (subscribers s type)) as [Ha1 Ha2].
    pose proof (topic_le_total s type) as Hle.
    assert (Hws1 : ws s1 = ws s) by reflexivity.
    assert (Hi1 : intervals s1 = intervals s) by reflexivity.
    assert (Hc1 : isConnecting s1 = isConnecting s) by reflexivity.
    destruct (Nat.eqb_spec (getTotalSubscribers s1) 1) as [E|E].
    + unfold connect, isOpen. rewrite Hc1, Hcon, Hws1. cbn [orb].
      destruct (ws s) as [sock|] eqn:W.
      * cbn [fst]. split; [rewrite Hc1; exact Hcon|].
        rewrite Hws1, Hi1. split; [lia|tauto].
      * unfold simulateWebSocket. cbn [fst]. split; [reflexivity|].
        cbn [ws]. split.
        -- change (1 <= getTotalSubscribers s1)%nat. lia.
        -- cbn [intervals nextId priceInterval optionsInterval newsInterval].
           destruct Hws as [_ Hi]. rewrite Hi1, Hi. reflexivity.
    + cbn [fst]. split; [rewrite Hc1; exact Hcon|].
      rewrite Hws1, Hi1. destruct (ws s) as [sock|] eqn:W.
      * split; [lia|tauto].
      * destruct Hws as [Hz _]. exfalso.
        assert (Hl : length (subscribers s type) = 0%nat) by lia.
        destruct (subscribers s type) eqn:Es; [|discriminate Hl].
        change (Set_add cb []) with [cb] in Ht. cbn [length] in Ht. lia.
  - (* unsubscribe *)
    unfold unsubscribe.
    set (s1 := with_subscribers type (Set_delete cb (subscribers s type)) s).
    pose proof (total_with_subscribers type
                  (Set_delete cb (subscribers s type)) s) as Ht.
    fold s1 in Ht.
    pose proof (Set_delete_length cb (subscribers s type)) as Hd.
    assert (Hws1 : ws s1 = ws s) by reflexivity.
    assert (Hi1 : intervals s1 = intervals s) by reflexivity.
    assert (Hc1 : isConnecting s1 = isConnecting s) by reflexivity.
    destruct (Nat.eqb_spec (getTotalSubscribers s1) 0) as [E|E].
    + unfold disconnect. rewrite Hws1.
      destruct (ws s) as [sock|] eqn:W; cbn [fst]; (split; [reflexivity|]);
        cbn [ws intervals getTotalSubscribers subscribers];
        fold (getTotalSubscribers s1).
      * split; [exact E|]. destruct Hws as [_ Hi]. rewrite Hi1, Hi.
        unfold cleared. cbn [List.filter fst].
        rewrite !Nat.eqb_refl, !orb_true_r. reflexivity.
      * split; [exact E|]. rewrite Hi1. tauto.
    + cbn [fst]. split; [rewrite Hc1; exact Hcon|].
      rewrite Hws1, Hi1. destruct (ws s) as [sock|] eqn:W.
      * split; [lia|tauto].
      * destruct Hws as [Hz _]. lia.
  - (* tick *)
    unfold tick. destruct (List.find _ _) as [[i t]|];
      [destruct (_ <? _)%nat|]; cbn [fst]; split; assumption.
Qed.

Lemma after_invariant history : hub_invariant (after history).
Proof.
  unfold after.
  assert (H0 : hub_invariant constructor) by (repeat split).
  revert H0. generalize constructor.
  induction history as [|r history IH]; intros s Hs; [exact Hs|].
  cbn [fold_left]. apply IH, serve_invariant, Hs.
Qed.

End HubFacts.

(** C7, amended.  The manager keeps one connection for all topics: after
    every history of requests the live timers are the three timers of the
    connection, one per topic, and there is a connection exactly while some
    topic has a subscriber.  A [subscribe] that finds no subscriber on any
    topic starts one interval timer per topic, the subscribed one among
    them; a [subscribe] to an idle topic while another topic has a
    subscriber starts no timer; and no [subscribe] triggers a refresh: the
    first refresh comes with the first tick.  A tick refreshes a topic only
    if the topic has a subscriber at that time, and the [unsubscribe] of a
    topic's only callback leaves the topic without subscriber, so that no
    refresh follows it; the [unsubscribe] that leaves no subscriber on any
    topic clears the three timers. *)
Theorem subscribe_timers_and_refreshes
    (history : list Request) (type : WebSocketManager.DataType)
    (callback : WebSocketManager.SubscriptionCallback) (id : nat) :
  let s := after history in
  hub_invariant s
  /\ (WebSocketManager.getTotalSubscribers s = 0%nat ->
      (serve (Subscribe type callback) s).2
      = [WebSocketManager.SetInterval (WebSocketManager.nextId s)
           WebSocketManager.price 5000;
         WebSocketManager.SetInterval (S (WebSocketManager.nextId s))
           WebSocketManager.options 30000;
         WebSocketManager.SetInterval (S (S (WebSocketManager.nextId s)))
           WebSocketManager.news 120000;
         WebSocketManager.ConsoleLog "WebSocket simulation started"])
  /\ (WebSocketManager.subscribers s type = [] ->
      (1 <= WebSocketManager.getTotalSubscribers s)%nat ->
      (serve (Subscribe type callback) s).2 = [])
  /\ (forall topic,
        refreshes topic (serve (Subscribe type callback) s).2 = 0%nat)
  /\ (forall e,
        In e (serve (Tick id) s).2 ->
        exists topic,
          e = WebSocketManager.Fetch topic (WebSocketManager.url topic)
          /\ WebSocketManager.subscribers s topic <> [])
  /\ (WebSocketManager.subscribers s type = [callback] ->
      WebSocketManager.subscribers (serve (Unsubscribe type callback) s).1 type
      = [])
  /\ (WebSocketManager.getTotalSubscribers
        (serve (Unsubscribe type callback) s).1 = 0%nat ->
      WebSocketManager.intervals (serve (Unsubscribe type callback) s).1 = []
      /\ forall sock,
           WebSocketManager.ws s = Some sock ->
           (serve (Unsubscribe type callback) s).2
           = [WebSocketManager.ClearInterval
                (WebSocketManager.priceInterval sock);
              WebSocketManager.ClearInterval
                (WebSocketManager.optionsInterval sock);
              WebSocketManager.ClearInterval
                (WebSocketManager.newsInterval sock)]).
Proof.
  intros s. pose proof (after_invariant history) as Hinv. fold s in Hinv.
  split; [exact Hinv|].
  destruct Hinv as [Hcon Hws].
  split; [|split; [|split; [|split; [|split]]]]; cbn [serve].
  - intros Htot. unfold WebSocketManager.subscribe.
    assert (Hempty : WebSocketManager.subscribers s type = []).
    { pose proof (topic_le_total s type) as Hle.
      destruct (WebSocketManager.subscribers s type); [reflexivity|].
      cbn [length] in Hle. lia. }
    assert (Hnone : WebSocketManager.ws s = None).
    { destruct (WebSocketManager.ws s); [lia|reflexivity]. }
    rewrite Hempty. cbn [WebSocketManager.Set_add existsb app].
    pose proof (total_with_subscribers type [callback] s) as Ht.
    rewrite Hempty, Htot in Ht. cbn [length] in Ht.
    replace (WebSocketManager.getTotalSubscribers
               (WebSocketManager.with_subscribers type [callback] s))
      with 1%nat by lia.
    cbn [Nat.eqb]. unfold WebSocketManager.connect, WebSocketManager.isOpen.
    cbn [WebSocketManager.with_subscribers WebSocketManager.isConnecting
           WebSocketManager.ws].
    rewrite Hcon, Hnone. reflexivity.
  - intros Hempty Htot. unfold WebSocketManager.subscribe.
    rewrite Hempty. cbn [WebSocketManager.Set_add existsb app].
    pose proof (total_with_subscribers type [callback] s) as Ht.
    rewrite Hempty in Ht. cbn [length] in Ht.
    destruct (Nat.eqb_spec
                (WebSocketManager.getTotalSubscribers
                   (WebSocketManager.with_subscribers type [callback] s)) 1);
      [lia|reflexivity].
  - intros topic.
    destruct (subscribe_effects (Data := unit) type callback s)
      as [->|(p & o & n & ->)]; reflexivity.
  - intros e. unfold WebSocketManager.tick.
    destruct (List.find _ (WebSocketManager.intervals s)) as [[i topic]|];
      [|intros []].
    destruct (WebSocketManager.subscribers s topic) as [|c cs] eqn:E;
      cbn [length Nat.ltb Nat.leb snd In]; [intros []|].
    intros [<-|[]]. exists topic. split; [reflexivity|]. rewrite E. discriminate.
  - intros Hone. unfold WebSocketManager.unsubscribe.
    rewrite Hone. cbn [WebSocketManager.Set_delete List.filter].
    rewrite Nat.eqb_refl. cbn [negb].
    destruct (Nat.eqb _ 0); [unfold WebSocketManager.disconnect|];
      try destruct (WebSocketManager.ws _);
      cbn [fst WebSocketManager.subscribers WebSocketManager.with_subscribers];
      destruct type; reflexivity.
  - intros Htot.
    pose proof (serve_invariant (Unsubscribe type callback) s
                  (conj Hcon Hws)) as [_ Hws'].
    cbn [serve] in Hws'.
    destruct (WebSocketManager.ws
                (WebSocketManager.unsubscribe type callback s).1) eqn:W;
      [lia|].
    split; [tauto|].
    intros sock Hsock. revert Htot W. unfold WebSocketManager.unsubscribe.
    destruct (Nat.eqb_spec
                (WebSocketManager.getTotalSubscribers
                   (WebSocketManager.with_subscribers type
                      (WebSocketManager.Set_delete callback
                         (WebSocketManager.subscribers s type)) s)) 0)
      as [E|E].
    + intros _ _. unfold WebSocketManager.disconnect.
      cbn [WebSocketManager.with_subscribers WebSocketManager.ws].
      rewrite Hsock. reflexivity.
    + cbn [fst]. intros Htot _. contradiction.
Qed.

(** C7 on the manager after a first subscription on [price]: subscribing
    to the idle topic [options] has no effect. *)
Lemma subscribe_timers_and_refreshes_witness :
  (WebSocketManager.subscribe (Data := unit) WebSocketManager.options 2%nat
     (after [Subscribe WebSocketManager.price 1%nat])).2 = [].
Proof.
  apply (proj1 (proj2 (proj2 (subscribe_timers_and_refreshes
                                [Subscribe WebSocketManager.price 1%nat]
                                WebSocketManager.options 2%nat 0%nat)))).
  - reflexivity.
  - vm_compute. lia.
Defined.

(** ** C8: the fallback of the handler *)

Lemma Unavailable_allOptions chain :
  Unavailable chain <-> allOptions chain = None.
Proof.
  split.
  - intros Hu. destruct Hu; cbn [allOptions];
      repeat match goal with H : _ = _ |- _ => rewrite H end; reflexivity.
  - destruct chain as [|d]; [constructor|]. cbn [allOptions].
    destruct (optionChain d) as [oc|] eqn:E1; [|intros _; eauto using Unavailable].
    destruct (result oc) as [[|r rs]|] eqn:E2;
      [intros _; eauto using Unavailable| |intros _; eauto using Unavailable].
    destruct (options r) as [[|o os]|] eqn:E3;
      [intros _; eauto using Unavailable|discriminate
      |intros _; eauto using Unavailable].
Qed.

(** What either handler does when the cache holds nothing fresh. *)
Lemma Enhanced_GET_miss `{Platform} clock env q chain
    (cache : gmap string (SimpleCache.entry ResponseData)) :
  (SimpleCache.get cacheKey (atLookup clock) cache).1 = None ->
  Enhanced.GET clock env q chain cache
  = let cache := (SimpleCache.get cacheKey (atLookup clock) cache).2 in
    match allOptions chain with
    | Some options =>
        let responseData :=
          {| currentPrice := Enhanced.getCurrentPrice env q;
             lastUpdate := Date_toISOString (atLastUpdate clock);
             recommendations :=
               Enhanced.findCreditSpreads clock options
                 (Enhanced.getCurrentPrice env q) 7 |} in
        ({| success := true; data := responseData; cached := None |},
         SimpleCache.set cacheKey responseData 30 (atStore clock) cache)
    | None => (mockResponse clock, cache)
    end.
Proof.
  intros Hmiss. unfold Enhanced.GET.
  destruct (SimpleCache.get cacheKey (atLookup clock) cache) as [[c|] cache'];
    [discriminate|reflexivity].
Qed.

Lemma Basic_GET_miss `{Platform} clock priceData chain
    (cache : gmap string (SimpleCache.entry ResponseData)) :
  (SimpleCache.get cacheKey (atLookup clock) cache).1 = None ->
  Basic.GET clock priceData chain cache
  = let cache := (SimpleCache.get cacheKey (atLookup clock) cache).2 in
    match Basic.currentPriceOf priceData, allOptions chain with
    | Some currentPrice, Some options =>
        let responseData :=
          {| currentPrice := currentPrice;
             lastUpdate := Date_toISOString (atLastUpdate clock);
             recommendations :=
               Basic.findCreditSpreads clock options currentPrice 7 |} in
        ({| success := true; data := responseData; cached := None |},
         SimpleCache.set cacheKey responseData 30 (atStore clock) cache)
    | _, _ => (mockResponse clock, cache)
    end.
Proof.
  intros Hmiss. unfold Basic.GET.
  destruct (SimpleCache.get cacheKey (atLookup clock) cache) as [[c|] cache'];
    [discriminate|].
  destruct (Basic.currentPriceOf priceData); [|reflexivity].
  destruct (allOptions chain); reflexivity.
Qed.

(** C8, as stated, fails.  A chain that is well formed and lists no
    contract, with [calls] and [puts] empty or missing, is structurally
    empty data and yet no failed lookup: both handlers answer with an empty
    list of recommendations, not with the static ones, and cache that
    answer. *)
Lemma GET_empty_chain :
  recommendations
    (data (@Enhanced.GET referencePlatform (always now0) no_keys no_quotes
             (chain_of [] []) ∅).1) = []
  /\ recommendations
       (data (@Basic.GET referencePlatform (always now0) (Json None)
                (chain_of [] []) ∅).1) = []
  /\ recommendations
       (data (@Enhanced.GET referencePlatform (always now0) no_keys no_quotes
                bare_chain ∅).1) = []
  /\ recommendations
       (data (@Basic.GET referencePlatform (always now0) (Json None)
                bare_chain ∅).1) = []
  /\ is_Some
       ((@Enhanced.GET referencePlatform (always now0) no_keys no_quotes
           (chain_of [] []) ∅).2 !! cacheKey)
  /\ is_Some
       ((@Basic.GET referencePlatform (always now0) (Json None)
           (chain_of [] []) ∅).2 !! cacheKey).
Proof.
  repeat split; try reflexivity.
  - rewrite Enhanced_GET_miss by reflexivity.
    cbn [allOptions chain_of optionChain result options calls puts default
           app snd].
    unfold SimpleCache.set. rewrite lookup_insert_eq. eauto.
  - rewrite Basic_GET_miss by reflexivity.
    cbn [allOptions chain_of optionChain result options calls puts default
           app snd Basic.currentPriceOf].
    unfold SimpleCache.set. rewrite lookup_insert_eq. eauto.
Qed.

(** C8, amended.  When the cache holds nothing fresh, either route's
    handler answers with the static recommendations, two of them, when the
    option-chain lookup throws or gives data the handler cannot use
    ([optionChain] or [result] missing, [result] empty, [result[0].options]
    missing or empty), and so does the single-provider route when its price
    lookup throws; otherwise the handler answers with the list
    [findCreditSpreads] returns for the contracts listed, which may be
    empty, and caches the answer.  In every execution the handler returns a
    response with [success: true], never a failure. *)
Theorem GET_falls_back `{Platform} (clock : Clock) (env : ProcessEnv)
    (q : Enhanced.Quotes) (priceData : Lookup (option string))
    (chain : Lookup OptionsData)
    (cache : gmap string (SimpleCache.entry ResponseData)) :
  ((SimpleCache.get cacheKey (atLookup clock) cache).1 = None ->
   (Unavailable chain ->
    (Enhanced.GET clock env q chain cache).1 = mockResponse clock
    /\ (Basic.GET clock priceData chain cache).1 = mockResponse clock)
   /\ (priceData = Throws ->
       (Basic.GET clock priceData chain cache).1 = mockResponse clock)
   /\ (~ Unavailable chain ->
       exists options,
         allOptions chain = Some options
         /\ (let response := Enhanced.GET clock env q chain cache in
             recommendations (data response.1)
             = Enhanced.findCreditSpreads clock options
                 (Enhanced.getCurrentPrice env q) 7
             /\ response.2 !! cacheKey
                = Some {| SimpleCache.data := data response.1;
                          SimpleCache.timestamp := atStore clock;
                          SimpleCache.ttl := 30 * 1000 |})
         /\ (forall currentPrice,
               Basic.currentPriceOf priceData = Some currentPrice ->
               let response := Basic.GET clock priceData chain cache in
               recommendations (data response.1)
               = Basic.findCreditSpreads clock options currentPrice 7
               /\ response.2 !! cacheKey
                  = Some {| SimpleCache.data := data response.1;
                            SimpleCache.timestamp := atStore clock;
                            SimpleCache.ttl := 30 * 1000 |})))
  /\ success (mockResponse clock) = true
  /\ length (recommendations (data (mockResponse clock))) = 2%nat
  /\ success (Enhanced.GET clock env q chain cache).1 = true
  /\ success (Basic.GET clock priceData chain cache).1 = true.
Proof.
  split; [|split; [reflexivity|split; [reflexivity|split]]].
  - intros Hmiss. unfold Enhanced.GET, Basic.GET.
    destruct (SimpleCache.get cacheKey (atLookup clock) cache)
      as [[c|] cache']; [discriminate|].
    split; [|split].
    + intros Hu%Unavailable_allOptions. rewrite Hu.
      destruct (Basic.currentPriceOf priceData); split; reflexivity.
    + intros ->. reflexivity.
    + intros Hu. destruct (allOptions chain) as [options|] eqn:E;
        [|exfalso; apply Hu, Unavailable_allOptions, E].
      exists options. split; [reflexivity|]. split.
      * cbn [fst snd data recommendations]. split; [reflexivity|].
        apply lookup_insert_eq.
      * intros currentPrice ->. cbn [fst snd data recommendations].
        split; [reflexivity|]. apply lookup_insert_eq.
  - unfold Enhanced.GET.
    destruct (SimpleCache.get cacheKey (atLookup clock) cache)
      as [[c|] cache']; [reflexivity|].
    destruct (allOptions chain); reflexivity.
  - unfold Basic.GET.
    destruct (SimpleCache.get cacheKey (atLookup clock) cache)
      as [[c|] cache']; [reflexivity|].
    destruct (Basic.currentPriceOf priceData); [|reflexivity].
    destruct (allOptions chain); reflexivity.
Qed.

(** C8 on an option chain whose [result] is empty. *)
Lemma GET_falls_back_witness :
  (@Enhanced.GET referencePlatform (always now0) no_keys no_quotes
     (Json {| optionChain := Some {| result := Some [] |} |}) ∅).1
  = @mockResponse referencePlatform (always now0).
Proof.
  pose proof (proj1 (@GET_falls_back referencePlatform (always now0)
                       no_keys no_quotes Throws
                       (Json {| optionChain := Some {| result := Some [] |} |})
                       ∅)) as Hf.
  destruct Hf as [Hf _]; [reflexivity|].
  apply Hf. eapply result_empty; reflexivity.
Defined.

(** ** C9: the price lookup *)

(** C9, as stated, fails: a negative price from the first provider is
    returned, not skipped. *)
Lemma getCurrentPrice_negative :
  ~ (forall env q,
        @Enhanced.getCurrentPrice referencePlatform env q
        = @first_positive_or_250 referencePlatform q).
Proof.
  intros Hall.
  specialize (Hall {| ALPHA_VANTAGE_API_KEY := None; FMP_API_KEY := None |}
                {| Enhanced.yahoo := Json (Some (-5));
                   Enhanced.alphaVantage := Throws;
                   Enhanced.fmp := Throws |}).
  apply (f_equal (fun p => 0 <? p)) in Hall.
  vm_compute in Hall. discriminate Hall.
Qed.

Section PriceFacts.
Context `{Platform}.

Lemma tryNumber_unusable l :
  unusable_number l -> Enhanced.tryNumber l = None.
Proof.
  intros Hl. destruct l as [|[p|]]; try reflexivity.
  cbn. rewrite (Hl p eq_refl). reflexivity.
Qed.

Lemma tryString_unusable l :
  unusable_string l -> Enhanced.tryString l = None.
Proof.
  intros Hl. destruct l as [|[s|]]; try reflexivity.
  cbn. rewrite (Hl s eq_refl). reflexivity.
Qed.

End PriceFacts.

(** C9, amended.  [getCurrentPrice] asks Yahoo first, Alpha Vantage next
    and Financial Modeling Prep last, the latter two only when their API
    key is configured, and returns the first price that is truthy: a
    number other than [0] and [NaN], whatever its sign, from Yahoo and
    Financial Modeling Prep, a non-empty string read by [parseFloat] from
    Alpha Vantage.  When every provider asked throws or gives no such price
    it returns 250.  It always returns a number: no failure reaches the
    caller. *)
Theorem getCurrentPrice_first_truthy `{Platform}
    (env : ProcessEnv) (q : Enhanced.Quotes) :
  let alphaAsked := negb (String.eqb (or_demo (ALPHA_VANTAGE_API_KEY env)) "demo") in
  let fmpAsked := negb (String.eqb (or_demo (FMP_API_KEY env)) "demo") in
  (forall p, Enhanced.yahoo q = Json (Some p) -> JS.truthy p = true ->
     Enhanced.getCurrentPrice env q = p)
  /\ (forall s, unusable_number (Enhanced.yahoo q) -> alphaAsked = true ->
        Enhanced.alphaVantage q = Json (Some s) -> s <> ""%string ->
        Enhanced.getCurrentPrice env q = parseFloat s)
  /\ (forall p, unusable_number (Enhanced.yahoo q) ->
        (alphaAsked = false \/ unusable_string (Enhanced.alphaVantage q)) ->
        fmpAsked = true ->
        Enhanced.fmp q = Json (Some p) -> JS.truthy p = true ->
        Enhanced.getCurrentPrice env q = p)
  /\ (unusable_number (Enhanced.yahoo q) ->
      (alphaAsked = false \/ unusable_string (Enhanced.alphaVantage q)) ->
      (fmpAsked = false \/ unusable_number (Enhanced.fmp q)) ->
      Enhanced.getCurrentPrice env q = 250).
Proof.
  intros alphaAsked fmpAsked. subst alphaAsked fmpAsked.
  unfold Enhanced.getCurrentPrice. repeat split.
  - intros p -> Hp. cbn. rewrite Hp. reflexivity.
  - intros s Hy Ha -> Hs. rewrite (tryNumber_unusable _ Hy).
    apply negb_true_iff in Ha. rewrite Ha. cbn.
    destruct (String.eqb_spec s ""); [contradiction|reflexivity].
  - intros p Hy Ha Hf -> Hp. rewrite (tryNumber_unusable _ Hy).
    apply negb_true_iff in Hf. rewrite Hf. cbn [Enhanced.tryNumber].
    rewrite Hp.
    destruct Ha as [Ha|Ha].
    + apply negb_false_iff in Ha. rewrite Ha. reflexivity.
    + rewrite (tryString_unusable _ Ha).
      destruct (String.eqb (or_demo (ALPHA_VANTAGE_API_KEY env)) "demo");
        reflexivity.
  - intros Hy Ha Hf. rewrite (tryNumber_unusable _ Hy).
    assert (Ha' : (if String.eqb (or_demo (ALPHA_VANTAGE_API_KEY env)) "demo"
                   then None else Enhanced.tryString (Enhanced.alphaVantage q))
                  = None).
    { destruct Ha as [Ha|Ha].
      - apply negb_false_iff in Ha. rewrite Ha. reflexivity.
      - rewrite (tryString_unusable _ Ha).
        destruct (String.eqb (or_demo (ALPHA_VANTAGE_API_KEY env)) "demo");
          reflexivity. }
    rewrite Ha'.
    destruct Hf as [Hf|Hf].
    + apply negb_false_iff in Hf. rewrite Hf. reflexivity.
    + rewrite (tryNumber_unusable _ Hf).
      destruct (String.eqb (or_demo (FMP_API_KEY env)) "demo"); reflexivity.
Qed.

(** C9 with Yahoo failing and Alpha Vantage configured: the price is the
    string Alpha Vantage gives, read by [parseFloat]. *)
Lemma getCurrentPrice_first_truthy_witness :
  @Enhanced.getCurrentPrice referencePlatform
    {| ALPHA_VANTAGE_API_KEY := Some "k"%string; FMP_API_KEY := None |}
    {| Enhanced.yahoo := Throws;
       Enhanced.alphaVantage := Json (Some "251.5"%string);
       Enhanced.fmp := Throws |}
  = 251.5.
Proof.
  rewrite (proj1 (proj2 (@getCurrentPrice_first_truthy referencePlatform
                           {| ALPHA_VANTAGE_API_KEY := Some "k"%string;
                              FMP_API_KEY := None |}
                           {| Enhanced.yahoo := Throws;
                              Enhanced.alphaVantage := Json (Some "251.5"%string);
                              Enhanced.fmp := Throws |}))
             "251.5"%string).
  - vm_compute. reflexivity.
  - intros p Hp. discriminate Hp.
  - reflexivity.
  - reflexivity.
  - discriminate.
Defined.

(** ** C10: delivery to every subscriber *)

Section BroadcastFacts.
Context {Data World : Type}.
Variable run :
  WebSocketManager.SubscriptionCallback -> Data -> World -> World * bool.

Lemma forEach_invocations type callbacks data w :
  invocations (WebSocketManager.forEach run type callbacks data w).2
  = map (fun callback => (callback, data)) callbacks
  /\ logged_errors (WebSocketManager.forEach run type callbacks data w).2
     = throwers run callbacks data w.
Proof.
  revert w. induction callbacks as [|callback rest IH]; intros w;
    cbn [WebSocketManager.forEach throwers map]; [split; reflexivity|].
  destruct (run callback data w) as [w' threw].
  specialize (IH w').
  destruct (WebSocketManager.forEach run type rest data w') as [w'' effects].
  cbn [snd] in *. destruct IH as [IH1 IH2].
  unfold invocations, logged_errors in *. cbn [flat_map app].
  rewrite !flat_map_app, IH1, IH2.
  destruct threw; split; reflexivity.
Qed.

End BroadcastFacts.

(** C10.  A broadcast calls every callback of the topic's subscriber set,
    once each and in order, with the value broadcast, whichever of them
    throw; a callback that throws is logged, and the subscriber sets are
    what they were. *)
Theorem broadcast_reaches_every_subscriber {Data World : Type}
    (run : WebSocketManager.SubscriptionCallback -> Data -> World ->
           World * bool)
    (type : WebSocketManager.DataType) (data : Data)
    (s : WebSocketManager.State) (w : World) :
  let '(s', _, effects) := WebSocketManager.broadcast run type data s w in
  invocations effects
  = map (fun callback => (callback, data)) (WebSocketManager.subscribers s type)
  /\ logged_errors effects
     = throwers run (WebSocketManager.subscribers s type) data w
  /\ s' = s.
Proof.
  unfold WebSocketManager.broadcast.
  pose proof (forEach_invocations run type
                (WebSocketManager.subscribers s type) data w) as [H1 H2].
  destruct (WebSocketManager.forEach run type _ data w) as [w' effects].
  cbn [snd] in *. auto.
Qed.

(** ** The end-to-end scenario of the specification

    The calls 260 and 265 at 255 give the bear call spread with credit
    1.10, maximal loss 3.90 and breakeven 261.10; its ratio, about 0.282,
    passes the ranker. *)
Lemma scenario_recommendation :
  map
    (fun r =>
       (type r, shortStrike r, longStrike r, creditReceived r, maxLoss r,
        breakeven r, JS.gtb (riskRewardRatio r) 0.282,
        riskRewardRatio r <? 0.2821))
    (@Enhanced.findCreditSpreads referencePlatform (always now0) scenario 255
       7)
  = [(call, 260, 265, 1.1, 3.9, 261.1, true, true)].
Proof. vm_compute. reflexivity. Qed.

(** * Further properties of the sources *)

(** ** The cache: sweeping, overwriting and reading *)

Section MoreCacheFacts.
Context {V : Type}.
Implicit Types (cache : gmap string (SimpleCache.entry V)) (k : string).

Lemma cleanup_lookup cache now k item :
  SimpleCache.cleanup now cache !! k = Some item
  <-> cache !! k = Some item /\ SimpleCache.expired now item = false.
Proof. unfold SimpleCache.cleanup. apply map_lookup_filter_Some. Qed.

Lemma cleanup_get cache now k :
  SimpleCache.get k now (SimpleCache.cleanup now cache)
  = ((SimpleCache.get k now cache).1, SimpleCache.cleanup now cache).
Proof.
  unfold SimpleCache.get.
  destruct (SimpleCache.cleanup now cache !! k) as [item|] eqn:E.
  - apply cleanup_lookup in E as [E F]. rewrite E, F. reflexivity.
  - destruct (cache !! k) as [item|] eqn:E'; [|reflexivity].
    destruct (SimpleCache.expired now item) eqn:F; [reflexivity|].
    assert (SimpleCache.cleanup now cache !! k = Some item)
      by (apply cleanup_lookup; split; assumption).
    congruence.
Qed.

End MoreCacheFacts.

(** X1.  A sweep is invisible to readers: [cleanup] at a time removes the
    entries whose ttl has elapsed at that time and no other, so that a
    [get] at that time returns after the sweep what it would have returned
    without it, and finds nothing left to evict; the cache does not
    grow. *)
Theorem cleanup_keeps_reads {V : Type} (now : JS.number)
    (cache : gmap string (SimpleCache.entry V)) :
  (forall k item,
      SimpleCache.cleanup now cache !! k = Some item
      <-> cache !! k = Some item
          /\ JS.gtb (now - SimpleCache.timestamp item) (SimpleCache.ttl item)
             = false)
  /\ (forall k,
        SimpleCache.get k now (SimpleCache.cleanup now cache)
        = ((SimpleCache.get k now cache).1, SimpleCache.cleanup now cache))
  /\ (SimpleCache.size (SimpleCache.cleanup now cache)
      <= SimpleCache.size cache)%nat.
Proof.
  split; [|split].
  - intros k item. apply cleanup_lookup.
  - intros k. apply cleanup_get.
  - unfold SimpleCache.size, SimpleCache.cleanup.
    apply map_subseteq_size, map_filter_subseteq.
Qed.

(** X2.  A [set] for a key that has an entry replaces the entry, value,
    time stamp and ttl: the cache is the one a single [set] gives, the key
    counts once in [size], and a later [get] is governed by the second
    [set] alone. *)
Theorem set_replaces {V : Type} (k : string) (v1 v2 : V)
    (ttl1 ttl2 t1 t2 t' : JS.number)
    (cache : gmap string (SimpleCache.entry V)) :
  let once := SimpleCache.set k v2 ttl2 t2 cache in
  let twice :=
    SimpleCache.set k v2 ttl2 t2 (SimpleCache.set k v1 ttl1 t1 cache) in
  twice = once
  /\ SimpleCache.size twice
     = SimpleCache.size (SimpleCache.set k v1 ttl1 t1 cache)
  /\ SimpleCache.size once
     = match cache !! k with
       | Some _ => SimpleCache.size cache
       | None => S (SimpleCache.size cache)
       end
  /\ (SimpleCache.get k t' twice).1
     = if JS.gtb (t' - t2) (ttl2 * 1000) then None else Some v2.
Proof.
  intros once twice. subst once twice. unfold SimpleCache.set.
  rewrite insert_insert_eq.
  set (item := {| SimpleCache.data := v2; SimpleCache.timestamp := t2;
                  SimpleCache.ttl := ttl2 * 1000 |}).
  split; [reflexivity|]. split; [|split].
  - unfold SimpleCache.size.
    rewrite !map_size_insert. reflexivity.
  - unfold SimpleCache.size. rewrite map_size_insert.
    destruct (cache !! k); reflexivity.
  - unfold SimpleCache.get. rewrite lookup_insert_eq.
    unfold SimpleCache.expired. cbn [SimpleCache.timestamp SimpleCache.ttl item].
    destruct (JS.gtb (t' - t2) (ttl2 * 1000)); reflexivity.
Qed.

(** X3.  A [get] touches the entry of its key and no other: after a miss
    the key has no entry, after a hit the cache is what it was, the entries
    of the other keys are never changed, and the cache does not grow. *)
Theorem get_touches_one_key {V : Type} (k : string) (now : JS.number)
    (cache : gmap string (SimpleCache.entry V)) :
  let result := SimpleCache.get k now cache in
  (forall k', k' <> k -> result.2 !! k' = cache !! k')
  /\ (result.1 = None -> result.2 !! k = None)
  /\ (forall v, result.1 = Some v -> result.2 = cache)
  /\ (SimpleCache.size result.2 <= SimpleCache.size cache)%nat.
Proof.
  intros result. subst result. unfold SimpleCache.get, SimpleCache.size.
  destruct (cache !! k) as [item|] eqn:E; cbn [fst snd].
  - destruct (SimpleCache.expired now item); cbn [fst snd].
    + split; [|split; [|split]].
      * intros k' Hk. apply lookup_delete_ne. congruence.
      * intros _. apply lookup_delete_eq.
      * intros v [=].
      * apply map_subseteq_size, delete_subseteq.
    + repeat split; try reflexivity; try discriminate.
  - repeat split; try reflexivity; try discriminate. intros _. exact E.
Qed.
(** ** The option routes: what is cached, and what a recommendation carries *)







(** ** The option routes: the legs of a recommendation *)

Lemma binary_round_aux_sign (s : bool) (m e : Z) (l : location) :
  match binary_round_aux prec emax s m e l with
  | S754_zero s' | S754_infinity s' | S754_finite s' _ _ => s' = s
  | S754_nan => True
  end.
Proof.
  unfold binary_round_aux.
  destruct (shr_fexp prec emax m e l) as [r1 e1].
  destruct (shr_fexp prec emax _ e1 loc_Exact) as [r2 e2].
  destruct (shr_m r2); try reflexivity; try exact I.
  destruct (e2 <=? emax - prec)%Z; reflexivity.
Qed.

(** A difference that is not negative has its terms in order. *)
Lemma sub_nonneg (x y : float) : (0 <=? y - x) = true -> (x <=? y) = true.
Proof.
  rewrite !FloatAxioms.leb_spec, sub_spec, Prim2SF_zero.
  pose proof (SFsub_cases _ _ (Prim2SF_valid x) (Prim2SF_valid y)) as Hc.
  unfold SFleb at 2.
  destruct (SFcompare (Prim2SF x) (Prim2SF y)) as [[]|]; try reflexivity.
  - destruct Hc as [(m & e & ->)| ->]; intros [=].
  - rewrite Hc. intros [=].
Qed.

(** A positive number over a negative one is no positive number. *)
Lemma div_pos_denominator (c m : float) :
  (0 <? c) = true -> (0 <? c / m) = true -> (0 <=? m) = true.
Proof.
  rewrite !FloatAxioms.ltb_spec, FloatAxioms.leb_spec, div_spec, Prim2SF_zero.
  unfold SF64div, SFdiv.
  destruct (Prim2SF c) as [[]|[]| |[] mc ec], (Prim2SF m) as [[]|[]| |[] mm em];
    cbn [xorb]; try discriminate; try reflexivity;
    intros _.
  all: destruct (SFdiv_core_binary _ _ _ _ _ _) as [[mz ez] lz].
  all: pose proof (binary_round_aux_sign true mz ez lz) as Hs.
  all: destruct (binary_round_aux prec emax true mz ez lz) as [[]|[]| |[]];
    try discriminate; try reflexivity.
Qed.

Section LegFacts.
Context `{Platform}.

Lemma Enhanced_pushed clock options currentPrice targetDTE r :
  In r (Enhanced.pairing clock options currentPrice targetDTE) ->
  pushed_from clock options targetDTE r.
Proof.
  intros Hr. apply pairing_app_inv in Hr.
  destruct Hr as [(b & s & l & a & E & Hr)|(b & s & l & a & E & Hr)];
    pose proof (In_middle b a s l) as [Hs Hl]; rewrite <- E in Hs, Hl.
  - destruct (side_window _ _ _ _ _ (or_introl Hs)) as (i & Hi & Hw).
    destruct (side_window _ _ _ _ _ (or_introl Hl)) as (i' & Hi' & Hw').
    pose proof (Enhanced_callSpread_inv _ _ _ _ _ Hr)
      as (Hb & _ & _ & _ & _ & Hd & _).
    assert (Ht : type r = call) by apply Hb.
    exists s, l, i, i', (length b). rewrite Ht.
    repeat (split; [assumption|]).
    revert Hr. unfold Enhanced.callSpread.
    repeat match goal with
           | |- context [if ?c then _ else _] => destruct c
           end; cbn [In]; try tauto.
    intros [<-|[]]. reflexivity.
  - destruct (side_window _ _ _ _ _ (or_intror Hs)) as (i & Hi & Hw).
    destruct (side_window _ _ _ _ _ (or_intror Hl)) as (i' & Hi' & Hw').
    pose proof (Enhanced_putSpread_inv _ _ _ _ _ Hr)
      as (Hb & _ & _ & _ & _ & Hd & _).
    assert (Ht : type r = put) by apply Hb.
    exists s, l, i, i', (length b). rewrite Ht.
    repeat (split; [assumption|]).
    revert Hr. unfold Enhanced.putSpread.
    repeat match goal with
           | |- context [if ?c then _ else _] => destruct c
           end; cbn [In]; try tauto.
    intros [<-|[]]. reflexivity.
Qed.

Lemma Basic_pushed clock options currentPrice targetDTE r :
  In r (Basic.pairing clock options currentPrice targetDTE) ->
  pushed_from clock options targetDTE r.
Proof.
  intros Hr. apply pairing_app_inv in Hr.
  destruct Hr as [(b & s & l & a & E & Hr)|(b & s & l & a & E & Hr)];
    pose proof (In_middle b a s l) as [Hs Hl]; rewrite <- E in Hs, Hl.
  - destruct (side_window _ _ _ _ _ (or_introl Hs)) as (i & Hi & Hw).
    destruct (side_window _ _ _ _ _ (or_introl Hl)) as (i' & Hi' & Hw').
    pose proof (Basic_callSpread_inv _ _ _ _ _ Hr) as (Hb & _ & _ & Hd).
    assert (Ht : type r = call) by apply Hb.
    exists s, l, i, i', (length b). rewrite Ht.
    repeat (split; [assumption|]).
    revert Hr. unfold Basic.callSpread.
    repeat match goal with
           | |- context [if ?c then _ else _] => destruct c
           end; cbn [In]; try tauto.
    intros [<-|[]]. reflexivity.
  - destruct (side_window _ _ _ _ _ (or_intror Hs)) as (i & Hi & Hw).
    destruct (side_window _ _ _ _ _ (or_intror Hl)) as (i' & Hi' & Hw').
    pose proof (Basic_putSpread_inv _ _ _ _ _ Hr) as (Hb & _ & _ & Hd).
    assert (Ht : type r = put) by apply Hb.
    exists s, l, i, i', (length b). rewrite Ht.
    repeat (split; [assumption|]).
    revert Hr. unfold Basic.putSpread.
    repeat match goal with
           | |- context [if ?c then _ else _] => destruct c
           end; cbn [In]; try tauto.
    intros [<-|[]]. reflexivity.
Qed.

Lemma returned_pushed clock options currentPrice targetDTE r :
  In r (Enhanced.findCreditSpreads clock options currentPrice targetDTE)
  \/ In r (Basic.findCreditSpreads clock options currentPrice targetDTE) ->
  pushed_from clock options targetDTE r.
Proof.
  intros [Hr|Hr].
  - eapply Enhanced_pushed, Enhanced_find_pairing, Hr.
  - eapply Basic_pushed, Basic_find_pairing, Hr.
Qed.

Lemma returned_thresholds clock options currentPrice targetDTE r :
  In r (Enhanced.findCreditSpreads clock options currentPrice targetDTE)
  \/ In r (Basic.findCreditSpreads clock options currentPrice targetDTE) ->
  JS.gtb (creditReceived r) 0.10 = true
  /\ JS.gtb (creditReceived r / maxLoss r) 0.2 = true.
Proof.
  intros [Hr|Hr].
  - apply Enhanced_find_pairing in Hr.
    pose proof (Enhanced_pushed _ _ _ _ _ Hr)
      as (s & l & i & i' & j & _ & _ & _ & _ & Hb & _).
    apply Enhanced_pairing_policy in Hr as [(H1 & H2 & _) _].
    destruct Hb as (_ & _ & _ & _ & Hp & _). rewrite Hp in H2.
    unfold JS.gtb in *. split.
    + apply (ltb_trans 0.10 0.15); [reflexivity|exact H1].
    + apply (ltb_trans 0.2 0.25); [reflexivity|exact H2].
  - apply Basic_find_pairing in Hr.
    pose proof (Basic_pushed _ _ _ _ _ Hr)
      as (s & l & i & i' & j & _ & _ & _ & _ & Hb & _).
    apply Basic_pairing_policy in Hr as [(H1 & H2) _].
    destruct Hb as (_ & _ & _ & _ & Hp & _). rewrite Hp in H2.
    split; assumption.
Qed.

End LegFacts.

(** X6.  The days to expiration of what a request recommends when it is not
    served from the cache.  In the response of the multi-provider route
    every recommendation is five to ten days from expiration: its loops
    test the days they push, and the static recommendations say seven.  In
    the response of the single-provider route a recommendation is a static
    one, which says seven, or has a short leg that was five to nine days
    from expiration when the window filter read the clock for it (the
    handler leaves the target at seven), while its [daysToExpiration] is
    what a later reading of the clock gives, which the route does not
    test. *)
Theorem GET_days_to_expiration `{Platform} (clock : Clock)
    (env : ProcessEnv) (q : Enhanced.Quotes)
    (priceData : Lookup (option string)) (chain : Lookup OptionsData)
    (cache : gmap string (SimpleCache.entry ResponseData)) :
  (SimpleCache.get cacheKey (atLookup clock) cache).1 = None ->
  Forall
    (fun r =>
       (5 <=? daysToExpiration r) = true /\ (daysToExpiration r <=? 10) = true)
    (recommendations (data (Enhanced.GET clock env q chain cache).1))
  /\ Forall
       (fun r =>
          (In r (mockRecommendations (atMock clock))
           /\ daysToExpiration r = 7)
          \/ exists options shortOption i j,
               allOptions chain = Some options
               /\ nth_error options i = Some shortOption
               /\ shortStrike r = strike shortOption
               /\ (5 <=? getDaysToExpiration (atFilter clock i)
                           (expiration shortOption)) = true
               /\ (getDaysToExpiration (atFilter clock i)
                     (expiration shortOption) <=? 9) = true
               /\ daysToExpiration r
                  = getDaysToExpiration
                      (match type r with
                       | call => atCallLoop clock j
                       | put => atPutLoop clock j
                       end)
                      (expiration shortOption))
       (recommendations (data (Basic.GET clock priceData chain cache).1)).
Proof.
  intros Hmiss.
  assert (Hmock : forall r,
             In r (mockRecommendations (atMock clock)) ->
             daysToExpiration r = 7).
  { intros r Hm. cbn [mockRecommendations In] in Hm.
    destruct Hm as [<-|[<-|[]]]; reflexivity. }
  split; apply List.Forall_forall; intros r Hr.
  - rewrite (Enhanced_GET_miss _ _ _ _ _ Hmiss) in Hr.
    destruct (allOptions chain) as [options|];
      cbn [fst data recommendations mockResponse] in Hr.
    + apply Enhanced_find_pairing, Enhanced_pairing_policy in Hr
        as [(_ & _ & H5 & H10) _].
      split; assumption.
    + rewrite (Hmock r Hr). split; reflexivity.
  - rewrite (Basic_GET_miss _ _ _ _ Hmiss) in Hr.
    destruct (Basic.currentPriceOf priceData) as [currentPrice|];
      [|left; auto].
    destruct (allOptions chain) as [options|]; [|left; auto].
    cbn [fst data recommendations] in Hr.
    apply Basic_find_pairing, Basic_pairing_policy in Hr
      as (_ & (s & i & j & Hi & Hs & Hw & Hd) & _).
    right. exists options, s, i, j. apply inWindow_days in Hw as [H5 H9].
    change (7 - 2) with 5 in H5. change (7 + 2) with 9 in H9.
    unfold JS.geb in H5. split; [reflexivity|].
    repeat (split; [assumption|]). exact Hd.
Qed.

(** X6 on the scenario, at the turn of a day: the single-provider route
    recommends the spread, whose short leg was five days from expiration
    for the filter, and says four days. *)
Lemma GET_days_to_expiration_witness :
  map daysToExpiration
    (recommendations
       (data (@Basic.GET referencePlatform day_turns (Json None)
                (chain_of scenario []) ∅).1)) = [4]
  /\ Forall
       (fun r =>
          (In r (@mockRecommendations referencePlatform (atMock day_turns))
           /\ daysToExpiration r = 7)
          \/ exists options shortOption i j,
               allOptions (chain_of scenario []) = Some options
               /\ nth_error options i = Some shortOption
               /\ shortStrike r = strike shortOption
               /\ (5 <=? getDaysToExpiration (atFilter day_turns i)
                           (expiration shortOption)) = true
               /\ (getDaysToExpiration (atFilter day_turns i)
                     (expiration shortOption) <=? 9) = true
               /\ daysToExpiration r
                  = getDaysToExpiration
                      (match type r with
                       | call => atCallLoop day_turns j
                       | put => atPutLoop day_turns j
                       end)
                      (expiration shortOption))
       (recommendations
          (data (@Basic.GET referencePlatform day_turns (Json None)
                   (chain_of scenario []) ∅).1)).
Proof.
  split; [vm_compute; reflexivity|].
  apply (@GET_days_to_expiration referencePlatform day_turns no_keys
           no_quotes (Json None) (chain_of scenario []) ∅).
  reflexivity.
Defined.

(** X7.  A recommendation never has a negative maximal loss: in the list
    either route's [findCreditSpreads] returns every credit is positive and
    every [maxLoss] is at least zero, so that the credit does not exceed
    the width of the spread. *)
Theorem recommended_loss_not_negative `{Platform} (clock : Clock)
    (options : list OptionContract) (currentPrice targetDTE : JS.number)
    (r : CreditSpreadRecommendation) :
  In r (Enhanced.findCreditSpreads clock options currentPrice targetDTE)
  \/ In r (Basic.findCreditSpreads clock options currentPrice targetDTE) ->
  (0 <? creditReceived r) = true
  /\ (0 <=? maxLoss r) = true
  /\ (creditReceived r <=? abs (longStrike r - shortStrike r)) = true.
Proof.
  intros Hr.
  pose proof (returned_thresholds _ _ _ _ _ Hr) as [H1 H2].
  unfold JS.gtb in *.
  assert (Hc : (0 <? creditReceived r) = true)
    by (apply (ltb_trans 0 0.10); [reflexivity|exact H1]).
  assert (Hq : (0 <? creditReceived r / maxLoss r) = true)
    by (apply (ltb_trans 0 0.2); [reflexivity|exact H2]).
  pose proof (div_pos_denominator _ _ Hc Hq) as Hm.
  split; [exact Hc|split; [exact Hm|]].
  assert (Hf : fields_consistent r).
  { apply returned_pushed in Hr
      as (s & l & i & i' & j & _ & _ & _ & _ & Hb & _).
    eapply built_from_consistent, Hb. }
  destruct Hf as (_ & Hl & _). rewrite Hl in Hm.
  apply sub_nonneg, Hm.
Qed.

(** X7 on the scenario. *)
Lemma recommended_loss_not_negative_witness :
  let r :=
    hd no_recommendation
      (@Enhanced.findCreditSpreads referencePlatform (always now0) scenario
         255 7) in
  (0 <? creditReceived r) = true
  /\ (0 <=? maxLoss r) = true
  /\ (creditReceived r <=? abs (longStrike r - shortStrike r)) = true.
Proof.
  intros r.
  apply (@recommended_loss_not_negative referencePlatform (always now0)
           scenario 255 7).
  left. vm_compute. left. reflexivity.
Defined.

(** X8.  Every date [findCreditSpreads] formats is a valid one: the
    expiration of a contract that passed the window is a valid time value,
    so that [toISOString], which throws a [RangeError] on an invalid date,
    is applied to valid dates only; the [expiration] field of a
    recommendation is the date part of its short leg's expiration. *)
Theorem formatted_dates_valid `{Platform} (clock : Clock)
    (options : list OptionContract) (currentPrice targetDTE : JS.number)
    (r : CreditSpreadRecommendation) :
  In r (Enhanced.findCreditSpreads clock options currentPrice targetDTE)
  \/ In r (Basic.findCreditSpreads clock options currentPrice targetDTE) ->
  exists shortOption,
    In shortOption options
    /\ shortStrike r = strike shortOption
    /\ is_nan (JS.TimeClip (expiration shortOption * 1000)) = false
    /\ expirationDate r
       = split_T_0
           (Date_toISOString (JS.TimeClip (expiration shortOption * 1000))).
Proof.
  intros Hr.
  apply returned_pushed in Hr
    as (s & l & i & i' & j & Hs & _ & Hw & _ & Hb & _ & He).
  exists s. apply inWindow_days in Hw as [Hw _].
  apply window_valid_date in Hw. apply nth_error_In in Hs.
  destruct Hb as (_ & Hss & _). auto.
Qed.

(** X8 on the scenario: the date of the recommendation is the one of the
    call at 260. *)
Lemma formatted_dates_valid_witness :
  exists shortOption,
    In shortOption scenario
    /\ 260 = strike shortOption
    /\ is_nan (JS.TimeClip (expiration shortOption * 1000)) = false
    /\ "2023-11-21"%string
       = split_T_0
           (@Date_toISOString referencePlatform
              (JS.TimeClip (expiration shortOption * 1000))).
Proof.
  apply (@formatted_dates_valid referencePlatform (always now0) scenario 255
           7
           (hd no_recommendation
              (@Enhanced.findCreditSpreads referencePlatform (always now0)
                 scenario 255 7))).
  left. vm_compute. left. reflexivity.
Defined.

(** X9.  The probability of profit a recommendation carries: in the list
    the multi-provider route returns it is [NaN] or a number from 20 to 85;
    in the list the single-provider route returns it is 65 or 35, and 65
    exactly when the underlying is on the profitable side of the
    recommendation's breakeven. *)
Theorem recommended_probability `{Platform} (clock : Clock)
    (options : list OptionContract) (currentPrice targetDTE : JS.number) :
  Forall
    (fun r =>
       probOfProfit r = nan
       \/ ((20 <=? probOfProfit r) = true /\ (probOfProfit r <=? 85) = true))
    (Enhanced.findCreditSpreads clock options currentPrice targetDTE)
  /\ Forall
       (fun r =>
          probOfProfit r
          = if match type r with
               | call => currentPrice <? breakeven r
               | put => breakeven r <? currentPrice
               end
            then 65 else 35)
       (Basic.findCreditSpreads clock options currentPrice targetDTE).
Proof.
  split; apply List.Forall_forall; intros r Hr.
  - apply Enhanced_find_pairing, pairing_app_inv in Hr.
    destruct Hr as [(b & s & l & a & _ & Hr)|(b & s & l & a & _ & Hr)].
    + apply Enhanced_callSpread_inv in Hr as (_ & _ & _ & _ & _ & _ & ->).
      apply calculateProbOfProfit_range.
    + apply Enhanced_putSpread_inv in Hr as (_ & _ & _ & _ & _ & _ & ->).
      apply calculateProbOfProfit_range.
  - apply Basic_find_pairing, pairing_app_inv in Hr.
    destruct Hr as [(b & s & l & a & _ & Hr)|(b & s & l & a & _ & Hr)];
      revert Hr.
    + unfold Basic.callSpread.
      destruct (JS.gtb (strike l) (strike s)); [|intros []].
      destruct (_ && _); [|intros []].
      intros [<-|[]]. reflexivity.
    + unfold Basic.putSpread.
      destruct (strike l <? strike s); [|intros []].
      destruct (_ && _); [|intros []].
      intros [<-|[]]. reflexivity.
Qed.
(** ** The option routes: chains listed by strike *)

Lemma filter_ascending (p : OptionContract -> bool)
    (l : list OptionContract) :
  ascending l -> ascending (List.filter p l).
Proof.
  unfold ascending. induction 1 as [|x l Hs IH Hx]; cbn [List.filter].
  - constructor.
  - destruct (p x); [|exact IH]. constructor; [exact IH|].
    apply List.Forall_forall. intros y [Hy _]%filter_In.
    eapply List.Forall_forall in Hx; eassumption.
Qed.

Lemma filterAt_ascending (p : nat -> OptionContract -> bool)
    (l : list OptionContract) :
  ascending l -> forall i, ascending (filterAt p i l).
Proof.
  unfold ascending. induction 1 as [|x l Hs IH Hx]; intros i;
    cbn [filterAt].
  - constructor.
  - destruct (p i x); [|apply IH]. constructor; [apply IH|].
    apply List.Forall_forall. intros y Hy.
    apply filterAt_In in Hy as (j & Hj%nth_error_In & _).
    eapply List.Forall_forall in Hx; eassumption.
Qed.

Lemma forAdjacent_ascending {B : Type}
    (body : nat -> OptionContract -> OptionContract -> list B)
    (l : list OptionContract) :
  (forall i s l', (strike s <=? strike l') = true -> body i s l' = []) ->
  ascending l -> forall i, forAdjacent body i l = [].
Proof.
  intros Hb. unfold ascending.
  induction 1 as [|x l Hs IH Hx]; intros i; [reflexivity|].
  destruct l as [|y l]; [reflexivity|].
  change (forAdjacent body i (x :: y :: l))
    with (body i x y ++ forAdjacent body (S i) (y :: l)).
  rewrite IH, Hb; [reflexivity|].
  inversion Hx; assumption.
Qed.

Lemma forAdjacent_junction {A B : Type} (body : nat -> A -> A -> list B)
    (xs ys : list A) :
  (forall i s l, length (body i s l) <= 1)%nat ->
  forall i,
    forAdjacent body i xs = [] ->
    forAdjacent body (i + length xs) ys = [] ->
    (length (forAdjacent body i (xs ++ ys)) <= 1)%nat.
Proof.
  intros Hb. induction xs as [|x [|x' xs] IH]; intros i Hx Hy.
  - cbn [app length] in *. rewrite Nat.add_0_r in Hy. rewrite Hy. cbn. lia.
  - destruct ys as [|y ys]; [cbn; lia|].
    change (forAdjacent body i ([x] ++ y :: ys))
      with (body i x y ++ forAdjacent body (S i) (y :: ys)).
    cbn [length] in Hy. replace (i + 1)%nat with (S i) in Hy by lia.
    rewrite Hy, app_nil_r. apply Hb.
  - change (forAdjacent body i ((x :: x' :: xs) ++ ys))
      with (body i x x' ++ forAdjacent body (S i) ((x' :: xs) ++ ys)).
    change (forAdjacent body i (x :: x' :: xs))
      with (body i x x' ++ forAdjacent body (S i) (x' :: xs)) in Hx.
    apply app_eq_nil in Hx as [-> Hx]. cbn [app]. apply IH; [exact Hx|].
    replace (S i + length (x' :: xs))%nat
      with (i + length (x :: x' :: xs))%nat by (cbn [length]; lia).
    exact Hy.
Qed.

Lemma putSpreads_ranked (cands : list CreditSpreadRecommendation) :
  (length
     (putSpreads
        (JS.slice0 10
           (JS.Array_sort (fun a b => (riskRewardRatio b - riskRewardRatio a)%float)
              cands)))
   <= length (putSpreads cands))%nat.
Proof.
  unfold putSpreads, JS.slice0.
  destruct (filter_firstn_prefix (fun r => is_put (type r)) 10
              (JS.Array_sort (fun a b => (riskRewardRatio b - riskRewardRatio a)%float)
                 cands)) as [k ->].
  rewrite length_firstn.
  assert (Hp : Permutation
                 (List.filter (fun r => is_put (type r))
                    (JS.Array_sort
                       (fun a b => (riskRewardRatio b - riskRewardRatio a)%float) cands))
                 (List.filter (fun r => is_put (type r)) cands)).
  { clear k. generalize (Array_sort_perm riskRewardRatio cands).
    generalize (JS.Array_sort
                  (fun a b => (riskRewardRatio b - riskRewardRatio a)%float) cands).
    intros l Hl. induction Hl as [|x l l' Hl IH|x y l|l l' l'' H1 IH1 H2 IH2];
      cbn [List.filter].
    - constructor.
    - destruct (is_put (type x)); [constructor|]; exact IH.
    - destruct (is_put (type x)), (is_put (type y)); try reflexivity.
      apply perm_swap.
    - etransitivity; eassumption. }
  rewrite (Permutation_length Hp). lia.
Qed.

Section ChainFacts.
Context `{Platform}.

Lemma putSpread_ascending_Enhanced now currentPrice s l :
  (strike s <=? strike l) = true ->
  Enhanced.putSpread now currentPrice s l = [].
Proof.
  intros Hle. unfold Enhanced.putSpread.
  rewrite (leb_not_gtb _ _ Hle). reflexivity.
Qed.

Lemma putSpread_ascending_Basic now currentPrice s l :
  (strike s <=? strike l) = true ->
  Basic.putSpread now currentPrice s l = [].
Proof.
  intros Hle. unfold Basic.putSpread.
  rewrite (leb_not_gtb _ _ Hle). reflexivity.
Qed.

Lemma putSpreads_calls {body}
    (Hbody : forall (i : nat) s l r, In r (body i s l) -> type r = call)
    (cs : list OptionContract) :
  forall i, putSpreads (forAdjacent body i cs) = [].
Proof.
  unfold putSpreads.
  induction cs as [|s [|l cs] IH]; intros i; try reflexivity.
  change (forAdjacent body i (s :: l :: cs))
    with (body i s l ++ forAdjacent body (S i) (l :: cs)).
  rewrite List.filter_app, IH, app_nil_r.
  specialize (Hbody i s l). induction (body i s l) as [|r rs IHr];
    [reflexivity|].
  cbn [List.filter]. rewrite (Hbody r) by (left; reflexivity).
  cbn [is_put]. apply IHr. intros r' Hr'. apply Hbody. right. exact Hr'.
Qed.

Lemma length_filter_le {A : Type} (p : A -> bool) (l : list A) :
  (length (List.filter p l) <= length l)%nat.
Proof.
  induction l as [|x l IH]; cbn [List.filter length]; [lia|].
  destruct (p x); cbn [length]; lia.
Qed.

(** The put spreads a loop over the puts finds in a list made of two
    ascending sides. *)
Lemma put_loop_of_ascending_sides
    (body : nat -> OptionContract -> OptionContract
            -> list CreditSpreadRecommendation)
    (now : nat -> JS.number) (calls puts : list OptionContract)
    (currentPrice targetDTE : JS.number) :
  (forall i s l, (strike s <=? strike l) = true -> body i s l = []) ->
  (forall i s l, length (body i s l) <= 1)%nat ->
  ascending calls -> ascending puts ->
  let putSide :=
    putOptions currentPrice (targetOptions now (calls ++ puts) targetDTE) in
  (length (forAdjacent body 0 putSide) <= 1)%nat
  /\ (ascending (calls ++ puts) -> forAdjacent body 0 putSide = []).
Proof.
  intros Hasc Hone Hc Hp putSide.
  assert (Hsplit :
            putSide
            = putOptions currentPrice
                (filterAt (fun i option => inWindow (now i) targetDTE option)
                   0 calls)
              ++ putOptions currentPrice
                   (filterAt
                      (fun i option => inWindow (now i) targetDTE option)
                      (0 + length calls) puts))
    by (subst putSide; unfold putOptions, targetOptions;
        rewrite filterAt_app, List.filter_app; reflexivity).
  split.
  - rewrite Hsplit. apply forAdjacent_junction; [exact Hone| |];
      apply forAdjacent_ascending; try exact Hasc;
      apply filter_ascending, filterAt_ascending; assumption.
  - intros Hall. apply forAdjacent_ascending; [exact Hasc|].
    subst putSide. unfold putOptions, targetOptions.
    apply filter_ascending, filterAt_ascending, Hall.
Qed.

End ChainFacts.

(** X10.  On a chain that lists each side by ascending strike the put loop
    finds next to nothing.  Both loops walk the same list, the calls
    followed by the puts, and the put loop pairs a contract with its
    successor only when the successor's strike is lower: within a side it
    never is, so that at most one put spread is recommended, the one across
    the junction of the two sides; and a list in ascending order throughout
    yields no put spread at all.  This holds for both routes, whatever the
    readings of the clock. *)
Theorem put_spreads_of_ascending_chain `{Platform} (clock : Clock)
    (calls puts : list OptionContract) (currentPrice targetDTE : JS.number) :
  ascending calls -> ascending puts ->
  (length
     (putSpreads
        (Enhanced.findCreditSpreads clock (calls ++ puts) currentPrice
           targetDTE)) <= 1)%nat
  /\ (length
        (putSpreads
           (Basic.findCreditSpreads clock (calls ++ puts) currentPrice
              targetDTE)) <= 1)%nat
  /\ (ascending (calls ++ puts) ->
      putSpreads
        (Enhanced.findCreditSpreads clock (calls ++ puts) currentPrice
           targetDTE)
      = []
      /\ putSpreads
           (Basic.findCreditSpreads clock (calls ++ puts) currentPrice
              targetDTE)
         = []).
Proof.
  intros Hc Hp.
  assert (He : forall cs,
             putSpreads
               (forAdjacent
                  (fun i => Enhanced.callSpread (atCallLoop clock i)
                              currentPrice) 0 cs) = []).
  { intros cs. apply putSpreads_calls. intros i s l r Hr.
    apply Enhanced_callSpread_inv in Hr as [Hb _]. apply Hb. }
  assert (Hb : forall cs,
             putSpreads
               (forAdjacent
                  (fun i => Basic.callSpread (atCallLoop clock i)
                              currentPrice) 0 cs) = []).
  { intros cs. apply putSpreads_calls. intros i s l r Hr.
    apply Basic_callSpread_inv in Hr as [Hb _]. apply Hb. }
  destruct (put_loop_of_ascending_sides
              (fun i => Enhanced.putSpread (atPutLoop clock i) currentPrice)
              (atFilter clock) calls puts currentPrice targetDTE)
    as [Hone_e Hnone_e]; try assumption.
  { intros i s l. apply putSpread_ascending_Enhanced. }
  { intros i s l. unfold Enhanced.putSpread.
    repeat match goal with |- context [if ?c then _ else _] => destruct c end;
      cbn; lia. }
  destruct (put_loop_of_ascending_sides
              (fun i => Basic.putSpread (atPutLoop clock i) currentPrice)
              (atFilter clock) calls puts currentPrice targetDTE)
    as [Hone_b Hnone_b]; try assumption.
  { intros i s l. apply putSpread_ascending_Basic. }
  { intros i s l. unfold Basic.putSpread.
    repeat match goal with |- context [if ?c then _ else _] => destruct c end;
      cbn; lia. }
  split; [|split; [|intros Hall; split]].
  - etransitivity; [apply putSpreads_ranked|].
    unfold Enhanced.pairing. unfold putSpreads at 1.
    rewrite List.filter_app. fold (putSpreads
      (forAdjacent
         (fun i => Enhanced.callSpread (atCallLoop clock i) currentPrice) 0
         (callOptions currentPrice
            (targetOptions (atFilter clock) (calls ++ puts) targetDTE)))).
    rewrite He. cbn [app].
    etransitivity; [apply length_filter_le|]. exact Hone_e.
  - etransitivity; [apply putSpreads_ranked|].
    unfold Basic.pairing. unfold putSpreads at 1.
    rewrite List.filter_app. fold (putSpreads
      (forAdjacent
         (fun i => Basic.callSpread (atCallLoop clock i) currentPrice) 0
         (callOptions currentPrice
            (targetOptions (atFilter clock) (calls ++ puts) targetDTE)))).
    rewrite Hb. cbn [app].
    etransitivity; [apply length_filter_le|]. exact Hone_b.
  - apply length_zero_iff_nil, Nat.le_0_r.
    etransitivity; [apply putSpreads_ranked|].
    unfold Enhanced.pairing. unfold putSpreads at 1.
    rewrite List.filter_app. fold (putSpreads
      (forAdjacent
         (fun i => Enhanced.callSpread (atCallLoop clock i) currentPrice) 0
         (callOptions currentPrice
            (targetOptions (atFilter clock) (calls ++ puts) targetDTE)))).
    rewrite He. cbn [app]. rewrite (Hnone_e Hall). cbn. lia.
  - apply length_zero_iff_nil, Nat.le_0_r.
    etransitivity; [apply putSpreads_ranked|].
    unfold Basic.pairing. unfold putSpreads at 1.
    rewrite List.filter_app. fold (putSpreads
      (forAdjacent
         (fun i => Basic.callSpread (atCallLoop clock i) currentPrice) 0
         (callOptions currentPrice
            (targetOptions (atFilter clock) (calls ++ puts) targetDTE)))).
    rewrite Hb. cbn [app]. rewrite (Hnone_b Hall). cbn. lia.
Qed.

(** X10 on the scenario with two puts listed below the calls. *)
Lemma put_spreads_of_ascending_chain_witness :
  (length
     (putSpreads
        (@Enhanced.findCreditSpreads referencePlatform (always now0)
           (scenario ++ scenario_puts) 250%float 7%float)) <= 1)%nat.
Proof.
  apply (@put_spreads_of_ascending_chain referencePlatform (always now0)
           scenario scenario_puts 250 7).
  - repeat constructor.
  - repeat constructor.
Defined.
(** ** The news route *)

Section SortGeneral.
Context {A : Type} (cmp : A -> A -> JS.number).

Lemma sort_insert_permutation (x : A) (l : list A) :
  Permutation (JS.sort_insert cmp x l) (x :: l).
Proof.
  induction l as [|y l IH]; cbn [JS.sort_insert]; [reflexivity|].
  destruct (0 <? cmp x y); [|reflexivity].
  rewrite IH. apply perm_swap.
Qed.

Lemma Array_sort_permutation (l : list A) :
  Permutation (JS.Array_sort cmp l) l.
Proof.
  induction l as [|x l IH]; [reflexivity|].
  unfold JS.Array_sort in *. cbn [foldr].
  rewrite sort_insert_permutation. apply perm_skip, IH.
Qed.

Context (R : A -> A -> Prop) (P : A -> Prop).
Hypothesis later : forall x y, P x -> P y -> (0 <? cmp x y) = true -> R y x.
Hypothesis stays : forall x y, P x -> P y -> (0 <? cmp x y) = false -> R x y.
Hypothesis trans : forall x y z, P x -> P y -> P z -> R x y -> R y z -> R x z.

Lemma sort_insert_in_order (x : A) (l : list A) :
  P x -> Forall P l -> StronglySorted R l ->
  StronglySorted R (JS.sort_insert cmp x l).
Proof.
  intros Hx Hl Hs. induction Hs as [|y l Hs IH Hy]; cbn [JS.sort_insert].
  - constructor; constructor.
  - inversion Hl as [|? ? Hpy Hl']; subst.
    destruct (0 <? cmp x y) eqn:Hc.
    + constructor; [apply IH, Hl'|].
      rewrite (sort_insert_permutation x l). constructor; [|exact Hy].
      apply later; assumption.
    + assert (Hxy : R x y) by (apply stays; assumption).
      constructor; [constructor; assumption|].
      constructor; [exact Hxy|].
      apply List.Forall_forall. intros z Hz.
      apply (trans x y z); try assumption.
      * eapply List.Forall_forall in Hl'; eassumption.
      * eapply List.Forall_forall in Hy; eassumption.
Qed.

Lemma Array_sort_in_order (l : list A) :
  Forall P l -> StronglySorted R (JS.Array_sort cmp l).
Proof.
  induction 1 as [|x l Hx Hl IH]; [constructor|].
  unfold JS.Array_sort in *. cbn [foldr].
  apply sort_insert_in_order; [exact Hx| |exact IH].
  fold (JS.Array_sort cmp l). rewrite Array_sort_permutation. exact Hl.
Qed.

End SortGeneral.

Section NewsFacts.
Context `{Platform} `{TextPlatform}.
Import MarketNews.

Lemma findIndex_from_app {A : Type} (p : A -> bool) (i : Z)
    (pre l : list A) :
  findIndex_from p i (pre ++ l)
  = if existsb p pre then findIndex_from p i pre
    else findIndex_from p (i + Z.of_nat (length pre)) l.
Proof.
  revert i. induction pre as [|x pre IH]; intros i; cbn [app existsb length].
  - f_equal. lia.
  - cbn [findIndex_from]. destruct (p x); [reflexivity|]. cbn [orb].
    rewrite IH. destruct (existsb p pre); [reflexivity|]. f_equal. lia.
Qed.

Lemma findIndex_from_bound {A : Type} (p : A -> bool) (i : Z) (l : list A) :
  existsb p l = true ->
  (i <= findIndex_from p i l < i + Z.of_nat (length l))%Z.
Proof.
  revert i. induction l as [|x l IH]; intros i; cbn [existsb]; [discriminate|].
  cbn [findIndex_from length]. destruct (p x); [lia|]. cbn [orb].
  intros Hl. specialize (IH (i + 1)%Z Hl). lia.
Qed.

Lemma first_of_title_seen (seen seen' : list string) (l : list NewsItem) :
  (forall t, existsb (String.eqb t) seen = existsb (String.eqb t) seen') ->
  first_of_title seen l = first_of_title seen' l.
Proof.
  revert seen seen'.
  induction l as [|x l IH]; intros seen seen' Hs; [reflexivity|].
  cbn [first_of_title]. rewrite Hs.
  destruct (existsb _ seen'); [apply IH, Hs|].
  f_equal. apply IH. intros t. cbn [existsb]. rewrite Hs. reflexivity.
Qed.

(** The filter of the route keeps the first item of every title. *)
Lemma uniqueNews_first_of_title (l : list NewsItem) :
  uniqueNews l = first_of_title [] l.
Proof.
  unfold uniqueNews, Array_filter, findIndex.
  change l with ([] ++ l) at 1.
  change 0%Z with (Z.of_nat (length (@nil NewsItem))) at 2.
  change (@nil string) with (map title (@nil NewsItem)).
  generalize (@nil NewsItem) as pre.
  induction l as [|item rest IH]; intros pre; [reflexivity|].
  cbn [filter_from first_of_title].
  rewrite findIndex_from_app.
  assert (Hex : existsb (String.eqb (title item)) (map title pre)
                = existsb (fun t => String.eqb (title t) (title item)) pre).
  { clear. induction pre as [|x pre IH]; [reflexivity|].
    cbn [map existsb]. rewrite IH, (String.eqb_sym (title item)).
    reflexivity. }
  rewrite Hex.
  replace (pre ++ item :: rest) with ((pre ++ [item]) ++ rest)
    by (rewrite <- app_assoc; reflexivity).
  replace (Z.of_nat (length pre) + 1)%Z with (Z.of_nat (length (pre ++ [item])))
    by (rewrite length_app; cbn [length]; lia).
  specialize (IH (pre ++ [item])).
  destruct (existsb (fun t => String.eqb (title t) (title item)) pre) eqn:E.
  - pose proof (findIndex_from_bound _ 0%Z _ E) as Hb.
    replace (Z.of_nat (length pre) =? _)%Z with false
      by (symmetry; apply Z.eqb_neq; lia).
    rewrite IH. apply first_of_title_seen.
    intros t. rewrite map_app, existsb_app. cbn [map existsb].
    rewrite orb_false_r.
    destruct (String.eqb_spec t (title item)) as [->|Hne];
      [rewrite Hex|rewrite orb_false_r]; reflexivity.
  - cbn [findIndex_from]. rewrite String.eqb_refl, Z.add_0_l, Z.eqb_refl.
    f_equal. rewrite IH. apply first_of_title_seen.
    intros t. rewrite map_app, existsb_app. cbn [map existsb].
    rewrite orb_false_r. apply orb_comm.
Qed.

Lemma existsb_eqb_In (t : string) (seen : list string) :
  existsb (String.eqb t) seen = true <-> In t seen.
Proof.
  rewrite existsb_exists. split.
  - intros (x & Hx & ->%String.eqb_eq). exact Hx.
  - intros Ht. exists t. split; [exact Ht|apply String.eqb_refl].
Qed.

Lemma first_of_title_In (seen : list string) (l : list NewsItem) item :
  In item (first_of_title seen l) -> In item l /\ ~ In (title item) seen.
Proof.
  revert seen. induction l as [|x l IH]; intros seen; [intros []|].
  cbn [first_of_title]. destruct (existsb _ seen) eqn:E.
  - intros [Hi Hs]%IH. split; [right; exact Hi|exact Hs].
  - intros [<-|[Hi Hs]%IH].
    + split; [left; reflexivity|]. rewrite <- existsb_eqb_In, E. discriminate.
    + split; [right; exact Hi|]. intros Hn. apply Hs. right. exact Hn.
Qed.

Lemma first_of_title_NoDup (seen : list string) (l : list NewsItem) :
  List.NoDup (map title (first_of_title seen l)).
Proof.
  revert seen. induction l as [|x l IH]; intros seen; [apply List.NoDup_nil|].
  cbn [first_of_title]. destruct (existsb _ seen); [apply IH|].
  cbn [map]. apply List.NoDup_cons; [|apply IH].
  intros (y & Hy & Hin)%in_map_iff. apply first_of_title_In in Hin as [_ Hn].
  apply Hn. left. symmetry. exact Hy.
Qed.

Lemma first_of_title_covers (seen : list string) (l : list NewsItem) item :
  In item l ->
  In (title item) seen \/ In (title item) (map title (first_of_title seen l)).
Proof.
  revert seen. induction l as [|x l IH]; intros seen; [intros []|].
  cbn [first_of_title]. intros [->|Hi].
  - destruct (existsb _ seen) eqn:E.
    + left. apply existsb_eqb_In, E.
    + right. left. reflexivity.
  - destruct (existsb _ seen) eqn:E; [apply IH, Hi|].
    destruct (IH (title x :: seen) Hi) as [[<-|Hs]|Hr].
    + right. left. reflexivity.
    + left. exact Hs.
    + right. right. exact Hr.
Qed.

Lemma first_of_title_length (seen : list string) (l : list NewsItem) :
  (length (first_of_title seen l) <= length l)%nat.
Proof.
  revert seen. induction l as [|x l IH]; intros seen; [cbn; lia|].
  cbn [first_of_title]. destruct (existsb _ seen); cbn [length].
  - specialize (IH seen). lia.
  - specialize (IH (title x :: seen)). lia.
Qed.

Lemma marketNews_length key newsData alphaData :
  (length (marketNews key newsData alphaData) <= 25)%nat.
Proof.
  unfold marketNews. rewrite length_app.
  assert (H1 : (length (fromNewsApi newsData) <= 15)%nat).
  { unfold fromNewsApi, JS.slice0.
    destruct newsData as [|[articles|]]; cbn [length]; try lia.
    rewrite length_map, length_firstn. lia. }
  assert (H2 : (length (fromAlphaVantage alphaData) <= 10)%nat).
  { unfold fromAlphaVantage, JS.slice0.
    destruct alphaData as [|[feed|]]; cbn [length]; try lia.
    rewrite length_map, length_firstn. lia. }
  destruct (String.eqb _ "demo"); cbn [length]; lia.
Qed.

(** The comparator of the sort on items whose dates can be read. *)
Lemma byImpactAndRecency_later x y :
  (0 <? byImpactAndRecency x y) = true -> listed_before y x.
Proof.
  unfold byImpactAndRecency, listed_before.
  destruct (impact x), (impact y); cbn [impactWeight Impact_rank];
    match goal with
    | |- context [negb (?a =? ?b)] =>
        let v := eval vm_compute in (negb (a =? b)) in
        change (negb (a =? b)) with v
    end; cbv iota;
    try (intros _; left; lia);
    try (intros Hc; vm_compute in Hc; discriminate Hc).
  all: rewrite sub_pos; intros Hlt; right; split; [reflexivity|];
    apply ltb_leb, Hlt.
Qed.

Lemma byImpactAndRecency_stays x y :
  dated x -> dated y ->
  (0 <? byImpactAndRecency x y) = false -> listed_before x y.
Proof.
  unfold byImpactAndRecency, listed_before, dated. intros Hx Hy.
  destruct (impact x), (impact y); cbn [impactWeight Impact_rank];
    match goal with
    | |- context [negb (?a =? ?b)] =>
        let v := eval vm_compute in (negb (a =? b)) in
        change (negb (a =? b)) with v
    end; cbv iota;
    try (intros _; left; lia);
    try (intros Hc; vm_compute in Hc; discriminate Hc).
  all: rewrite sub_pos; intros Hlt; right; split; [reflexivity|];
    apply ltb_false_leb; assumption.
Qed.

Lemma listed_before_trans x y z :
  listed_before x y -> listed_before y z -> listed_before x z.
Proof.
  unfold listed_before.
  intros [H1|[E1 H1]] [H2|[E2 H2]].
  - left. lia.
  - left. rewrite <- E2. exact H1.
  - left. rewrite E1. exact H2.
  - right. split; [congruence|]. eapply leb_trans; eassumption.
Qed.

End NewsFacts.

(** X11.  The two classifiers of the news route agree on what matters
    most: a text that [determineCategory] files under ['Economic Data'] or
    ['Earnings'] is of impact ['high'] for [categorizeNewsImpact]; so is
    every such item the route makes of what the providers gave, and so are
    its static items. *)
Theorem category_fixes_impact `{Platform} `{TextPlatform}
    (title description : string) (now : nat -> JS.number)
    (NEWS_API_KEY : option string)
    (newsData : Lookup (option (list MarketNews.Article)))
    (alphaData : Lookup (option (list MarketNews.FeedEntry))) :
  (MarketNews.determineCategory title description = "Economic Data"%string
   \/ MarketNews.determineCategory title description = "Earnings"%string ->
   MarketNews.categorizeNewsImpact title description = MarketNews.high)
  /\ Forall
       (fun item =>
          MarketNews.category item = "Economic Data"%string
          \/ MarketNews.category item = "Earnings"%string ->
          MarketNews.impact item = MarketNews.high)
       (MarketNews.marketNews NEWS_API_KEY newsData alphaData
        ++ MarketNews.mockNews now).
Proof.
  assert (Hone : forall title description,
             MarketNews.determineCategory title description
             = "Economic Data"%string
             \/ MarketNews.determineCategory title description
                = "Earnings"%string ->
             MarketNews.categorizeNewsImpact title description
             = MarketNews.high).
  { clear. intros title description Hcat.
    assert (Hk : exists keyword,
               In keyword ["cpi"; "inflation"; "earnings";
                           "tesla earnings"]%string
               /\ MarketNews.includes
                    (String_toLowerCase (title ++ " " ++ description)%string)
                    keyword = true).
    { revert Hcat. unfold MarketNews.determineCategory.
      set (text := String_toLowerCase _).
      destruct (_ || _ || _); [intros [[=]|[=]]|].
      destruct (MarketNews.includes text "cpi") eqn:E1;
        [exists "cpi"%string; cbn; tauto|].
      destruct (MarketNews.includes text "inflation") eqn:E2;
        [exists "inflation"%string; cbn; tauto|].
      destruct (MarketNews.includes text "earnings") eqn:E3;
        [exists "earnings"%string; cbn; tauto|].
      destruct (MarketNews.includes text "tesla earnings") eqn:E4;
        [exists "tesla earnings"%string; cbn; tauto|].
      cbn [orb].
      destruct (_ || _); [intros [[=]|[=]]|].
      destruct (_ || _); intros [[=]|[=]]. }
    destruct Hk as (keyword & Hin & Hk).
    unfold MarketNews.categorizeNewsImpact.
    replace (existsb _ MarketNews.MARKET_KEYWORDS_high) with true;
      [reflexivity|].
    symmetry. apply existsb_exists. exists keyword. split; [|exact Hk].
    unfold MarketNews.MARKET_KEYWORDS_high. cbn [In] in *. tauto. }
  split; [apply Hone|].
  apply List.Forall_forall. intros item Hi.
  apply in_app_or in Hi as [Hi|Hi].
  - unfold MarketNews.marketNews in Hi. apply in_app_or in Hi as [Hi|Hi].
    + destruct (String.eqb _ "demo"); [destruct Hi|].
      unfold MarketNews.fromNewsApi in Hi.
      destruct newsData as [|[articles|]]; try destruct Hi.
      apply in_map_iff in Hi as (article & <- & _).
      cbn [MarketNews.category MarketNews.impact]. apply Hone.
    + unfold MarketNews.fromAlphaVantage in Hi.
      destruct alphaData as [|[feed|]]; try destruct Hi.
      apply in_map_iff in Hi as (article & <- & _).
      cbn [MarketNews.category MarketNews.impact]. apply Hone.
  - cbn [MarketNews.mockNews In] in Hi.
    destruct Hi as [<-|[<-|[<-|[<-|[<-|[]]]]]];
      cbn [MarketNews.category MarketNews.impact];
      first [reflexivity|intros [[=]|[=]]].
Qed.

(** X12.  What a response of the news route counts when it is not served
    from the cache and a provider gave an item.  The filter of the route
    keeps of the items of one title the first the providers gave, so that no
    two items kept share a title and every title given is kept;
    [totalItems] is the number of items kept, between one and twenty-five
    (fifteen from NewsAPI and ten from Alpha Vantage at most), and the
    response lists twenty of them, or all when they are fewer.  None of
    this depends on the order the sort leaves the items in. *)
Theorem GET_news_listing `{Platform} `{TextPlatform}
    (clock : MarketNews.Clock)
    (NEWS_API_KEY : option string)
    (newsData : Lookup (option (list MarketNews.Article)))
    (alphaData : Lookup (option (list MarketNews.FeedEntry)))
    (cache : gmap string (SimpleCache.entry MarketNews.NewsData)) :
  let pool := MarketNews.marketNews NEWS_API_KEY newsData alphaData in
  let d :=
    MarketNews.data
      (MarketNews.GET clock NEWS_API_KEY newsData alphaData cache).1 in
  (SimpleCache.get MarketNews.cacheKey (MarketNews.atLookup clock) cache).1
  = None ->
  pool <> [] ->
  MarketNews.uniqueNews pool = first_of_title [] pool
  /\ List.NoDup (map MarketNews.title (MarketNews.uniqueNews pool))
  /\ (forall item, In item (MarketNews.uniqueNews pool) -> In item pool)
  /\ (forall item, In item pool ->
        exists first,
          In first (MarketNews.uniqueNews pool)
          /\ MarketNews.title first = MarketNews.title item)
  /\ MarketNews.totalItems d = length (MarketNews.uniqueNews pool)
  /\ (1 <= MarketNews.totalItems d <= 25)%nat
  /\ length (MarketNews.news d) = Nat.min 20 (MarketNews.totalItems d).
Proof.
  intros pool d Hmiss Hpool. subst d. unfold MarketNews.GET.
  destruct (SimpleCache.get MarketNews.cacheKey (MarketNews.atLookup clock)
              cache) as [[c|] cache0];
    [discriminate|].
  fold pool. destruct (Nat.eqb_spec (length pool) 0) as [E|E];
    [destruct pool; [contradiction|discriminate E]|].
  cbn [fst MarketNews.data MarketNews.news MarketNews.totalItems].
  rewrite !uniqueNews_first_of_title.
  set (sorted := JS.Array_sort MarketNews.byImpactAndRecency
                   (first_of_title [] pool)).
  assert (Hperm : Permutation sorted (first_of_title [] pool))
    by apply Array_sort_permutation.
  assert (Hcover : forall item, In item pool ->
             exists first,
               In first (first_of_title [] pool)
               /\ MarketNews.title first = MarketNews.title item).
  { intros item Hi.
    destruct (first_of_title_covers [] pool item Hi) as [[]|Hc].
    apply in_map_iff in Hc as (first & Hf & Hin). eauto. }
  unfold JS.slice0.
  split; [reflexivity|].
  split; [apply first_of_title_NoDup|].
  split; [intros item Hi; apply first_of_title_In in Hi; tauto|].
  split; [exact Hcover|].
  split; [apply Permutation_length, Hperm|].
  split; [|rewrite length_firstn; reflexivity].
  rewrite (Permutation_length Hperm).
  pose proof (first_of_title_length [] pool) as Hl.
  pose proof (marketNews_length NEWS_API_KEY newsData alphaData) as H25.
  fold pool in H25. split; [|lia].
  destruct pool as [|item pool']; [contradiction|].
  destruct (Hcover item (or_introl eq_refl)) as (first & Hf & _).
  destruct (first_of_title [] (item :: pool')); [destruct Hf|cbn; lia].
Qed.

(** X12 on three articles, two of one title: two items are counted. *)
Lemma GET_news_listing_witness :
  MarketNews.totalItems
    (MarketNews.data
       (@MarketNews.GET referencePlatform referenceText
          (MarketNews.always now0)
          (Some "key"%string) (Json (Some sample_articles)) Throws ∅).1)
  = 2%nat.
Proof.
  pose proof (@GET_news_listing referencePlatform referenceText
                (MarketNews.always now0)
                (Some "key"%string) (Json (Some sample_articles)) Throws ∅)
    as Hl.
  cbv zeta in Hl.
  destruct (Hl eq_refl ltac:(vm_compute; discriminate))
    as (_ & _ & _ & _ & -> & _).
  vm_compute. reflexivity.
Defined.

(** X13.  The order of a response of the news route, when the dates of the
    items the providers gave can be read, so that the comparator of the
    sort is consistent: the items are listed by impact, high before medium
    before low, and among items of one impact by date, the later first;
    they are items the filter kept, no two of one title, and all of them
    when they are twenty at most. *)
Theorem GET_news_order `{Platform} `{TextPlatform}
    (clock : MarketNews.Clock)
    (NEWS_API_KEY : option string)
    (newsData : Lookup (option (list MarketNews.Article)))
    (alphaData : Lookup (option (list MarketNews.FeedEntry)))
    (cache : gmap string (SimpleCache.entry MarketNews.NewsData)) :
  let pool := MarketNews.marketNews NEWS_API_KEY newsData alphaData in
  let d :=
    MarketNews.data
      (MarketNews.GET clock NEWS_API_KEY newsData alphaData cache).1 in
  (SimpleCache.get MarketNews.cacheKey (MarketNews.atLookup clock) cache).1
  = None ->
  pool <> [] ->
  Forall dated pool ->
  StronglySorted listed_before (MarketNews.news d)
  /\ List.NoDup (map MarketNews.title (MarketNews.news d))
  /\ (forall item, In item (MarketNews.news d) ->
        In item (MarketNews.uniqueNews pool))
  /\ ((MarketNews.totalItems d <= 20)%nat ->
      Permutation (MarketNews.news d) (MarketNews.uniqueNews pool)).
Proof.
  intros pool d Hmiss Hpool Hdated. subst d. unfold MarketNews.GET.
  destruct (SimpleCache.get MarketNews.cacheKey (MarketNews.atLookup clock)
              cache) as [[c|] cache0];
    [discriminate|].
  fold pool. destruct (Nat.eqb_spec (length pool) 0) as [E|E];
    [destruct pool; [contradiction|discriminate E]|].
  cbn [fst MarketNews.data MarketNews.news MarketNews.totalItems].
  unfold JS.slice0.
  set (sorted := JS.Array_sort MarketNews.byImpactAndRecency
                   (MarketNews.uniqueNews pool)).
  assert (Hperm : Permutation sorted (MarketNews.uniqueNews pool))
    by apply Array_sort_permutation.
  split; [|split; [|split]].
  - apply StronglySorted_firstn.
    apply (Array_sort_in_order MarketNews.byImpactAndRecency listed_before
             dated).
    + intros x y _ _. apply byImpactAndRecency_later.
    + apply byImpactAndRecency_stays.
    + intros x y z _ _ _. apply listed_before_trans.
    + rewrite uniqueNews_first_of_title. apply List.Forall_forall.
      intros item [Hi _]%first_of_title_In.
      eapply List.Forall_forall in Hdated; eassumption.
  - assert (Hnd : List.NoDup (map MarketNews.title sorted)).
    { eapply Permutation_NoDup;
        [symmetry; apply Permutation_map, Hperm|].
      rewrite uniqueNews_first_of_title. apply first_of_title_NoDup. }
    rewrite <- (firstn_skipn 20 sorted), map_app in Hnd.
    apply List.NoDup_app_remove_r in Hnd. exact Hnd.
  - intros item Hi%In_firstn.
    eapply Permutation_in in Hi; [exact Hi|exact Hperm].
  - intros Hle. rewrite firstn_all2; [exact Hperm|exact Hle].
Qed.

(** X13 on the three articles: the item on inflation, of high impact,
    comes first. *)
Lemma GET_news_order_witness :
  StronglySorted (@listed_before referenceText)
    (MarketNews.news
       (MarketNews.data
          (@MarketNews.GET referencePlatform referenceText
          (MarketNews.always now0)
             (Some "key"%string) (Json (Some sample_articles)) Throws ∅).1)).
Proof.
  pose proof (@GET_news_order referencePlatform referenceText
                (MarketNews.always now0)
                (Some "key"%string) (Json (Some sample_articles)) Throws ∅)
    as Ho.
  cbv zeta in Ho. apply Ho.
  - reflexivity.
  - vm_compute. discriminate.
  - repeat constructor.
Defined.



(** ** The hub: who is subscribed, and what the manager reports *)

Section MoreHubFacts.
Import WebSocketManager.

Lemma subscribers_connect {Data : Type} s :
  subscribers (connect (Data := Data) s).1 = subscribers s.
Proof.
  unfold connect. destruct (_ || _); reflexivity.
Qed.

Lemma subscribers_disconnect {Data : Type} s :
  subscribers (disconnect (Data := Data) s).1 = subscribers s.
Proof.
  unfold disconnect. destruct (ws s); reflexivity.
Qed.

Lemma subscribers_serve r s type :
  subscribers (serve r s).1 type
  = match r with
    | Subscribe t c =>
        if DataType_eqb type t then Set_add c (subscribers s t)
        else subscribers s type
    | Unsubscribe t c =>
        if DataType_eqb type t then Set_delete c (subscribers s t)
        else subscribers s type
    | Tick _ => subscribers s type
    end.
Proof.
  destruct r as [t c|t c|id]; cbn [serve].
  - unfold subscribe. destruct (Nat.eqb _ 1);
      rewrite ?subscribers_connect; reflexivity.
  - unfold unsubscribe. destruct (Nat.eqb _ 0);
      rewrite ?subscribers_disconnect; reflexivity.
  - unfold tick. destruct (List.find _ _) as [[i t]|];
      [destruct (_ <? _)%nat|]; reflexivity.
Qed.

Lemma DataType_eqb_eq a b : DataType_eqb a b = true <-> a = b.
Proof. destruct a, b; cbn; split; congruence. Qed.

Lemma Set_add_In x c l : In x (Set_add c l) <-> x = c \/ In x l.
Proof.
  unfold Set_add. destruct (existsb (Nat.eqb c) l) eqn:E.
  - split; [tauto|]. intros [->|Hx]; [|exact Hx].
    apply existsb_exists in E as (y & Hy & ->%Nat.eqb_eq). exact Hy.
  - rewrite in_app_iff. cbn [In]. split; [intros [?|[?|[]]]; auto|].
    intros [->|?]; auto.
Qed.

Lemma Set_delete_In x c l : In x (Set_delete c l) <-> x <> c /\ In x l.
Proof.
  unfold Set_delete. rewrite filter_In.
  destruct (Nat.eqb_spec c x) as [->|Hne]; cbn [negb]; split.
  - intros [_ [=]].
  - intros [Hne _]. contradiction.
  - intros [Hx _]. split; [congruence|exact Hx].
  - intros [_ Hx]. split; [exact Hx|reflexivity].
Qed.

Lemma Set_add_NoDup c l : List.NoDup l -> List.NoDup (Set_add c l).
Proof.
  intros Hl. unfold Set_add. destruct (existsb (Nat.eqb c) l) eqn:E;
    [exact Hl|].
  apply (Permutation_NoDup (Permutation_cons_append l c)).
  apply List.NoDup_cons; [|exact Hl]. intros Hc.
  assert (existsb (Nat.eqb c) l = true)
    by (apply existsb_exists; exists c; split; [exact Hc|apply Nat.eqb_refl]).
  congruence.
Qed.

Lemma after_snoc history r : after (history ++ [r]) = (serve r (after history)).1.
Proof. unfold after. rewrite fold_left_app. reflexivity. Qed.

Lemma subscribed_snoc history r type callback :
  subscribed (history ++ [r]) type callback
  = match r with
    | Subscribe t c =>
        if DataType_eqb t type && Nat.eqb c callback then true
        else subscribed history type callback
    | Unsubscribe t c =>
        if DataType_eqb t type && Nat.eqb c callback then false
        else subscribed history type callback
    | Tick _ => subscribed history type callback
    end.
Proof. unfold subscribed. rewrite fold_left_app. reflexivity. Qed.

Lemma after_subscribers history type :
  List.NoDup (subscribers (after history) type)
  /\ forall callback,
       In callback (subscribers (after history) type)
       <-> subscribed history type callback = true.
Proof.
  induction history as [|r history IH] using rev_ind.
  - split; [constructor|]. intros callback. cbn. split; [tauto|discriminate].
  - rewrite after_snoc, subscribers_serve. destruct IH as [Hnd Hin].
    destruct r as [t c|t c|id].
    + destruct (DataType_eqb type t) eqn:E.
      * apply DataType_eqb_eq in E as <-. split; [apply Set_add_NoDup, Hnd|].
        intros callback. rewrite Set_add_In, subscribed_snoc, Hin.
        replace (DataType_eqb type type) with true by (destruct type; reflexivity).
        cbn [andb]. destruct (Nat.eqb_spec c callback) as [->|Hne];
          [tauto|]. split; [intros [->|?]; [contradiction|assumption]|tauto].
      * split; [exact Hnd|]. intros callback. rewrite subscribed_snoc, Hin.
        replace (DataType_eqb t type) with false
          by (destruct t, type; try reflexivity; discriminate E).
        reflexivity.
    + destruct (DataType_eqb type t) eqn:E.
      * apply DataType_eqb_eq in E as <-.
        split; [apply List.NoDup_filter, Hnd|].
        intros callback. rewrite Set_delete_In, subscribed_snoc, Hin.
        replace (DataType_eqb type type) with true by (destruct type; reflexivity).
        cbn [andb]. destruct (Nat.eqb_spec c callback) as [->|Hne].
        -- split; [intros [? _]; contradiction|discriminate].
        -- split; [tauto|]. intros Hs. split; [congruence|exact Hs].
      * split; [exact Hnd|]. intros callback. rewrite subscribed_snoc, Hin.
        replace (DataType_eqb t type) with false
          by (destruct t, type; try reflexivity; discriminate E).
        reflexivity.
    + split; [exact Hnd|]. intros callback. rewrite subscribed_snoc. apply Hin.
Qed.

Lemma after_attempts history : reconnectAttempts (after history) = 0%nat.
Proof.
  induction history as [|r history IH] using rev_ind; [reflexivity|].
  rewrite after_snoc. destruct r as [t c|t c|id]; cbn [serve].
  - unfold subscribe. destruct (Nat.eqb _ 1); [|exact IH].
    unfold connect. destruct (_ || _); [exact IH|reflexivity].
  - unfold unsubscribe. destruct (Nat.eqb _ 0); [|exact IH].
    unfold disconnect. destruct (ws _); reflexivity.
  - unfold tick. destruct (List.find _ _) as [[i t]|];
      [destruct (_ <? _)%nat|]; exact IH.
Qed.

Lemma count_map_NoDup {Data : Type} (data : Data) callback l :
  List.NoDup l ->
  length (List.filter (fun i : nat * Data => Nat.eqb i.1 callback)
            (map (fun c => (c, data)) l))
  = if existsb (Nat.eqb callback) l then 1%nat else 0%nat.
Proof.
  induction 1 as [|x l Hx Hl IH]; [reflexivity|].
  cbn [map List.filter fst existsb]. rewrite (Nat.eqb_sym callback x).
  destruct (Nat.eqb_spec x callback) as [->|Hne]; cbn [orb length].
  - rewrite IH.
    replace (existsb (Nat.eqb callback) l) with false; [reflexivity|].
    symmetry. apply not_true_is_false. intros (y & Hy & ->%Nat.eqb_eq)%existsb_exists.
    contradiction.
  - exact IH.
Qed.

End MoreHubFacts.

(** X15.  Who is subscribed.  After every history of requests a topic's
    subscriber set lists a callback exactly when the latest request about
    that callback and that topic was a [subscribe]: subscriptions are not
    counted, so that one [unsubscribe] undoes any number of [subscribe]s,
    and no request about another callback or another topic matters; and no
    callback is listed twice. *)
Theorem subscription_follows_last_request (history : list Request)
    (type : WebSocketManager.DataType)
    (callback : WebSocketManager.SubscriptionCallback) :
  (In callback (WebSocketManager.subscribers (after history) type)
   <-> subscribed history type callback = true)
  /\ List.NoDup (WebSocketManager.subscribers (after history) type).
Proof.
  destruct (after_subscribers history type) as [Hnd Hin].
  split; [apply Hin|exact Hnd].
Qed.

(** X16.  Who receives a refresh.  When the fetch of a refresh settles,
    whatever the manager has been asked before, a callback is called once
    if the response reports success and the callback's latest request on
    the topic was a [subscribe], and is not called otherwise: not after its
    [unsubscribe], even by a refresh that was under way, not for a response
    without [success], and not when the fetch threw. *)
Theorem refresh_reaches_the_subscribed {Data World : Type}
    (pricePayload : Data -> Data)
    (run : WebSocketManager.SubscriptionCallback -> Data -> World ->
           World * bool)
    (history : list Request) (type : WebSocketManager.DataType)
    (result : Lookup (bool * Data)) (w : World)
    (callback : WebSocketManager.SubscriptionCallback) :
  calls_of callback
    (WebSocketManager.settled pricePayload run type result (after history) w).2
  = match result with
    | Json (true, _) =>
        if subscribed history type callback then 1%nat else 0%nat
    | _ => 0%nat
    end.
Proof.
  unfold WebSocketManager.settled, calls_of.
  destruct result as [|[[] data]]; try reflexivity.
  unfold WebSocketManager.broadcast.
  match goal with
  | |- context [WebSocketManager.forEach run type ?cs ?d w] =>
      pose proof (forEach_invocations run type cs d w) as [Hi _];
      destruct (WebSocketManager.forEach run type cs d w) as [w' effects]
  end.
  cbn [snd] in *. rewrite Hi.
  destruct (after_subscribers history type) as [Hnd Hin].
  rewrite (count_map_NoDup _ _ _ Hnd).
  destruct (subscribed history type callback) eqn:E.
  - apply Hin in E.
    replace (existsb _ _) with true; [reflexivity|].
    symmetry. apply existsb_exists. exists callback.
    split; [exact E|apply Nat.eqb_refl].
  - replace (existsb _ _) with false; [reflexivity|].
    symmetry. apply not_true_is_false.
    intros (y & Hy & ->%Nat.eqb_eq)%existsb_exists.
    apply Hin in Hy. congruence.
Qed.

(** X17.  What the manager reports.  After every history of requests the
    status is ['connected'] while some topic has a subscriber and
    ['disconnected'] otherwise: connecting cannot fail in the simulation, so
    that ['connecting'] and ['error'] are never reported and no attempt is
    counted. *)
Theorem connection_status (history : list Request) :
  WebSocketManager.getConnectionStatus (after history)
  = (if (0 <? WebSocketManager.getTotalSubscribers (after history))%nat
     then WebSocketManager.connected else WebSocketManager.disconnected)
  /\ WebSocketManager.reconnectAttempts (after history) = 0%nat.
Proof.
  pose proof (after_invariant history) as [Hcon Hws].
  pose proof (after_attempts history) as Hatt.
  split; [|exact Hatt].
  unfold WebSocketManager.getConnectionStatus, WebSocketManager.isOpen.
  rewrite Hcon, Hatt.
  destruct (WebSocketManager.ws (after history)) as [sock|].
  - destruct Hws as [Ht _].
    destruct (Nat.ltb_spec 0 (WebSocketManager.getTotalSubscribers (after history)));
      [reflexivity|lia].
  - destruct Hws as [-> _]. reflexivity.
Qed.

(** X18.  The reconnection schedule, and what it leaves behind.  An attempt
    to connect that throws has armed its three intervals before it throws,
    and their ids are lost: after [n] such attempts, from a manager without
    socket, [3 n] intervals more are live, the manager has no socket, and
    [disconnect] clears none of them.  Starting with no attempt counted,
    the [k]-th attempt that throws, for [k] from one to five, then arms a
    timer of [1000 * 2 ^ (k - 1)] milliseconds (one, two, four, eight and
    sixteen seconds) for the next attempt; from the sixth on no such timer
    is armed, the count stays at five and the status is ['error']. *)
Theorem reconnection_backoff {Data : Type} (s : WebSocketManager.State)
    (n : nat) :
  WebSocketManager.ws s = None ->
  WebSocketManager.isConnecting s = false ->
  WebSocketManager.reconnectAttempts s = 0%nat ->
  let last := after_failures n s in
  let id := WebSocketManager.nextId last in
  WebSocketManager.reconnectAttempts last = Nat.min n 5
  /\ WebSocketManager.ws last = None
  /\ id = (WebSocketManager.nextId s + 3 * n)%nat
  /\ WebSocketManager.intervals last
     = WebSocketManager.intervals s ++ leaked (WebSocketManager.nextId s) n
  /\ WebSocketManager.disconnect (Data := Data) last
     = ({| WebSocketManager.ws := None;
           WebSocketManager.reconnectAttempts := 0;
           WebSocketManager.subscribers := WebSocketManager.subscribers last;
           WebSocketManager.isConnecting := false;
           WebSocketManager.intervals := WebSocketManager.intervals last;
           WebSocketManager.nextId := id |}, [])
  /\ (Reconnection.failedConnect last).2
     = [Reconnection.SetInterval id WebSocketManager.price 5000;
        Reconnection.SetInterval (S id) WebSocketManager.options 30000;
        Reconnection.SetInterval (S (S id)) WebSocketManager.news 120000;
        Reconnection.ConsoleErrorConnectionFailed]
       ++ (if (n <? 5)%nat
           then [Reconnection.ConsoleLogReconnecting
                   (1000 * 2 ^ Z.of_nat n) (S n) 5;
                 Reconnection.SetTimeout (1000 * 2 ^ Z.of_nat n)]
           else [Reconnection.ConsoleErrorMaxAttempts])
  /\ WebSocketManager.getConnectionStatus last
     = (if (n <? 5)%nat then WebSocketManager.disconnected
        else WebSocketManager.error).
Proof.
  intros Hws Hcon Hatt last id.
  assert (Hinv : WebSocketManager.ws last = None
                 /\ WebSocketManager.isConnecting last = false
                 /\ WebSocketManager.reconnectAttempts last = Nat.min n 5
                 /\ WebSocketManager.nextId last
                    = (WebSocketManager.nextId s + 3 * n)%nat
                 /\ WebSocketManager.intervals last
                    = WebSocketManager.intervals s
                      ++ leaked (WebSocketManager.nextId s) n).
  { subst id last. induction n as [|n IH].
    - cbn [after_failures leaked]. rewrite app_nil_r, Nat.mul_0_r, Nat.add_0_r.
      auto.
    - cbn [after_failures leaked]. destruct IH as (H1 & H2 & H3 & H4 & H5).
      unfold Reconnection.failedConnect, WebSocketManager.isOpen.
      rewrite H1, H2. cbn [orb].
      unfold Reconnection.interruptedSimulation,
        Reconnection.handleConnectionError.
      cbn [Reconnection.with_connection WebSocketManager.reconnectAttempts
             WebSocketManager.nextId WebSocketManager.intervals
             WebSocketManager.ws WebSocketManager.isConnecting
             WebSocketManager.subscribers].
      rewrite H3, H4, H5. unfold WebSocketManager.maxReconnectAttempts.
      destruct (Nat.ltb_spec (Nat.min n 5) 5);
        cbn [fst WebSocketManager.ws WebSocketManager.isConnecting
               WebSocketManager.reconnectAttempts
               WebSocketManager.nextId WebSocketManager.intervals
               Reconnection.with_connection];
        rewrite <- ?app_assoc; repeat split; try reflexivity;
        try assumption; lia. }
  destruct Hinv as (H1 & H2 & H3 & H4 & H5).
  split; [exact H3|]. split; [exact H1|]. split; [exact H4|].
  split; [exact H5|]. split; [|split].
  - unfold WebSocketManager.disconnect. rewrite H1. reflexivity.
  - unfold Reconnection.failedConnect, WebSocketManager.isOpen.
    rewrite H1, H2. cbn [orb].
    unfold Reconnection.interruptedSimulation,
      Reconnection.handleConnectionError.
    cbn [Reconnection.with_connection WebSocketManager.reconnectAttempts
           WebSocketManager.nextId WebSocketManager.intervals
           WebSocketManager.ws WebSocketManager.isConnecting
           WebSocketManager.subscribers].
    rewrite H3. unfold WebSocketManager.maxReconnectAttempts,
      Reconnection.reconnectDelay.
    destruct (Nat.ltb_spec (Nat.min n 5) 5), (Nat.ltb_spec n 5); try lia;
      cbn [snd app]; [|reflexivity].
    replace (Nat.min n 5) with n by lia.
    replace (Z.of_nat (S n) - 1)%Z with (Z.of_nat n) by lia. reflexivity.
  - unfold WebSocketManager.getConnectionStatus, WebSocketManager.isOpen.
    rewrite H1, H2, H3. unfold WebSocketManager.maxReconnectAttempts.
    destruct (Nat.leb_spec 5 (Nat.min n 5)), (Nat.ltb_spec n 5); try lia;
      reflexivity.
Qed.

(** X18 on a new manager: the fourth attempt that throws arms the tenth to
    twelfth interval and a timer of eight seconds. *)
Lemma reconnection_backoff_witness :
  (Reconnection.failedConnect
     (after_failures 3 WebSocketManager.constructor)).2
  = [Reconnection.SetInterval 9 WebSocketManager.price 5000;
     Reconnection.SetInterval 10 WebSocketManager.options 30000;
     Reconnection.SetInterval 11 WebSocketManager.news 120000;
     Reconnection.ConsoleErrorConnectionFailed;
     Reconnection.ConsoleLogReconnecting 8000 4 5;
     Reconnection.SetTimeout 8000].
Proof.
  pose proof (@reconnection_backoff unit WebSocketManager.constructor 3
                eq_refl eq_refl eq_refl) as Hb.
  cbv zeta in Hb. destruct Hb as (_ & _ & _ & _ & _ & Hb & _). exact Hb.
Defined.
(** ** The price alerts *)

Section AlertFacts.
Context `{Platform} `{TextPlatform}.
Import PriceAlerts.

Lemma checkAlert_cases now currentPrice alert :
  (waiting alert && shouldTrigger currentPrice alert = true
   /\ checkAlert now currentPrice alert
      = {| id := id alert; price := price alert;
           condition := condition alert; message := message alert;
           active := false; createdAt := createdAt alert;
           triggeredAt := Some (Date_toISOString now) |})
  \/ (waiting alert && shouldTrigger currentPrice alert = false
      /\ checkAlert now currentPrice alert = alert).
Proof.
  unfold checkAlert, waiting.
  destruct (active alert), (truthy (triggeredAt alert)); cbn [negb orb andb];
    try (right; split; reflexivity).
  destruct (shouldTrigger currentPrice alert); [left|right]; split; reflexivity.
Qed.

Lemma checkAlert_price now currentPrice alert :
  price (checkAlert now currentPrice alert) = price alert.
Proof.
  destruct (checkAlert_cases now currentPrice alert) as [[_ ->]|[_ ->]];
    reflexivity.
Qed.

Lemma shouldTrigger_nan alert : shouldTrigger nan alert = false.
Proof.
  unfold shouldTrigger, JS.geb.
  rewrite !leb_lex. change (fkey nan) with (@None (Z * Z * Z)).
  unfold lex_leb. destruct (fkey (price alert)); rewrite !andb_false_r;
    reflexivity.
Qed.

Lemma lookup_map {A B : Type} (f : A -> B) (l : list A) (i : nat) :
  map f l !! i = f <$> l !! i.
Proof.
  revert i. induction l as [|x l IH]; intros [|i]; try reflexivity.
  apply IH.
Qed.

Lemma imap_same {A : Type} (f : nat -> A -> A) (l : list A) :
  (forall i x, l !! i = Some x -> f i x = x) -> imap f l = l.
Proof.
  revert f. induction l as [|x l IH]; intros f Hf; [reflexivity|].
  rewrite imap_cons. f_equal; [apply (Hf O); reflexivity|].
  apply IH. intros i y Hy. apply (Hf (S i)). exact Hy.
Qed.

Lemma leb_false_ltb (x y : float) :
  is_nan x = false -> is_nan y = false -> (x <=? y) = false -> (y <? x) = true.
Proof. intros. float_order. Qed.

End AlertFacts.

(** X19.  What a price does to the alerts.  The update keeps every alert
    in its place, with its identifier, target and condition; it triggers
    the alerts that were waiting (active and never triggered) and whose
    condition the price meets, which become inactive and carry the time,
    and changes no other alert; afterwards no alert is left waiting on a
    condition the price meets.  A price that is [NaN] changes nothing. *)
Theorem checkAlerts_triggers `{Platform} `{TextPlatform}
    (clock : nat -> JS.number) (currentPrice : JS.number)
    (prevAlerts : list PriceAlerts.PriceAlert) :
  let alerts := PriceAlerts.checkAlerts clock currentPrice prevAlerts in
  length alerts = length prevAlerts
  /\ (forall index alert,
        prevAlerts !! index = Some alert ->
        alerts !! index
        = Some
            (if waiting alert && PriceAlerts.shouldTrigger currentPrice alert
             then
               {| PriceAlerts.id := PriceAlerts.id alert;
                  PriceAlerts.price := PriceAlerts.price alert;
                  PriceAlerts.condition := PriceAlerts.condition alert;
                  PriceAlerts.message := PriceAlerts.message alert;
                  PriceAlerts.active := false;
                  PriceAlerts.createdAt := PriceAlerts.createdAt alert;
                  PriceAlerts.triggeredAt :=
                    Some (Date_toISOString (clock index)) |}
             else alert))
  /\ Forall
       (fun alert =>
          waiting alert && PriceAlerts.shouldTrigger currentPrice alert
          = false)
       alerts
  /\ (is_nan currentPrice = true -> alerts = prevAlerts).
Proof.
  intros alerts. subst alerts. unfold PriceAlerts.checkAlerts.
  split; [apply length_imap|]. split; [|split].
  - intros index alert Hi. rewrite list_lookup_imap, Hi. cbn [fmap option_fmap option_map].
    f_equal.
    destruct (checkAlert_cases (clock index) currentPrice alert)
      as [[-> ->]|[-> ->]]; reflexivity.
  - apply List.Forall_forall. intros alert Hin.
    apply list_elem_of_In, elem_of_lookup_imap in Hin
      as (index & prev & -> & _).
    destruct (checkAlert_cases (clock index) currentPrice prev)
      as [[_ ->]|[E ->]]; [reflexivity|exact E].
  - intros Hnan%is_nan_eq. subst currentPrice.
    apply imap_same. intros index alert _.
    destruct (checkAlert_cases (clock index) nan alert) as [[E _]|[_ ->]];
      [|reflexivity].
    rewrite shouldTrigger_nan, andb_false_r in E. discriminate E.
Qed.

(** X20.  An alert is triggered at most once.  Through prices arriving,
    alerts being paused and resumed and alerts being added, an alert that
    has been triggered keeps its place and the time it was triggered at:
    no later price triggers it again, not even after it was resumed. *)
Theorem triggered_alert_stays `{Platform} `{TextPlatform}
    (ops : list AlertOp) (alerts : list PriceAlerts.PriceAlert)
    (index : nat) (alert : PriceAlerts.PriceAlert) :
  forallb (fun op => negb (is_Remove op)) ops = true ->
  alerts !! index = Some alert ->
  PriceAlerts.truthy (PriceAlerts.triggeredAt alert) = true ->
  exists alert',
    apply_ops ops alerts !! index = Some alert'
    /\ PriceAlerts.triggeredAt alert' = PriceAlerts.triggeredAt alert
    /\ PriceAlerts.id alert' = PriceAlerts.id alert
    /\ PriceAlerts.price alert' = PriceAlerts.price alert.
Proof.
  revert alerts alert. induction ops as [|op ops IH]; intros alerts alert Hops Hi Ht.
  - exists alert. auto.
  - cbn [forallb] in Hops. apply andb_prop in Hops as [Hop Hops].
    unfold apply_ops. cbn [fold_left]. fold (apply_ops ops (apply_op op alerts)).
    assert (Hstep : exists alert1,
               apply_op op alerts !! index = Some alert1
               /\ PriceAlerts.triggeredAt alert1 = PriceAlerts.triggeredAt alert
               /\ PriceAlerts.id alert1 = PriceAlerts.id alert
               /\ PriceAlerts.price alert1 = PriceAlerts.price alert).
    { destruct op as [clock p|id'|id'|now created text cond];
        cbn [apply_op is_Remove negb] in *; [| | discriminate |].
      - exists alert. split; [|auto]. unfold PriceAlerts.checkAlerts.
        rewrite list_lookup_imap, Hi. cbn. f_equal.
        unfold PriceAlerts.checkAlert. rewrite Ht, orb_true_r. reflexivity.
      - unfold PriceAlerts.toggleAlert. rewrite lookup_map, Hi.
        eexists. split; [reflexivity|].
        destruct (String.eqb _ _); auto.
      - unfold PriceAlerts.addAlert. exists alert. split; [|auto].
        destruct (_ || _); [exact Hi|].
        apply lookup_app_l_Some, Hi. }
    destruct Hstep as (alert1 & H1 & Ht1 & Hid1 & Hp1).
    destruct (IH _ alert1 Hops H1) as (alert' & H' & Ht' & Hid' & Hp').
    + rewrite Ht1. exact Ht.
    + exists alert'. repeat split; congruence.
Qed.

(** X20 on an alert triggered at 260: resumed, it is not triggered again
    by a price of 300. *)
Lemma triggered_alert_stays_witness :
  exists alert',
    @apply_ops referencePlatform referenceText
      [Toggle "1700000000000"; PriceUpdate (fun _ => now0) 300]
      [triggered_alert] !! 0%nat = Some alert'
    /\ PriceAlerts.triggeredAt alert'
       = Some "2023-11-15T15:00:00.000Z"%string
    /\ PriceAlerts.id alert' = "1700000000000"%string
    /\ PriceAlerts.price alert' = 260.
Proof.
  apply (@triggered_alert_stays referencePlatform referenceText
           [Toggle "1700000000000"; PriceUpdate (fun _ => now0) 300]
           [triggered_alert] 0%nat triggered_alert);
    reflexivity.
Defined.

(** X21.  Every alert made through the form has a target above zero:
    starting without alerts, whatever is added, paused, resumed, removed or
    triggered, the price of every alert in the list is a positive number,
    never zero, negative or [NaN]. *)
Theorem alerts_have_positive_targets `{Platform} `{TextPlatform}
    (ops : list AlertOp) :
  Forall (fun alert => (0 <? PriceAlerts.price alert) = true)
    (apply_ops ops []).
Proof.
  unfold apply_ops.
  assert (Hnil : Forall (fun alert => (0 <? PriceAlerts.price alert) = true)
                   (@nil PriceAlerts.PriceAlert)) by constructor.
  revert Hnil. generalize (@nil PriceAlerts.PriceAlert).
  induction ops as [|op ops IH]; intros alerts Ha; [exact Ha|].
  cbn [fold_left]. apply IH.
  rewrite List.Forall_forall in *.
  destruct op as [clock p|id'|id'|now created text cond]; cbn [apply_op];
    intros alert Hin.
  - unfold PriceAlerts.checkAlerts in Hin.
    apply list_elem_of_In, elem_of_lookup_imap in Hin
      as (index & prev & -> & Hp).
    rewrite checkAlert_price. apply Ha.
    apply list_elem_of_In, list_elem_of_lookup. eauto.
  - unfold PriceAlerts.toggleAlert in Hin.
    apply in_map_iff in Hin as (prev & <- & Hp).
    destruct (String.eqb _ _); cbn [PriceAlerts.price]; apply Ha, Hp.
  - unfold PriceAlerts.removeAlert in Hin.
    apply filter_In in Hin as [Hp _]. apply Ha, Hp.
  - unfold PriceAlerts.addAlert in Hin.
    destruct (is_nan (parseFloat text)) eqn:En; cbn [orb] in Hin;
      [apply Ha, Hin|].
    destruct (parseFloat text <=? 0) eqn:Ez; [apply Ha, Hin|].
    apply in_app_or in Hin as [Hp|[<-|[]]]; [apply Ha, Hp|].
    cbn [PriceAlerts.price]. apply leb_false_ltb; [exact En|reflexivity|exact Ez].
Qed.
(** ** The news card *)

Section CardFacts.
Import MarketNews NewsCard.

Lemma Set_from_In (seen xs : list string) (c : string) :
  In c (Set_from seen xs) <-> In c seen \/ In c xs.
Proof.
  revert seen. induction xs as [|x xs IH]; intros seen; cbn [Set_from In];
    [tauto|].
  rewrite IH. destruct (existsb (String.eqb x) seen) eqn:E.
  - apply existsb_eqb_In in E. split; [tauto|].
    intros [?|[<-|?]]; tauto.
  - rewrite in_app_iff. cbn [In]. tauto.
Qed.

Lemma Set_from_NoDup (seen xs : list string) :
  List.NoDup seen -> List.NoDup (Set_from seen xs).
Proof.
  revert seen. induction xs as [|x xs IH]; intros seen Hs; [exact Hs|].
  cbn [Set_from]. apply IH. destruct (existsb (String.eqb x) seen) eqn:E;
    [exact Hs|].
  apply (Permutation_NoDup (Permutation_cons_append seen x)).
  apply List.NoDup_cons; [|exact Hs].
  rewrite <- existsb_eqb_In, E. discriminate.
Qed.

End CardFacts.

(** X22.  What the news card offers.  The category menu lists the
    categories of the news at hand, each once; choosing one of them with
    the impact filter on ['all'] never gives an empty list, and gives the
    items of that category and no other; with both filters on ['all'] the
    card shows the news as they came; and no filter shows an item that is
    not in the news. *)
Theorem news_card_views (news : list MarketNews.NewsItem) :
  NewsCard.filteredNews NewsCard.all "all" news = news
  /\ List.NoDup (NewsCard.categories news)
  /\ (forall c,
        In c (NewsCard.categories news)
        <-> exists item, In item news /\ MarketNews.category item = c)
  /\ (forall c,
        In c (NewsCard.categories news) ->
        NewsCard.filteredNews NewsCard.all c news <> [])
  /\ (forall filter c item,
        In item (NewsCard.filteredNews filter c news) ->
        In item news
        /\ (c = "all"%string \/ MarketNews.category item = c)
        /\ (filter = NewsCard.all
            \/ filter = NewsCard.only (MarketNews.impact item))).
Proof.
  assert (Hcat : forall c,
             In c (NewsCard.categories news)
             <-> exists item, In item news /\ MarketNews.category item = c).
  { intros c. unfold NewsCard.categories. rewrite Set_from_In, in_map_iff.
    cbn [In]. split; [intros [[]|(item & E & Hi)]; eauto|].
    intros (item & Hi & E). right. eauto. }
  split; [|split; [|split; [|split]]].
  - unfold NewsCard.filteredNews. cbn [String.eqb orb andb].
    induction news as [|item news IH]; [reflexivity|].
    cbn [List.filter]. f_equal. apply IH.
    intros c. unfold NewsCard.categories. rewrite Set_from_In, in_map_iff.
    cbn [In]. split; [intros [[]|(x & E & Hi)]; eauto|].
    intros (x & Hi & E). right. eauto.
  - apply Set_from_NoDup. constructor.
  - exact Hcat.
  - intros c (item & Hi & E)%Hcat Hnil.
    assert (Hin : In item (NewsCard.filteredNews NewsCard.all c news)).
    { unfold NewsCard.filteredNews. apply filter_In. split; [exact Hi|].
      cbn [andb]. rewrite E, String.eqb_refl. apply orb_true_r. }
    rewrite Hnil in Hin. destruct Hin.
  - intros filter c item [Hi Hp]%filter_In. split; [exact Hi|].
    apply andb_prop in Hp as [H1 H2]. split.
    + apply orb_prop in H2 as [H2|H2]; apply String.eqb_eq in H2; auto.
    + destruct filter as [|i]; [left; reflexivity|right].
      f_equal. destruct (MarketNews.impact item), i; try discriminate H1;
        reflexivity.
Qed.

(** ** The calendar route *)

(** X23.  What a response of the calendar route lists when it is not
    served from the cache: at most fifteen economic events and ten earnings
    events, each with a date the platform reads as lying between the
    reading of the clock the handler takes for its last two filters and
    thirty days later, whether the events come from Financial Modeling
    Prep or from the static lists; while no key is configured the
    provider's answers are not used and the events listed are static ones;
    and once the provider's earnings calendar has an entry dated at or
    after the reading the handler took for it, the earnings listed are the
    provider's, so that none is listed when those entries all lie more
    than thirty days ahead. *)
Theorem calendar_lists_upcoming `{Platform} `{TextPlatform}
    (getStaticEconomicEvents : list EconomicCalendar.EconomicEvent)
    (getTeslaEvents : list EconomicCalendar.EarningsEvent)
    (clock : EconomicCalendar.Clock) (FMP_API_KEY : option string)
    (economicData : Lookup (option (list EconomicCalendar.FmpEconomic)))
    (earningsData : Lookup (option (list EconomicCalendar.FmpEarnings)))
    (cache : gmap string (SimpleCache.entry EconomicCalendar.CalendarData)) :
  let d :=
    EconomicCalendar.data
      (EconomicCalendar.GET getStaticEconomicEvents getTeslaEvents clock
         FMP_API_KEY economicData earningsData cache).1 in
  let now := EconomicCalendar.atUpcoming clock in
  (SimpleCache.get EconomicCalendar.cacheKey
     (EconomicCalendar.atLookup clock) cache).1 = None ->
  Forall
    (fun event =>
       JS.geb (Date_parse (EconomicCalendar.date event)) now = true
       /\ (Date_parse (EconomicCalendar.date event)
           <=? EconomicCalendar.thirtyDaysFrom now) = true)
    (EconomicCalendar.economicEvents d)
  /\ Forall
       (fun event =>
          JS.geb (Date_parse (EconomicCalendar.earnings_date event)) now
          = true
          /\ (Date_parse (EconomicCalendar.earnings_date event)
              <=? EconomicCalendar.thirtyDaysFrom now) = true)
       (EconomicCalendar.earningsEvents d)
  /\ (length (EconomicCalendar.economicEvents d) <= 15)%nat
  /\ (length (EconomicCalendar.earningsEvents d) <= 10)%nat
  /\ (or_demo FMP_API_KEY = "demo"%string ->
      (forall event, In event (EconomicCalendar.economicEvents d) ->
         In event getStaticEconomicEvents)
      /\ (forall event, In event (EconomicCalendar.earningsEvents d) ->
            In event getTeslaEvents))
  /\ (forall economic earnings,
        or_demo FMP_API_KEY <> "demo"%string ->
        economicData = Json economic ->
        earningsData = Json (Some earnings) ->
        EconomicCalendar.fromEarningCalendar
          (EconomicCalendar.atEarnings clock) earnings <> [] ->
        forall event, In event (EconomicCalendar.earningsEvents d) ->
          In event
            (EconomicCalendar.fromEarningCalendar
               (EconomicCalendar.atEarnings clock) earnings)).
Proof.
  intros d now Hmiss. subst d now. unfold EconomicCalendar.GET.
  destruct (SimpleCache.get EconomicCalendar.cacheKey
              (EconomicCalendar.atLookup clock) cache)
    as [[c|] cache0]; [discriminate|].
  destruct (EconomicCalendar.fromFmp clock FMP_API_KEY economicData
              earningsData)
    as [economicEvents earningsEvents] eqn:Efmp.
  cbn [fst EconomicCalendar.data EconomicCalendar.economicEvents
         EconomicCalendar.earningsEvents].
  unfold JS.slice0. split; [|split; [|split; [|split; [|split]]]].
  - apply List.Forall_forall. intros event Hi%In_firstn.
    apply filter_In in Hi as [_ Hu]. apply andb_prop in Hu. exact Hu.
  - apply List.Forall_forall. intros event Hi%In_firstn.
    apply filter_In in Hi as [_ Hu]. apply andb_prop in Hu. exact Hu.
  - rewrite length_firstn. lia.
  - rewrite length_firstn. lia.
  - intros Hdemo. unfold EconomicCalendar.fromFmp in Efmp.
    rewrite Hdemo in Efmp. cbn in Efmp. injection Efmp as <- <-.
    cbn [length Nat.eqb].
    split; intros event Hi%In_firstn; apply filter_In in Hi; tauto.
  - intros economic earnings Hkey -> -> Hne event Hi%In_firstn.
    apply filter_In in Hi as [Hi _]. unfold EconomicCalendar.fromFmp in Efmp.
    apply String.eqb_neq in Hkey. rewrite Hkey in Efmp.
    injection Efmp as <- <-.
    destruct (EconomicCalendar.fromEarningCalendar
                (EconomicCalendar.atEarnings clock) earnings);
      [congruence|exact Hi].
Qed.

(** X23 on a provider that lists one event in three days and one in sixty:
    the first is listed, and its date lies in the window. *)
Lemma calendar_lists_upcoming_witness :
  map EconomicCalendar.event
    (EconomicCalendar.economicEvents sample_calendar_data)
  = ["Retail Sales"%string]
  /\ Forall
       (fun event =>
          JS.geb
            (@Date_parse referenceText (EconomicCalendar.date event)) now0
          = true
          /\ (@Date_parse referenceText (EconomicCalendar.date event)
              <=? EconomicCalendar.thirtyDaysFrom now0) = true)
       (EconomicCalendar.economicEvents sample_calendar_data).
Proof.
  pose proof (@calendar_lists_upcoming referencePlatform referenceText
                [] [] (EconomicCalendar.always now0) (Some "key"%string)
                (Json (Some sample_calendar)) Throws ∅) as Hc.
  cbv zeta in Hc. destruct (Hc eq_refl) as (Hw & _).
  split; [vm_compute; reflexivity|exact Hw].
Defined.


